(** * Inventory store (Producto / Inventario): a shallow embedding

    Sources embedded here:
    - [PARCIAL 02/Semana 09/producto.py]   (class [Producto])
    - [PARCIAL 02/semana 10/inventario.py] (class [Inventario])
    - [PARCIAL 02/Semana 09/inventario.py] (class [Inventario], before it
      was given a file)
    - [PARCIAL 02/semana 10/main.py]       ([obtener_entero],
      [obtener_float])

    Python objects live in a heap ([objetos]) and are referred to by
    location, so the list [_productos] and the dictionary
    [_indice_por_id] of an [Inventario] share the same [Producto]
    objects, as they do in the interpreter.  Methods are computations
    in a state-and-exception monad over the whole world: the heap, the
    inventory object, the backing file and the console.

    Scope of the model:
    - text is ASCII ([list ascii], codes below 128); [str.strip],
      [str.lower], [str.title], [str.split], [in] and [int] follow
      CPython on that range;
    - [int] is [Z]; the interpreter's configurable limit on the number
      of digits converted between [int] and [str] is not modelled;
    - [float], [float(s)], [repr] and the comparison with [0] are taken
      as an interface ([PyFloat]) with two laws of the runtime; a price
      is a [float], as the annotations of [Producto] say;
    - the file is opened in text mode on a POSIX system and holds text
      that decodes; a failure to open it, and the room the disk has
      when the file is written, are attributes of the environment
      ([Disco]);
    - the standard input is the list of the lines still to be read;
    - [Producto.__str__] and [Producto.__repr__] are not modelled (the
      first rounds a float to two decimals), so a printed product is
      the product itself; nor is [main], whose sample data give a
      [Producto] an [int] for its price. *)

From Stdlib Require Import ZArith Ascii String Lia Sorted.
From stdpp Require Import base option list gmap strings.

Abbreviation str := (list ascii).

(** A string literal as a Python [str]. *)
Definition lit (s : string) : str := list_ascii_of_string s.

(* ------------------------------------------------------------------ *)
(** ** Python builtins on text *)
(* ------------------------------------------------------------------ *)

Module Py.

Definition LF : ascii := "010"%char.
Definition CR : ascii := "013"%char.

Definition codigo (c : ascii) : nat := nat_of_ascii c.

Definition entre (a b : nat) (c : ascii) : bool :=
  (a <=? codigo c)%nat && (codigo c <=? b)%nat.

(** [str.isspace] on one ASCII character: TAB, LF, VT, FF, CR, the four
    separators FS GS RS US, and the space. *)
Definition isspace (c : ascii) : bool := entre 9 13 c || entre 28 32 c.

(** C's [isspace], which [int(s)] uses on an ASCII string. *)
Definition isspace_c (c : ascii) : bool := entre 9 13 c || entre 32 32 c.

Definition isupper (c : ascii) : bool := entre 65 90 c.
Definition islower (c : ascii) : bool := entre 97 122 c.
Definition iscased (c : ascii) : bool := isupper c || islower c.
Definition isdigit (c : ascii) : bool := entre 48 57 c.

Definition lower_c (c : ascii) : ascii :=
  if isupper c then ascii_of_nat (codigo c + 32) else c.
Definition upper_c (c : ascii) : ascii :=
  if islower c then ascii_of_nat (codigo c - 32) else c.

(** [s.lower()] *)
Definition lower (s : str) : str := map lower_c s.

(** [s.title()]: a cased character is upper-cased when the character
    before it is not cased, lower-cased otherwise. *)
Fixpoint title_desde (previo_cased : bool) (s : str) : str :=
  match s with
  | [] => []
  | c :: r =>
      (if previo_cased then lower_c c else upper_c c)
        :: title_desde (iscased c) r
  end.
Definition title (s : str) : str := title_desde false s.

Fixpoint lstrip_con (esp : ascii → bool) (s : str) : str :=
  match s with
  | [] => []
  | c :: r => if esp c then lstrip_con esp r else s
  end.
Definition strip_con (esp : ascii → bool) (s : str) : str :=
  rev (lstrip_con esp (rev (lstrip_con esp s))).

(** [s.strip()] *)
Definition strip (s : str) : str := strip_con isspace s.

(** [s.split(sep)] for a one-character separator. *)
Fixpoint split (sep : ascii) (s : str) : list str :=
  match s with
  | [] => [[]]
  | c :: r =>
      if Ascii.eqb c sep then [] :: split sep r
      else match split sep r with
           | [] => [[c]]
           | campo :: campos => (c :: campo) :: campos
           end
  end.

Fixpoint startswith (t s : str) : bool :=
  match t, s with
  | [], _ => true
  | _ :: _, [] => false
  | a :: t', b :: s' => Ascii.eqb a b && startswith t' s'
  end.

(** [t in s] for two strings. *)
Fixpoint contiene (t s : str) : bool :=
  startswith t s ||
  match s with
  | [] => false
  | _ :: s' => contiene t s'
  end.

(** Universal newlines, applied when a text file is read: CR LF and a
    lone CR both become LF. *)
Fixpoint traducir_saltos (s : str) : str :=
  match s with
  | [] => []
  | c :: r =>
      if Ascii.eqb c CR then
        match r with
        | c2 :: r2 =>
            if Ascii.eqb c2 LF then LF :: traducir_saltos r2
            else LF :: traducir_saltos r
        | [] => [LF]
        end
      else c :: traducir_saltos r
  end.

(** The lines of a text, each one with its LF (the last may lack it). *)
Fixpoint cortar_lineas (s : str) : list str :=
  match s with
  | [] => []
  | c :: r =>
      if Ascii.eqb c LF then [LF] :: cortar_lineas r
      else match cortar_lineas r with
           | [] => [[c]]
           | l :: ls => (c :: l) :: ls
           end
  end.

(** [archivo.readlines()] on the content of a file. *)
Definition readlines (contenido : str) : list str :=
  cortar_lineas (traducir_saltos contenido).

(** *** [int(s)] and [str(n)] *)

Definition valor_digito (c : ascii) : Z := Z.of_nat (codigo c) - 48.

(** Digits after a first digit; one underscore may stand between two
    digits. *)
Fixpoint int_resto (acc : Z) (s : str) : option Z :=
  match s with
  | [] => Some acc
  | c :: r =>
      if isdigit c then int_resto (acc * 10 + valor_digito c) r
      else if Ascii.eqb c "_" then
        match r with
        | d :: r' =>
            if isdigit d then int_resto (acc * 10 + valor_digito d) r'
            else None
        | [] => None
        end
      else None
  end.

Definition int_sin_signo (s : str) : option Z :=
  match s with
  | c :: r => if isdigit c then int_resto (valor_digito c) r else None
  | [] => None
  end.

(** [int(s)] in base 10; [None] is [ValueError]. *)
Definition int (s : str) : option Z :=
  match strip_con isspace_c s with
  | c :: r =>
      if Ascii.eqb c "+" then int_sin_signo r
      else if Ascii.eqb c "-" then Z.opp <$> int_sin_signo r
      else int_sin_signo (c :: r)
  | [] => None
  end.

Definition caracter_digito (d : Z) : ascii := ascii_of_nat (Z.to_nat d + 48).

Fixpoint digitos (fuel : nat) (n : Z) (acc : str) : str :=
  match fuel with
  | O => acc
  | S f =>
      let acc' := caracter_digito (n mod 10) :: acc in
      if (n <? 10)%Z then acc' else digitos f (n / 10) acc'
  end.

Definition str_natural (n : Z) : str :=
  digitos (S (Z.to_nat (Z.log2 n))) n [].

(** [str(n)], also what [f"{n}"] writes for an [int]. *)
Definition str_int (n : Z) : str :=
  if (n <? 0)%Z then "-"%char :: str_natural (- n) else str_natural n.

End Py.

(* ------------------------------------------------------------------ *)
(** ** The runtime's [float] *)
(* ------------------------------------------------------------------ *)

(** The characters [repr] can write for a float: digits, the point,
    the sign, the exponent mark, and the letters of [inf] and [nan]. *)
Definition caracter_de_float (c : ascii) : bool :=
  Py.isdigit c || bool_decide (c ∈ lit ".+-einfa").

(** What the inventory uses of [float]: [float(s)] ([None] is
    [ValueError]), the text [f"{x}"] writes, and the test [x < 0].  The
    two laws are the runtime's: the text of a float reads back as that
    float, and it is a non-empty run of the characters above. *)
Class PyFloat := {
  float : Type;
  float_de_str : str → option float;
  float_a_str : float → str;
  float_negativo : float → bool;
  float_ida_y_vuelta : ∀ x, float_de_str (float_a_str x) = Some x;
  float_a_str_forma : ∀ x,
    float_a_str x ≠ [] ∧ Forall (λ c, caracter_de_float c = true) (float_a_str x)
}.

(* ------------------------------------------------------------------ *)
(** ** Exceptions, console, disk *)
(* ------------------------------------------------------------------ *)

Inductive motivo :=
  | IdNoPositivo          (* "El ID debe ser un número entero positivo" *)
  | CantidadNegativa      (* "La cantidad no puede ser negativa" *)
  | PrecioNegativo        (* "El precio no puede ser negativo" *)
  | LiteralInvalido (campo : str)   (* int(campo) or float(campo) *)
  | NoEstaEnLista.        (* list.remove(x): x not in list *)

Inductive exn :=
  | ValueError (m : motivo)
  | AttributeError
  | FileNotFoundError
  | PermissionError
  | OSError.

(** The errors [open] can raise; each is an [OSError] in Python. *)
Inductive error_es := ENoEncontrado | EPermiso | EOtro.

(** How writing the file fails: [open] raises; or the file is opened,
    and so emptied, and the disk takes [espacio] characters before it
    is full and [write] raises [OSError]. *)
Inductive fallo_escritura :=
  | AlAbrir (e : error_es)
  | AlEscribir (espacio : nat).

Definition exn_de (e : error_es) : exn :=
  match e with
  | ENoEncontrado => FileNotFoundError
  | EPermiso => PermissionError
  | EOtro => OSError
  end.

(** The backing file [ARCHIVO_INVENTARIO] as the environment holds it:
    its content ([None]: no such file), whether opening it for reading
    fails, and whether and how writing it fails. *)
Record Disco := {
  contenido : option str;
  falla_lectura : option error_es;
  falla_escritura : option fallo_escritura
}.

Definition SEPARADOR : ascii := "|"%char.

(** A reference to an object of the heap. *)
Abbreviation loc := nat.

Section Modelo.
Context `{PF : PyFloat}.

(* ------------------------------------------------------------------ *)
(** ** The world *)
(* ------------------------------------------------------------------ *)

(** The fields of a [Producto] object. *)
Record Producto := {
  _id : Z;
  _nombre : str;
  _cantidad : Z;
  _precio : float
}.

(** The fields of the [Inventario] object. *)
Record Inventario := {
  _productos : list loc;
  _indice_por_id : gmap Z loc
}.

Inductive nivel := INFO | ERROR | ADVERTENCIA | OK.

(** One constructor per [print] of [inventario.py]. *)
Inductive mensaje :=
  | MsgSinPermisosEscritura
  | MsgFalloAlGuardar (e : exn)
  | MsgArchivoNoEncontrado
  | MsgSinPermisosLectura
  | MsgNoSePudoLeer (e : exn)
  | MsgFormatoIncorrecto (num_linea : nat) (linea : str)
  | MsgIdDuplicado (num_linea : nat) (id_prod : Z)
  | MsgDatosInvalidos (num_linea : nat) (e : exn)
  | MsgCargados (productos_cargados : nat)
  | MsgSinProductosValidos
  | MsgArchivoCreado
  | MsgSinPermisosCrear
  | MsgNoSePudoCrear (e : exn)
  | MsgYaExiste (id : Z)
  | MsgAgregado (nombre : str) (id : Z)
  | MsgNoSeEncontro (id_producto : Z)
  | MsgEliminado (nombre : str) (id_producto : Z)
  | MsgCantidadActualizada (producto : Producto)
  | MsgPrecioActualizado (producto : Producto)
  | MsgCambioGuardado
  | MsgCantidadInvalida (e : exn)
  | MsgPrecioInvalido (e : exn).

Definition nivel_de (m : mensaje) : nivel :=
  match m with
  | MsgSinPermisosEscritura | MsgFalloAlGuardar _ | MsgSinPermisosLectura
  | MsgNoSePudoLeer _ | MsgSinPermisosCrear | MsgNoSePudoCrear _
  | MsgYaExiste _ | MsgNoSeEncontro _ | MsgCantidadInvalida _
  | MsgPrecioInvalido _ => ERROR
  | MsgFormatoIncorrecto _ _ | MsgIdDuplicado _ _ | MsgDatosInvalidos _ _ =>
      ADVERTENCIA
  | MsgArchivoNoEncontrado | MsgCargados _ | MsgSinProductosValidos
  | MsgArchivoCreado => INFO
  | MsgAgregado _ _ | MsgEliminado _ _ | MsgCantidadActualizada _
  | MsgPrecioActualizado _ | MsgCambioGuardado => OK
  end.

Record Mundo := {
  objetos : list Producto;      (* the heap: object at location l *)
  inventario : Inventario;      (* the store, [self] *)
  disco : Disco;
  consola : list mensaje        (* what was printed, oldest first *)
}.

(* ------------------------------------------------------------------ *)
(** ** State and exceptions *)
(* ------------------------------------------------------------------ *)

Inductive res (A : Type) :=
  | Ret (a : A)
  | Raise (e : exn).
Arguments Ret {A} a.
Arguments Raise {A} e.

Definition M (A : Type) : Type := Mundo → res A * Mundo.

Definition ret {A} (a : A) : M A := λ w, (Ret a, w).
Definition raise {A} (e : exn) : M A := λ w, (Raise e, w).
Definition bind {A B} (m : M A) (k : A → M B) : M B :=
  λ w, match m w with
       | (Ret a, w') => k a w'
       | (Raise e, w') => (Raise e, w')
       end.

(** [try: m except ...], where [except_ e] is the handler of the first
    clause that matches [e], if any. *)
Definition try_ {A} (m : M A) (except_ : exn → option (M A)) : M A :=
  λ w, match m w with
       | (Ret a, w') => (Ret a, w')
       | (Raise e, w') =>
           match except_ e with
           | Some h => h w'
           | None => (Raise e, w')
           end
       end.

Notation "x <- m ;; k" := (bind m (λ x, k))
  (at level 100, m at next level, right associativity).
Notation "m ;; k" := (bind m (λ _, k))
  (at level 100, right associativity).

(** A [for] loop over a list. *)
Fixpoint para_cada {A} (cuerpo : A → M unit) (l : list A) : M unit :=
  match l with
  | [] => ret tt
  | x :: r => cuerpo x ;; para_cada cuerpo r
  end.

(** A list comprehension with a condition. *)
Fixpoint filtrar {A} (cond : A → M bool) (l : list A) : M (list A) :=
  match l with
  | [] => ret []
  | x :: r =>
      b <- cond x ;;
      resto <- filtrar cond r ;;
      ret (if b then x :: resto else resto)
  end.

(** *** Primitive effects *)

Definition con_objetos (o : list Producto) (w : Mundo) : Mundo :=
  {| objetos := o; inventario := inventario w; disco := disco w;
     consola := consola w |}.
Definition con_inventario (i : Inventario) (w : Mundo) : Mundo :=
  {| objetos := objetos w; inventario := i; disco := disco w;
     consola := consola w |}.
Definition con_disco (d : Disco) (w : Mundo) : Mundo :=
  {| objetos := objetos w; inventario := inventario w; disco := d;
     consola := consola w |}.
Definition con_consola (c : list mensaje) (w : Mundo) : Mundo :=
  {| objetos := objetos w; inventario := inventario w; disco := disco w;
     consola := c |}.

Definition print (m : mensaje) : M unit :=
  λ w, (Ret tt, con_consola (consola w ++ [m]) w).

(** A new object: its location is one no object had. *)
Definition nuevo_objeto (p : Producto) : M loc :=
  λ w, (Ret (length (objetos w)), con_objetos (objetos w ++ [p]) w).

(** Reading the attributes of [l]; what is not a [Producto] has none. *)
Definition objeto (l : loc) : M Producto :=
  λ w, match objetos w !! l with
       | Some p => (Ret p, w)
       | None => (Raise AttributeError, w)
       end.

Definition asignar_objeto (l : loc) (p : Producto) : M unit :=
  λ w, (Ret tt, con_objetos (<[l := p]> (objetos w)) w).

Definition self : M Inventario := λ w, (Ret (inventario w), w).
Definition asignar_self (i : Inventario) : M unit :=
  λ w, (Ret tt, con_inventario i w).

(** [open(ARCHIVO_INVENTARIO, "r")] followed by [readlines()];
    [contenido] is the text the bytes of the file decode to. *)
Definition leer_lineas : M (list str) :=
  λ w, match falla_lectura (disco w) with
       | Some e => (Raise (exn_de e), w)
       | None =>
           match contenido (disco w) with
           | None => (Raise FileNotFoundError, w)
           | Some s => (Ret (Py.readlines s), w)
           end
       end.

(** The file with the text [s]. *)
Definition con_contenido (s : str) (w : Mundo) : Mundo :=
  con_disco {| contenido := Some s;
               falla_lectura := falla_lectura (disco w);
               falla_escritura := falla_escritura (disco w) |} w.

(** [open(ARCHIVO_INVENTARIO, "w")]: the file is created or emptied. *)
Definition abrir_escritura : M unit :=
  λ w, match falla_escritura (disco w) with
       | Some (AlAbrir e) => (Raise (exn_de e), w)
       | _ => (Ret tt, con_contenido [] w)
       end.

(** [archivo.write(linea)] on the file opened for writing.  On a disk
    that has no room for the whole line, the part that fits is written
    and [OSError] is raised. *)
Definition write (linea : str) : M unit :=
  λ w, let escrito := default [] (contenido (disco w)) in
       match falla_escritura (disco w) with
       | Some (AlEscribir espacio) =>
           if (length escrito + length linea <=? espacio)%nat
           then (Ret tt, con_contenido (escrito ++ linea) w)
           else (Raise OSError,
                 con_contenido (escrito ++ take (espacio - length escrito) linea) w)
       | _ => (Ret tt, con_contenido (escrito ++ linea) w)
       end.

Definition de_opcion {A} (campo : str) (o : option A) : M A :=
  match o with
  | Some a => ret a
  | None => raise (ValueError (LiteralInvalido campo))
  end.

(** [int(campo)] and [float(campo)] as statements. *)
Definition int_ (campo : str) : M Z := de_opcion campo (Py.int campo).
Definition float_ (campo : str) : M float := de_opcion campo (float_de_str campo).

(* ------------------------------------------------------------------ *)
(** ** class Producto *)
(* ------------------------------------------------------------------ *)

(** [Producto(id_producto, nombre, cantidad, precio)] *)
Definition Producto_init (id_producto : Z) (nombre : str) (cantidad : Z)
    (precio : float) : M loc :=
  if (id_producto <=? 0)%Z then raise (ValueError IdNoPositivo)
  else if (cantidad <? 0)%Z then raise (ValueError CantidadNegativa)
  else if float_negativo precio then raise (ValueError PrecioNegativo)
  else nuevo_objeto {| _id := id_producto;
                       _nombre := Py.title (Py.strip nombre);
                       _cantidad := cantidad;
                       _precio := precio |}.

(** The four read-only properties [id], [nombre], [cantidad], [precio]. *)
Definition get_id (l : loc) : M Z := p <- objeto l ;; ret (_id p).
Definition get_nombre (l : loc) : M str := p <- objeto l ;; ret (_nombre p).
Definition get_cantidad (l : loc) : M Z := p <- objeto l ;; ret (_cantidad p).
Definition get_precio (l : loc) : M float := p <- objeto l ;; ret (_precio p).

(** [producto.cantidad = nueva_cantidad] *)
Definition set_cantidad (l : loc) (nueva_cantidad : Z) : M unit :=
  p <- objeto l ;;
  if (nueva_cantidad <? 0)%Z then raise (ValueError CantidadNegativa)
  else asignar_objeto l {| _id := _id p; _nombre := _nombre p;
                           _cantidad := nueva_cantidad; _precio := _precio p |}.

(** [producto.precio = nuevo_precio] *)
Definition set_precio (l : loc) (nuevo_precio : float) : M unit :=
  p <- objeto l ;;
  if float_negativo nuevo_precio then raise (ValueError PrecioNegativo)
  else asignar_objeto l {| _id := _id p; _nombre := _nombre p;
                           _cantidad := _cantidad p; _precio := nuevo_precio |}.

(* ------------------------------------------------------------------ *)
(** ** class Inventario *)
(* ------------------------------------------------------------------ *)

(** The line written for one product, with its final LF. *)
Definition linea_de (p : Producto) : str :=
  Py.str_int (_id p) ++ [SEPARADOR] ++ _nombre p ++ [SEPARADOR]
    ++ Py.str_int (_cantidad p) ++ [SEPARADOR] ++ float_a_str (_precio p)
    ++ [Py.LF].

Definition _guardar_en_archivo : M unit :=
  try_ (abrir_escritura ;;
        i <- self ;;
        para_cada (λ producto, p <- objeto producto ;; write (linea_de p))
                  (_productos i))
       (λ e, match e with
             | PermissionError => Some (print MsgSinPermisosEscritura)
             | FileNotFoundError | OSError => Some (print (MsgFalloAlGuardar e))
             | _ => None
             end).

Definition _crear_archivo_vacio : M unit :=
  try_ (abrir_escritura ;; print MsgArchivoCreado)
       (λ e, match e with
             | PermissionError => Some (print MsgSinPermisosCrear)
             | FileNotFoundError | OSError => Some (print (MsgNoSePudoCrear e))
             | _ => None
             end).

(** [self._productos.append(producto)] *)
Definition append_producto (producto : loc) : M unit :=
  i <- self ;;
  asignar_self {| _productos := _productos i ++ [producto];
                  _indice_por_id := _indice_por_id i |}.

(** [self._indice_por_id[clave] = producto] *)
Definition indexar (clave : Z) (producto : loc) : M unit :=
  i <- self ;;
  asignar_self {| _productos := _productos i;
                  _indice_por_id := <[clave := producto]> (_indice_por_id i) |}.

(** The body of the loop of [_cargar_desde_archivo] for one line; the
    result is the new value of [productos_cargados]. *)
Definition procesar_linea (num_linea : nat) (linea : str)
    (productos_cargados : nat) : M nat :=
  let linea := Py.strip linea in
  match linea with
  | [] => ret productos_cargados
  | _ :: _ =>
      match Py.split SEPARADOR linea with
      | [parte0; parte1; parte2; parte3] =>
          try_ (id_prod <- int_ parte0 ;;
                let nombre := parte1 in
                cantidad <- int_ parte2 ;;
                precio <- float_ parte3 ;;
                producto <- Producto_init id_prod nombre cantidad precio ;;
                clave <- get_id producto ;;
                i <- self ;;
                match _indice_por_id i !! clave with
                | Some _ =>
                    print (MsgIdDuplicado num_linea id_prod) ;;
                    ret productos_cargados
                | None =>
                    append_producto producto ;;
                    clave <- get_id producto ;;
                    indexar clave producto ;;
                    ret (S productos_cargados)
                end)
               (λ e, match e with
                     | ValueError _ =>
                         Some (print (MsgDatosInvalidos num_linea e) ;;
                               ret productos_cargados)
                     | _ => None
                     end)
      | _ =>
          print (MsgFormatoIncorrecto num_linea linea) ;;
          ret productos_cargados
      end
  end.

(** [for num_linea, linea in enumerate(lineas, start=num_linea)] *)
Fixpoint procesar_lineas (num_linea : nat) (lineas : list str)
    (productos_cargados : nat) : M nat :=
  match lineas with
  | [] => ret productos_cargados
  | linea :: resto =>
      n <- procesar_linea num_linea linea productos_cargados ;;
      procesar_lineas (S num_linea) resto n
  end.

Definition _cargar_desde_archivo : M unit :=
  leidas <- try_ (lineas <- leer_lineas ;; ret (Some lineas))
                 (λ e, match e with
                       | FileNotFoundError =>
                           Some (print MsgArchivoNoEncontrado ;;
                                 _crear_archivo_vacio ;;
                                 ret None)
                       | PermissionError =>
                           Some (print MsgSinPermisosLectura ;; ret None)
                       | OSError =>
                           Some (print (MsgNoSePudoLeer e) ;; ret None)
                       | _ => None
                       end) ;;
  match leidas with
  | None => ret tt
  | Some lineas =>
      productos_cargados <- procesar_lineas 1 lineas 0 ;;
      if (0 <? productos_cargados)%nat then print (MsgCargados productos_cargados)
      else print MsgSinProductosValidos
  end.

(** [Inventario()] *)
Definition Inventario_init : M unit :=
  asignar_self {| _productos := []; _indice_por_id := ∅ |} ;;
  _cargar_desde_archivo.

Definition agregar_producto (producto : loc) : M bool :=
  clave <- get_id producto ;;
  i <- self ;;
  match _indice_por_id i !! clave with
  | Some _ => print (MsgYaExiste clave) ;; ret false
  | None =>
      append_producto producto ;;
      clave <- get_id producto ;;
      indexar clave producto ;;
      _guardar_en_archivo ;;
      n <- get_nombre producto ;;
      clave <- get_id producto ;;
      print (MsgAgregado n clave) ;;
      ret true
  end.

(** [lista.remove(x)]: the first occurrence goes; [None] is [ValueError]. *)
Fixpoint list_remove (x : loc) (l : list loc) : option (list loc) :=
  match l with
  | [] => None
  | y :: r => if decide (y = x) then Some r else cons y <$> list_remove x r
  end.

Definition eliminar_producto (id_producto : Z) : M bool :=
  i <- self ;;
  match _indice_por_id i !! id_producto with
  | None => print (MsgNoSeEncontro id_producto) ;; ret false
  | Some producto =>
      (* producto = self._indice_por_id.pop(id_producto) *)
      asignar_self {| _productos := _productos i;
                      _indice_por_id := delete id_producto (_indice_por_id i) |} ;;
      (* self._productos.remove(producto) *)
      i <- self ;;
      match list_remove producto (_productos i) with
      | None => raise (ValueError NoEstaEnLista)
      | Some quedan =>
          asignar_self {| _productos := quedan;
                          _indice_por_id := _indice_por_id i |}
      end ;;
      _guardar_en_archivo ;;
      n <- get_nombre producto ;;
      print (MsgEliminado n id_producto) ;;
      ret true
  end.

Definition actualizar_cantidad (id_producto : Z) (nueva_cantidad : Z) : M bool :=
  i <- self ;;
  match _indice_por_id i !! id_producto with
  | None => print (MsgNoSeEncontro id_producto) ;; ret false
  | Some producto =>
      try_ (set_cantidad producto nueva_cantidad ;;
            _guardar_en_archivo ;;
            p <- objeto producto ;;
            print (MsgCantidadActualizada p) ;;
            print MsgCambioGuardado ;;
            ret true)
           (λ e, match e with
                 | ValueError _ => Some (print (MsgCantidadInvalida e) ;; ret false)
                 | _ => None
                 end)
  end.

Definition actualizar_precio (id_producto : Z) (nuevo_precio : float) : M bool :=
  i <- self ;;
  match _indice_por_id i !! id_producto with
  | None => print (MsgNoSeEncontro id_producto) ;; ret false
  | Some producto =>
      try_ (set_precio producto nuevo_precio ;;
            _guardar_en_archivo ;;
            p <- objeto producto ;;
            print (MsgPrecioActualizado p) ;;
            print MsgCambioGuardado ;;
            ret true)
           (λ e, match e with
                 | ValueError _ => Some (print (MsgPrecioInvalido e) ;; ret false)
                 | _ => None
                 end)
  end.

Definition buscar_por_nombre (texto : str) : M (list loc) :=
  let texto := Py.strip (Py.lower texto) in
  i <- self ;;
  filtrar (λ p, n <- get_nombre p ;; ret (Py.contiene texto (Py.lower n)))
          (_productos i).

Definition contar_productos : M nat :=
  i <- self ;; ret (length (_productos i)).

End Modelo.

Arguments Ret {A} a.
Arguments Raise {A} e.

Notation "x <- m ;; k" := (bind m (λ x, k))
  (at level 100, m at next level, right associativity).
Notation "m ;; k" := (bind m (λ _, k))
  (at level 100, right associativity).

(* ------------------------------------------------------------------ *)
(** ** Vocabulary of the statements *)
(* ------------------------------------------------------------------ *)

(** A text whose first character (if any) is not blank, and one that
    has no blank at either end. *)
Definition cabeza_limpia (esp : ascii → bool) (s : str) : bool :=
  match s with
  | [] => true
  | c :: _ => negb (esp c)
  end.
Definition recortada (esp : ascii → bool) (s : str) : bool :=
  cabeza_limpia esp s && cabeza_limpia esp (rev s).

(** The number a run of digits [s] denotes after the digits of [a]. *)
Definition valor (a : Z) (s : str) : Z :=
  fold_left (λ a c, (a * 10 + Py.valor_digito c)%Z) s a.

(** The characters [str(n)] writes. *)
Definition caracter_de_int (c : ascii) : bool :=
  Py.isdigit c || Ascii.eqb c "-".

(** A model of [PyFloat].  A float is determined by the text [repr]
    writes for it; this model keeps the floats whose text is plain
    decimal notation, an optional minus sign, digits, a point and digits
    ([9.99], [-0.5]), and identifies each with that text.  It shows that
    the laws of [PyFloat] can be met and lets the scenarios run. *)
Definition digitos_no_vacio (s : str) : bool :=
  match s with
  | [] => false
  | _ :: _ => forallb Py.isdigit s
  end.

Definition es_decimal (s : str) : bool :=
  forallb caracter_de_float s &&
  match Py.split "." (match s with
                      | c :: r => if Ascii.eqb c "-" then r else s
                      | [] => s
                      end) with
  | [entera; fraccion] => digitos_no_vacio entera && digitos_no_vacio fraccion
  | _ => false
  end.

Definition decimal : Type := { s : str | es_decimal s = true }.

(** [float(s)] for this model: blanks at the ends are dropped, as
    [float] does. *)
Definition decimal_de_str (s : str) : option decimal :=
  match decide (es_decimal (Py.strip_con Py.isspace_c s) = true) with
  | left H => Some (Py.strip_con Py.isspace_c s ↾ H)
  | right _ => None
  end.

(** [x < 0]: a minus sign and a digit that is not zero. *)
Definition decimal_negativo (x : decimal) : bool :=
  match `x with
  | c :: r => Ascii.eqb c "-" && existsb (λ d, Py.isdigit d && negb (Ascii.eqb d "0")) r
  | [] => false
  end.

Section Vocabulario.
Context `{PF : PyFloat}.

(** The store as [__init__] sets it before loading. *)
Definition inventario_vacio : Inventario :=
  {| _productos := []; _indice_por_id := ∅ |}.

(** The text of the file for the products [ls]. *)
Definition volcado (objs : list Producto) (ls : list loc) : str :=
  flat_map (λ l, from_option linea_de [] (objs !! l)) ls.

(** Every product of the list is an object of the heap. *)
Definition vivos (w : Mundo) : Prop :=
  Forall (λ l, is_Some (objetos w !! l)) (_productos (inventario w)).

(** The world after [_guardar_en_archivo], when the products are alive:
    the file holds the snapshot; or, when it cannot be opened, the file
    is as it was; or, when the disk fills up, the file holds the part
    of the snapshot that fitted.  A save that failed leaves one more
    [ERROR] line on the console. *)
Definition disco_tras_guardar (w : Mundo) : Disco :=
  match falla_escritura (disco w) with
  | None =>
      {| contenido := Some (volcado (objetos w) (_productos (inventario w)));
         falla_lectura := falla_lectura (disco w);
         falla_escritura := None |}
  | Some (AlAbrir _) => disco w
  | Some (AlEscribir espacio) =>
      {| contenido := Some (take espacio
                              (volcado (objetos w) (_productos (inventario w))));
         falla_lectura := falla_lectura (disco w);
         falla_escritura := Some (AlEscribir espacio) |}
  end.

(** The line [_guardar_en_archivo] prints when [open] raises [e]. *)
Definition aviso_de_guardar (e : error_es) : mensaje :=
  match e with
  | EPermiso => MsgSinPermisosEscritura
  | _ => MsgFalloAlGuardar (exn_de e)
  end.

(** Whether saving the text [texto] fails, and the line printed then. *)
Definition fallo_de_guardar (f : fallo_escritura) (texto : str) : option mensaje :=
  match f with
  | AlAbrir e => Some (aviso_de_guardar e)
  | AlEscribir espacio =>
      if (length texto <=? espacio)%nat then None
      else Some (MsgFalloAlGuardar OSError)
  end.

Definition consola_tras_guardar (w : Mundo) : list mensaje :=
  match falla_escritura (disco w) with
  | None => consola w
  | Some f =>
      match fallo_de_guardar f (volcado (objetos w) (_productos (inventario w))) with
      | Some m => consola w ++ [m]
      | None => consola w
      end
  end.

Definition tras_guardar (w : Mundo) : Mundo :=
  {| objetos := objetos w;
     inventario := inventario w;
     disco := disco_tras_guardar w;
     consola := consola_tras_guardar w |}.


(** A product of the list is an object, and the dictionary has it under
    its id. *)
Definition en_lista_ok (objs : list Producto) (i : Inventario) (l : loc) : Prop :=
  match objs !! l with
  | Some p => _indice_por_id i !! _id p = Some l
  | None => False
  end.

(** An entry of the dictionary is a product of the list, and its key is
    the id of that product. *)
Definition en_indice_ok (objs : list Producto) (i : Inventario) (k : Z) (l : loc) : Prop :=
  l ∈ _productos i ∧
  match objs !! l with
  | Some p => _id p = k
  | None => False
  end.

(** The invariant: no product twice in the list, and list and
    dictionary hold the same products, each under its id. *)
Definition coherente_con (objs : list Producto) (i : Inventario) : Prop :=
  NoDup (_productos i) ∧
  Forall (en_lista_ok objs i) (_productos i) ∧
  map_Forall (en_indice_ok objs i) (_indice_por_id i).

Definition coherente (w : Mundo) : Prop :=
  coherente_con (objetos w) (inventario w).

Global Instance en_lista_ok_dec objs i l : Decision (en_lista_ok objs i l).
Proof. unfold en_lista_ok. destruct (objs !! l); apply _. Defined.
Global Instance en_indice_ok_dec objs i k l : Decision (en_indice_ok objs i k l).
Proof. unfold en_indice_ok. destruct (objs !! l); apply _. Defined.
Global Instance coherente_con_dec objs i : Decision (coherente_con objs i).
Proof. unfold coherente_con. apply _. Defined.
Global Instance coherente_dec w : Decision (coherente w).
Proof. unfold coherente. apply _. Defined.

(** What a line of the file turns out to be. *)
Inductive lectura :=
  | Blanco
  | MalFormato (linea : str)
  | Invalida (e : exn)
  | Registro (p : Producto).

(** The checks of [Producto.__init__] on the fields read. *)
Definition validar (id_prod : Z) (nombre : str) (cantidad : Z) (precio : float)
    : lectura :=
  if (id_prod <=? 0)%Z then Invalida (ValueError IdNoPositivo)
  else if (cantidad <? 0)%Z then Invalida (ValueError CantidadNegativa)
  else if float_negativo precio then Invalida (ValueError PrecioNegativo)
  else Registro {| _id := id_prod; _nombre := Py.title (Py.strip nombre);
                   _cantidad := cantidad; _precio := precio |}.

(** What the loop body makes of [linea], without the store. *)
Definition leer_linea (linea : str) : lectura :=
  match Py.strip linea with
  | [] => Blanco
  | _ :: _ =>
      match Py.split SEPARADOR (Py.strip linea) with
      | [parte0; parte1; parte2; parte3] =>
          match Py.int parte0 with
          | None => Invalida (ValueError (LiteralInvalido parte0))
          | Some id_prod =>
              match Py.int parte2 with
              | None => Invalida (ValueError (LiteralInvalido parte2))
              | Some cantidad =>
                  match float_de_str parte3 with
                  | None => Invalida (ValueError (LiteralInvalido parte3))
                  | Some precio => validar id_prod parte1 cantidad precio
                  end
              end
          end
      | _ => MalFormato (Py.strip linea)
      end
  end.

(** The world after the loop body read a record [p] from line
    [num_linea]: the object is created; then it is appended and
    indexed, unless the dictionary already has its id. *)
Definition tras_registro (num_linea : nat) (p : Producto) (w : Mundo) : Mundo :=
  let producto := length (objetos w) in
  match _indice_por_id (inventario w) !! _id p with
  | Some _ =>
      {| objetos := objetos w ++ [p]; inventario := inventario w;
         disco := disco w;
         consola := consola w ++ [MsgIdDuplicado num_linea (_id p)] |}
  | None =>
      {| objetos := objetos w ++ [p];
         inventario :=
           {| _productos := _productos (inventario w) ++ [producto];
              _indice_por_id := <[_id p := producto]> (_indice_por_id (inventario w)) |};
         disco := disco w;
         consola := consola w |}
  end.

(** Every object of [w] is still an object of [w'], with the id and the
    name it had. *)
Definition mismos_nombres (w w' : Mundo) : Prop :=
  ∀ l p, objetos w !! l = Some p →
         ∃ p', objetos w' !! l = Some p' ∧ _id p' = _id p ∧ _nombre p' = _nombre p.

(** Whether the product at [l] matches the query, once the query is
    lower-cased and trimmed. *)
Definition coincide (objs : list Producto) (texto : str) (l : loc) : bool :=
  match objs !! l with
  | Some p => Py.contiene (Py.strip (Py.lower texto)) (Py.lower (_nombre p))
  | None => false
  end.

(** What can happen to the world once the store exists: the caller
    builds a product or assigns to one it holds, calls a method of the
    store, or the environment changes the file or its permissions. *)
Inductive operacion :=
  | OpProducto (id_producto : Z) (nombre : str) (cantidad : Z) (precio : float)
  | OpSetCantidad (producto : loc) (nueva_cantidad : Z)
  | OpSetPrecio (producto : loc) (nuevo_precio : float)
  | OpAgregar (producto : loc)
  | OpEliminar (id_producto : Z)
  | OpActualizarCantidad (id_producto : Z) (nueva_cantidad : Z)
  | OpActualizarPrecio (id_producto : Z) (nuevo_precio : float)
  | OpBuscar (texto : str)
  | OpContar
  | OpEntorno (d : Disco).

(** The world after one operation; when the operation raises, the
    caller goes on from the world the exception left. *)
Definition ejecutar (w : Mundo) (o : operacion) : Mundo :=
  match o with
  | OpProducto i n c x => (Producto_init i n c x w).2
  | OpSetCantidad l c => (set_cantidad l c w).2
  | OpSetPrecio l x => (set_precio l x w).2
  | OpAgregar l => (agregar_producto l w).2
  | OpEliminar i => (eliminar_producto i w).2
  | OpActualizarCantidad i c => (actualizar_cantidad i c w).2
  | OpActualizarPrecio i x => (actualizar_precio i x w).2
  | OpBuscar t => (buscar_por_nombre t w).2
  | OpContar => (contar_productos w).2
  | OpEntorno d => con_disco d w
  end.

(** A session: [Inventario()] in a world with objects [objs] and file
    [d], then the operations [ops]. *)
Definition sesion (objs : list Producto) (d : Disco) (ops : list operacion) : Mundo :=
  foldl ejecutar
        (Inventario_init {| objetos := objs;
                            inventario := {| _productos := []; _indice_por_id := ∅ |};
                            disco := d; consola := [] |}).2
        ops.

(** The text of a line, without its LF. *)
Definition cuerpo_de (p : Producto) : str :=
  Py.str_int (_id p) ++ ([SEPARADOR] ++ _nombre p ++ [SEPARADOR]
    ++ Py.str_int (_cantidad p) ++ [SEPARADOR]) ++ float_a_str (_precio p).

(** A name within the model's range of characters. *)
Definition es_ascii (s : str) : Prop :=
  Forall (λ c, (Py.codigo c < 128)%nat) s.

End Vocabulario.

(* ------------------------------------------------------------------ *)
(** ** More of the code, and more vocabulary *)
(* ------------------------------------------------------------------ *)

(** [s < t] on two [str]: by code point, a proper prefix first. *)
Fixpoint str_lt (s t : str) : bool :=
  match s, t with
  | _, [] => false
  | [], _ :: _ => true
  | a :: s', b :: t' =>
      (Py.codigo a <? Py.codigo b)%nat
      || ((Py.codigo a =? Py.codigo b)%nat && str_lt s' t')
  end.

(** [sorted(l, key=key)] for a key that is a [str].  The sort of the
    runtime is stable and compares keys with [<] only, which fixes its
    result; this is the insertion sort with that result. *)
Fixpoint insertar {A} (key : A → str) (x : A) (l : list A) : list A :=
  match l with
  | [] => [x]
  | y :: r => if str_lt (key y) (key x) then y :: insertar key x r else x :: l
  end.

Fixpoint sorted {A} (key : A → str) (l : list A) : list A :=
  match l with
  | [] => []
  | x :: r => insertar key x (sorted key r)
  end.

(** What a call of [input] and the [print]s of [obtener_entero] and
    [obtener_float] show on the terminal. *)
Inductive evento :=
  | Pide (mensaje : str)     (* input(mensaje) *)
  | AvisaEntero              (* "Por favor ingrese un número entero válido." *)
  | AvisaFloat.              (* "Por favor ingrese un número válido ..." *)

(** [obtener_entero(mensaje)] of [main.py], run on the lines still to
    be read from the standard input.  The result is the value returned
    ([None]: [input] found the end of the input and raised [EOFError],
    which the loop does not catch), the lines left unread, and what the
    terminal showed. *)
Fixpoint obtener_entero (mensaje : str) (entradas : list str)
    : option Z * list str * list evento :=
  match entradas with
  | [] => (None, [], [Pide mensaje])
  | linea :: resto =>
      match Py.int linea with
      | Some n => (Some n, resto, [Pide mensaje])
      | None =>
          let '(r, quedan, eventos) := obtener_entero mensaje resto in
          (r, quedan, Pide mensaje :: AvisaEntero :: eventos)
      end
  end.

Section MasCodigo.
Context `{PF : PyFloat}.

(** [obtener_float(mensaje)] of [main.py]. *)
Fixpoint obtener_float (mensaje : str) (entradas : list str)
    : option float * list str * list evento :=
  match entradas with
  | [] => (None, [], [Pide mensaje])
  | linea :: resto =>
      match float_de_str linea with
      | Some x => (Some x, resto, [Pide mensaje])
      | None =>
          let '(r, quedan, eventos) := obtener_float mensaje resto in
          (r, quedan, Pide mensaje :: AvisaFloat :: eventos)
      end
  end.

(** One constructor per [print] of [mostrar_todos]. *)
Inductive impresion :=
  | ImpVacio                    (* "El inventario está vacío." *)
  | ImpBordeSuperior            (* "\n" + "═" * 70 *)
  | ImpCabecera                 (* the titles of the columns *)
  | ImpRaya                     (* "─" * 70 *)
  | ImpProducto (p : Producto)  (* print(producto) *)
  | ImpBordeInferior.           (* "═" * 70 *)

(** [mostrar_todos()]: the result and the lines printed, in order.  The
    keys of the sort are computed before anything is compared, so a
    product that is no object raises once the three lines of the header
    are out.  The store and the file are only read. *)
Definition mostrar_todos (w : Mundo) : res unit * list impresion :=
  match _productos (inventario w) with
  | [] => (Ret tt, [ImpVacio])
  | _ :: _ =>
      match mapM (λ producto, objetos w !! producto) (_productos (inventario w)) with
      | None => (Raise AttributeError, [ImpBordeSuperior; ImpCabecera; ImpRaya])
      | Some productos =>
          (Ret tt,
           [ImpBordeSuperior; ImpCabecera; ImpRaya]
             ++ map ImpProducto (sorted _nombre productos)
             ++ [ImpBordeInferior])
      end
  end.

(** What [Producto.__init__] and the two setters check: a positive id,
    a quantity and a price that are not negative. *)
Definition campos_validos (p : Producto) : Prop :=
  (0 < _id p)%Z ∧ (0 ≤ _cantidad p)%Z ∧ float_negativo (_precio p) = false.

Global Instance campos_validos_dec p : Decision (campos_validos p).
Proof. unfold campos_validos. apply _. Defined.

(** What [Producto.__init__] and the two setters let through: a
    positive id, a quantity and a price that are not negative, and a
    name that is already trimmed and title-cased. *)
Definition producto_valido (p : Producto) : Prop :=
  (0 < _id p)%Z ∧ (0 ≤ _cantidad p)%Z ∧ float_negativo (_precio p) = false ∧
  Py.title (Py.strip (_nombre p)) = _nombre p.

Global Instance producto_valido_dec p : Decision (producto_valido p).
Proof. unfold producto_valido. apply _. Defined.

(** A valid product whose name has no separator and no line break: its
    line of the file is one line of four fields. *)
Definition guardable (p : Producto) : Prop :=
  producto_valido p ∧
  (SEPARADOR ∉ _nombre p) ∧ (Py.LF ∉ _nombre p) ∧ (Py.CR ∉ _nombre p).

Global Instance guardable_dec p : Decision (guardable p).
Proof. unfold guardable. apply _. Defined.

(** The products of the store, in the order of the list. *)
Definition registros (w : Mundo) : list (option Producto) :=
  map (λ l, objetos w !! l) (_productos (inventario w)).

(** The record a line of the file holds, if it holds one. *)
Definition registro_de (linea : str) : option Producto :=
  match leer_linea linea with
  | Registro p => Some p
  | _ => None
  end.

(** The records that are the first of their id, the ids of [vistos]
    being taken. *)
Fixpoint primeros (vistos : gset Z) (ps : list Producto) : list Producto :=
  match ps with
  | [] => []
  | p :: r =>
      if decide (_id p ∈ vistos) then primeros vistos r
      else p :: primeros ({[ _id p ]} ∪ vistos) r
  end.

(** A line with something other than blanks. *)
Definition no_blanca (linea : str) : bool :=
  match Py.strip linea with
  | [] => false
  | _ :: _ => true
  end.

(** A file whose text, if it has one, is within the model's range of
    characters. *)
Definition disco_ascii (d : Disco) : Prop :=
  match contenido d with
  | Some s => es_ascii s
  | None => True
  end.

Global Instance es_ascii_dec s : Decision (es_ascii s).
Proof. unfold es_ascii. apply _. Defined.

Global Instance disco_ascii_dec d : Decision (disco_ascii d).
Proof. unfold disco_ascii. destruct (contenido d); apply _. Defined.

(** Opening the file for reading raises [FileNotFoundError]. *)
Definition no_existe (d : Disco) : bool :=
  match falla_lectura d with
  | Some ENoEncontrado => true
  | Some _ => false
  | None => match contenido d with None => true | Some _ => false end
  end.


(** The file holds the snapshot of the store. *)
Definition espejo (w : Mundo) : Prop :=
  contenido (disco w)
  = Some (volcado (objetos w) (_productos (inventario w))).

(** The operations that go through the store or build a product; the
    others assign to a product directly or change the file from
    outside. *)
Definition por_el_inventario (o : operacion) : bool :=
  match o with
  | OpSetCantidad _ _ | OpSetPrecio _ _ | OpEntorno _ => false
  | _ => true
  end.

(** A name within the model's range of characters that [Producto]
    leaves free of the separator and of line breaks. *)
Definition nombre_limpio (nombre : str) : Prop :=
  es_ascii nombre ∧
  (SEPARADOR ∉ nombre) ∧ (Py.LF ∉ nombre) ∧ (Py.CR ∉ nombre).

(** The operations of a session that keeps what it saves: those that
    go through the store, and the construction of a product whose name
    is clean. *)
Definition limpia (o : operacion) : Prop :=
  match o with
  | OpProducto _ nombre _ _ => nombre_limpio nombre
  | OpSetCantidad _ _ | OpSetPrecio _ _ | OpEntorno _ => False
  | _ => True
  end.

Global Instance limpia_dec o : Decision (limpia o).
Proof. destruct o; unfold limpia, nombre_limpio; apply _. Defined.

(** The products [Inventario()] would load from the file. *)
Definition cargaria (d : Disco) : list Producto :=
  match contenido d with
  | Some s => primeros ∅ (omap registro_de (Py.readlines s))
  | None => []
  end.

End MasCodigo.

(* ------------------------------------------------------------------ *)
(** ** The store of Semana 09, without the file *)
(* ------------------------------------------------------------------ *)

(** [PARCIAL 02/Semana 09/inventario.py]: the class [Inventario] as it
    was before it was given a file.  Its objects live in a world of
    their own: the heap, the store and the console, with the texts this
    version prints. *)
Module Semana09.
Section Modelo.
Context `{PF : PyFloat}.

(** One constructor per [print] of the module. *)
Inductive mensaje :=
  | MsgYaExiste (id : Z)           (* "¡Error! Ya existe un producto con ID ..." *)
  | MsgAgregado (nombre : str) (id : Z)
  | MsgNoSeEncontro (id_producto : Z)
  | MsgEliminado (nombre : str) (id_producto : Z)
  | MsgCantidadActualizada (producto : Producto)
  | MsgPrecioActualizado (producto : Producto)
  | MsgError (e : exn).            (* "Error: ..." *)

Record Mundo := {
  objetos : list Producto;
  inventario : Inventario;
  consola : list mensaje
}.

Definition M (A : Type) : Type := Mundo → res A * Mundo.

Definition ret {A} (a : A) : M A := λ w, (Ret a, w).
Definition raise {A} (e : exn) : M A := λ w, (Raise e, w).
Definition bind {A B} (m : M A) (k : A → M B) : M B :=
  λ w, match m w with
       | (Ret a, w') => k a w'
       | (Raise e, w') => (Raise e, w')
       end.
Definition try_ {A} (m : M A) (except_ : exn → option (M A)) : M A :=
  λ w, match m w with
       | (Ret a, w') => (Ret a, w')
       | (Raise e, w') =>
           match except_ e with
           | Some h => h w'
           | None => (Raise e, w')
           end
       end.

Declare Scope semana09_scope.
Notation "x <- m ;; k" := (bind m (λ x, k))
  (at level 100, m at next level, right associativity) : semana09_scope.
Notation "m ;; k" := (bind m (λ _, k))
  (at level 100, right associativity) : semana09_scope.
Local Open Scope semana09_scope.

Fixpoint filtrar {A} (cond : A → M bool) (l : list A) : M (list A) :=
  match l with
  | [] => ret []
  | x :: r =>
      b <- cond x ;;
      resto <- filtrar cond r ;;
      ret (if b then x :: resto else resto)
  end.

Definition print (m : mensaje) : M unit :=
  λ w, (Ret tt, {| objetos := objetos w; inventario := inventario w;
                   consola := consola w ++ [m] |}).

Definition objeto (l : loc) : M Producto :=
  λ w, match objetos w !! l with
       | Some p => (Ret p, w)
       | None => (Raise AttributeError, w)
       end.

Definition asignar_objeto (l : loc) (p : Producto) : M unit :=
  λ w, (Ret tt, {| objetos := <[l := p]> (objetos w);
                   inventario := inventario w; consola := consola w |}).

Definition self : M Inventario := λ w, (Ret (inventario w), w).
Definition asignar_self (i : Inventario) : M unit :=
  λ w, (Ret tt, {| objetos := objetos w; inventario := i;
                   consola := consola w |}).

(** [Producto(id_producto, nombre, cantidad, precio)], the properties
    and the setters of [producto.py], in this world. *)
Definition Producto_init (id_producto : Z) (nombre : str) (cantidad : Z)
    (precio : float) : M loc :=
  if (id_producto <=? 0)%Z then raise (ValueError IdNoPositivo)
  else if (cantidad <? 0)%Z then raise (ValueError CantidadNegativa)
  else if float_negativo precio then raise (ValueError PrecioNegativo)
  else λ w, (Ret (length (objetos w)),
             {| objetos := objetos w ++ [{| _id := id_producto;
                                            _nombre := Py.title (Py.strip nombre);
                                            _cantidad := cantidad;
                                            _precio := precio |}];
                inventario := inventario w; consola := consola w |}).

Definition get_id (l : loc) : M Z := p <- objeto l ;; ret (_id p).
Definition get_nombre (l : loc) : M str := p <- objeto l ;; ret (_nombre p).

Definition set_cantidad (l : loc) (nueva_cantidad : Z) : M unit :=
  p <- objeto l ;;
  if (nueva_cantidad <? 0)%Z then raise (ValueError CantidadNegativa)
  else asignar_objeto l {| _id := _id p; _nombre := _nombre p;
                           _cantidad := nueva_cantidad; _precio := _precio p |}.

Definition set_precio (l : loc) (nuevo_precio : float) : M unit :=
  p <- objeto l ;;
  if float_negativo nuevo_precio then raise (ValueError PrecioNegativo)
  else asignar_objeto l {| _id := _id p; _nombre := _nombre p;
                           _cantidad := _cantidad p; _precio := nuevo_precio |}.

(** [Inventario()] *)
Definition Inventario_init : M unit :=
  asignar_self {| _productos := []; _indice_por_id := ∅ |}.

Definition agregar_producto (producto : loc) : M bool :=
  clave <- get_id producto ;;
  i <- self ;;
  match _indice_por_id i !! clave with
  | Some _ => print (MsgYaExiste clave) ;; ret false
  | None =>
      i <- self ;;
      asignar_self {| _productos := _productos i ++ [producto];
                      _indice_por_id := _indice_por_id i |} ;;
      clave <- get_id producto ;;
      i <- self ;;
      asignar_self {| _productos := _productos i;
                      _indice_por_id := <[clave := producto]> (_indice_por_id i) |} ;;
      n <- get_nombre producto ;;
      clave <- get_id producto ;;
      print (MsgAgregado n clave) ;;
      ret true
  end.

Definition eliminar_producto (id_producto : Z) : M bool :=
  i <- self ;;
  match _indice_por_id i !! id_producto with
  | None => print (MsgNoSeEncontro id_producto) ;; ret false
  | Some producto =>
      asignar_self {| _productos := _productos i;
                      _indice_por_id := delete id_producto (_indice_por_id i) |} ;;
      i <- self ;;
      match list_remove producto (_productos i) with
      | None => raise (ValueError NoEstaEnLista)
      | Some quedan =>
          asignar_self {| _productos := quedan;
                          _indice_por_id := _indice_por_id i |}
      end ;;
      n <- get_nombre producto ;;
      print (MsgEliminado n id_producto) ;;
      ret true
  end.

Definition actualizar_cantidad (id_producto : Z) (nueva_cantidad : Z) : M bool :=
  i <- self ;;
  match _indice_por_id i !! id_producto with
  | None => print (MsgNoSeEncontro id_producto) ;; ret false
  | Some producto =>
      try_ (set_cantidad producto nueva_cantidad ;;
            p <- objeto producto ;;
            print (MsgCantidadActualizada p) ;;
            ret true)
           (λ e, match e with
                 | ValueError _ => Some (print (MsgError e) ;; ret false)
                 | _ => None
                 end)
  end.

Definition actualizar_precio (id_producto : Z) (nuevo_precio : float) : M bool :=
  i <- self ;;
  match _indice_por_id i !! id_producto with
  | None => print (MsgNoSeEncontro id_producto) ;; ret false
  | Some producto =>
      try_ (set_precio producto nuevo_precio ;;
            p <- objeto producto ;;
            print (MsgPrecioActualizado p) ;;
            ret true)
           (λ e, match e with
                 | ValueError _ => Some (print (MsgError e) ;; ret false)
                 | _ => None
                 end)
  end.

Definition buscar_por_nombre (texto : str) : M (list loc) :=
  let texto := Py.strip (Py.lower texto) in
  i <- self ;;
  filtrar (λ p, n <- get_nombre p ;; ret (Py.contiene texto (Py.lower n)))
          (_productos i).

Definition contar_productos : M nat :=
  i <- self ;; ret (length (_productos i)).

(** [mostrar_todos()], which semana 10 kept as it was. *)
Definition mostrar_todos (w : Mundo) : res unit * list impresion :=
  match _productos (inventario w) with
  | [] => (Ret tt, [ImpVacio])
  | _ :: _ =>
      match mapM (λ producto, objetos w !! producto) (_productos (inventario w)) with
      | None => (Raise AttributeError, [ImpBordeSuperior; ImpCabecera; ImpRaya])
      | Some productos =>
          (Ret tt,
           [ImpBordeSuperior; ImpCabecera; ImpRaya]
             ++ map ImpProducto (sorted _nombre productos)
             ++ [ImpBordeInferior])
      end
  end.

(** One operation of a session, as [ejecutar] has it for the store with
    a file; here the file does not exist, and a change of it is no
    operation. *)
Definition ejecutar (w : Mundo) (o : operacion) : Mundo :=
  match o with
  | OpProducto i n c x => (Producto_init i n c x w).2
  | OpSetCantidad l c => (set_cantidad l c w).2
  | OpSetPrecio l x => (set_precio l x w).2
  | OpAgregar l => (agregar_producto l w).2
  | OpEliminar i => (eliminar_producto i w).2
  | OpActualizarCantidad i c => (actualizar_cantidad i c w).2
  | OpActualizarPrecio i x => (actualizar_precio i x w).2
  | OpBuscar t => (buscar_por_nombre t w).2
  | OpContar => (contar_productos w).2
  | OpEntorno _ => w
  end.

End Modelo.
End Semana09.

Section Versiones.
Context `{PF : PyFloat}.



End Versiones.

(* ------------------------------------------------------------------ *)
(** ** Facts about the builtins *)
(* ------------------------------------------------------------------ *)

Example title_ejemplo :
  Py.title (lit "hELLO wORLD a1b c-d") = lit "Hello World A1B C-D".
Proof. reflexivity. Qed.

Example strip_ejemplo :
  Py.strip (Py.LF :: lit "  a b " ++ [Py.CR; ascii_of_nat 31]) = lit "a b".
Proof. reflexivity. Qed.

Example split_ejemplo :
  Py.split "|" (lit "a||b|") = [lit "a"; []; lit "b"; []].
Proof. reflexivity. Qed.

Example int_ejemplo :
  map Py.int [lit " 1_0 "; lit "-0005"; lit "+7"; lit "1__0"; lit "_1";
              lit "1_"; lit "+-5"; lit ""; lit "1.0"; ascii_of_nat 31 :: lit "5"]
  = [Some 10%Z; Some (-5)%Z; Some 7%Z; None; None; None; None; None; None; None].
Proof. reflexivity. Qed.

Example str_int_ejemplo :
  map Py.str_int [0%Z; 5%Z; 1234567890%Z; (-42)%Z]
  = [lit "0"; lit "5"; lit "1234567890"; lit "-42"].
Proof. reflexivity. Qed.

Example readlines_ejemplo :
  Py.readlines (lit "a" ++ [Py.CR] ++ lit "b" ++ [Py.CR; Py.LF] ++ lit "c"
                ++ [Py.LF; Py.LF] ++ lit "d")
  = [lit "a" ++ [Py.LF]; lit "b" ++ [Py.LF]; lit "c" ++ [Py.LF]; [Py.LF]; lit "d"].
Proof. reflexivity. Qed.

Ltac por_caracter c :=
  destruct c as [[] [] [] [] [] [] [] []]; vm_compute; try reflexivity; try congruence.

Lemma upper_c_idem c : Py.upper_c (Py.upper_c c) = Py.upper_c c.
Proof. por_caracter c. Qed.
Lemma lower_c_idem c : Py.lower_c (Py.lower_c c) = Py.lower_c c.
Proof. por_caracter c. Qed.
Lemma iscased_upper_c c : Py.iscased (Py.upper_c c) = Py.iscased c.
Proof. por_caracter c. Qed.
Lemma iscased_lower_c c : Py.iscased (Py.lower_c c) = Py.iscased c.
Proof. por_caracter c. Qed.
Lemma isspace_upper_c c : Py.isspace (Py.upper_c c) = Py.isspace c.
Proof. por_caracter c. Qed.
Lemma isspace_lower_c c : Py.isspace (Py.lower_c c) = Py.isspace c.
Proof. por_caracter c. Qed.
Lemma upper_c_separador c : Py.upper_c c = SEPARADOR → c = SEPARADOR.
Proof. por_caracter c. Qed.
Lemma lower_c_separador c : Py.lower_c c = SEPARADOR → c = SEPARADOR.
Proof. por_caracter c. Qed.
Lemma isdigit_no_isspace c : Py.isdigit c = true → Py.isspace c = false.
Proof. por_caracter c. Qed.
Lemma isdigit_no_isspace_c c : Py.isdigit c = true → Py.isspace_c c = false.
Proof. por_caracter c. Qed.
Lemma isdigit_no_separador c : Py.isdigit c = true → c ≠ SEPARADOR.
Proof. por_caracter c. Qed.
Lemma float_no_isspace c : caracter_de_float c = true → Py.isspace c = false.
Proof. por_caracter c. Qed.
Lemma float_no_separador c : caracter_de_float c = true → c ≠ SEPARADOR.
Proof. por_caracter c. Qed.

(** *** [title] *)

Lemma title_desde_idem b s :
  Py.title_desde b (Py.title_desde b s) = Py.title_desde b s.
Proof.
  revert b. induction s as [|c r IH]; intros b; simpl; [done|].
  destruct b; rewrite ?iscased_lower_c, ?iscased_upper_c,
    ?lower_c_idem, ?upper_c_idem, IH; done.
Qed.

Lemma title_idem s : Py.title (Py.title s) = Py.title s.
Proof. apply title_desde_idem. Qed.

Lemma title_desde_isspace b s :
  map Py.isspace (Py.title_desde b s) = map Py.isspace s.
Proof.
  revert b. induction s as [|c r IH]; intros b; simpl; [done|].
  rewrite IH. destruct b; by rewrite ?isspace_lower_c, ?isspace_upper_c.
Qed.

Lemma title_desde_separador b s :
  SEPARADOR ∈ Py.title_desde b s → SEPARADOR ∈ s.
Proof.
  revert b. induction s as [|c r IH]; intros b; simpl; [done|].
  rewrite !elem_of_cons. intros [Hc|Hr]; [left|right; eauto].
  symmetry in Hc. destruct b;
    [by apply lower_c_separador in Hc | by apply upper_c_separador in Hc].
Qed.

(** *** [strip] *)

Lemma lstrip_con_limpia esp s :
  cabeza_limpia esp s = true → Py.lstrip_con esp s = s.
Proof. destruct s as [|c r]; simpl; [done|]. by destruct (esp c). Qed.

Lemma cabeza_limpia_lstrip esp s :
  cabeza_limpia esp (Py.lstrip_con esp s) = true.
Proof.
  induction s as [|c r IH]; simpl; [done|].
  destruct (esp c) eqn:E; [done|]. simpl. by rewrite E.
Qed.

Lemma cola_limpia_lstrip esp s :
  cabeza_limpia esp (rev s) = true →
  cabeza_limpia esp (rev (Py.lstrip_con esp s)) = true.
Proof.
  induction s as [|c r IH]; simpl; [done|]. intros H.
  destruct (esp c); [|done]. apply IH.
  destruct (rev r) as [|a l]; [done|]. exact H.
Qed.

Lemma strip_con_recortada esp s :
  recortada esp s = true → Py.strip_con esp s = s.
Proof.
  unfold recortada, Py.strip_con. intros [H1 H2]%andb_prop.
  rewrite (lstrip_con_limpia esp s H1), (lstrip_con_limpia esp _ H2).
  apply rev_involutive.
Qed.

Lemma recortada_strip_con esp s : recortada esp (Py.strip_con esp s) = true.
Proof.
  unfold recortada, Py.strip_con. rewrite rev_involutive.
  rewrite cabeza_limpia_lstrip, andb_true_r.
  apply cola_limpia_lstrip. rewrite rev_involutive.
  apply cabeza_limpia_lstrip.
Qed.

(** A blank after a trimmed, non-empty text is all that [strip] takes. *)
Lemma strip_con_final esp s c :
  s ≠ [] → recortada esp s = true → esp c = true →
  Py.strip_con esp (s ++ [c]) = s.
Proof.
  unfold recortada, Py.strip_con. intros Hs [H1 H2]%andb_prop Hc.
  rewrite (lstrip_con_limpia esp (s ++ [c])).
  - rewrite rev_app_distr. simpl. rewrite Hc.
    rewrite (lstrip_con_limpia esp _ H2). apply rev_involutive.
  - destruct s; [done|]. exact H1.
Qed.

Lemma lstrip_con_elem esp c s : c ∈ Py.lstrip_con esp s → c ∈ s.
Proof.
  induction s as [|a r IH]; simpl; [done|].
  destruct (esp a); [|done]. intros H. right. by apply IH.
Qed.

Lemma strip_con_elem esp c s : c ∈ Py.strip_con esp s → c ∈ s.
Proof.
  unfold Py.strip_con. rewrite !list_elem_of_In, <- in_rev, <- !list_elem_of_In.
  intros H%lstrip_con_elem. rewrite list_elem_of_In, <- in_rev, <- list_elem_of_In in H.
  by apply lstrip_con_elem in H.
Qed.

Lemma cabeza_limpia_map esp s :
  cabeza_limpia esp s = match map esp s with [] => true | b :: _ => negb b end.
Proof. by destruct s. Qed.

Lemma recortada_title s :
  recortada Py.isspace s = true → recortada Py.isspace (Py.title s) = true.
Proof.
  unfold recortada. rewrite !cabeza_limpia_map, !List.map_rev.
  unfold Py.title. by rewrite title_desde_isspace.
Qed.

(** The normalisation of a name is stable: normalising a normalised
    name changes nothing. *)
Lemma nombre_normalizado_estable s :
  Py.title (Py.strip (Py.title (Py.strip s))) = Py.title (Py.strip s).
Proof.
  unfold Py.strip at 1. rewrite strip_con_recortada.
  - apply title_idem.
  - apply recortada_title, recortada_strip_con.
Qed.

(** *** [split] *)

Lemma split_sin_separador sep s : sep ∉ s → Py.split sep s = [s].
Proof.
  induction s as [|c r IH]; simpl; [done|].
  rewrite not_elem_of_cons. intros [Hc Hr].
  destruct (Ascii.eqb_spec c sep) as [->|_]; [done|]. by rewrite IH.
Qed.

Lemma split_app sep a r :
  sep ∉ a → Py.split sep (a ++ sep :: r) = a :: Py.split sep r.
Proof.
  induction a as [|c a IH]; simpl.
  - intros _. by rewrite Ascii.eqb_refl.
  - rewrite not_elem_of_cons. intros [Hc Ha].
    destruct (Ascii.eqb_spec c sep) as [->|_]; [done|]. by rewrite IH.
Qed.

Lemma split_cuatro sep a b c d :
  sep ∉ a → sep ∉ b → sep ∉ c → sep ∉ d →
  Py.split sep (a ++ [sep] ++ b ++ [sep] ++ c ++ [sep] ++ d) = [a; b; c; d].
Proof.
  intros Ha Hb Hc Hd. simpl.
  rewrite !split_app by done. by rewrite split_sin_separador.
Qed.

(** *** [int] and [str] *)

Lemma int_resto_digitos s a :
  Forall (λ c, Py.isdigit c = true) s → Py.int_resto a s = Some (valor a s).
Proof.
  intros H. revert a. induction H as [|c r Hc Hr IH]; intros a; simpl; [done|].
  by rewrite Hc, IH.
Qed.

Lemma caracter_digito_ok d :
  (0 ≤ d < 10)%Z →
  Py.isdigit (Py.caracter_digito d) = true ∧
  Py.valor_digito (Py.caracter_digito d) = d.
Proof.
  intros H.
  assert (d = 0 ∨ d = 1 ∨ d = 2 ∨ d = 3 ∨ d = 4 ∨ d = 5 ∨ d = 6 ∨ d = 7
          ∨ d = 8 ∨ d = 9)%Z as Hd by lia.
  repeat (destruct Hd as [->|Hd]; [by vm_compute|]). subst. by vm_compute.
Qed.

Lemma digitos_spec f : ∀ n acc,
  (0 ≤ n < 2 ^ Z.of_nat (S f))%Z →
  ∃ ds, Py.digitos (S f) n acc = ds ++ acc ∧ ds ≠ [] ∧
        Forall (λ c, Py.isdigit c = true) ds ∧
        ∀ a, valor a ds = (a * 10 ^ Z.of_nat (length ds) + n)%Z.
Proof.
  induction f as [|f IH]; intros n acc Hn.
  - assert (n < 10)%Z as Hlt by (change (2 ^ Z.of_nat 1)%Z with 2%Z in Hn; lia).
    simpl. apply Z.ltb_lt in Hlt as Hb. rewrite Hb.
    destruct (caracter_digito_ok n) as [Hd Hv]; [lia|].
    rewrite Z.mod_small by lia.
    exists [Py.caracter_digito n]. repeat split; [done|by constructor|].
    intros a. unfold valor. simpl. rewrite Hv. lia.
  - change (Py.digitos (S (S f)) n acc) with
      (let acc' := Py.caracter_digito (n mod 10) :: acc in
       if (n <? 10)%Z then acc' else Py.digitos (S f) (n / 10) acc').
    cbv zeta.
    destruct (caracter_digito_ok (n mod 10)) as [Hd Hv];
      [apply Z.mod_pos_bound; lia|].
    destruct (Z.ltb_spec n 10) as [Hlt|Hge].
    + rewrite Z.mod_small by lia. rewrite Z.mod_small in Hd, Hv by lia.
      exists [Py.caracter_digito n]. repeat split; [done|by constructor|].
      intros a. unfold valor. simpl. rewrite Hv. lia.
    + destruct (IH (n / 10)%Z (Py.caracter_digito (n mod 10) :: acc))
        as (ds & Hds & Hne & Hall & Hval).
      { split; [apply Z.div_pos; lia|].
        apply Z.div_lt_upper_bound; [lia|].
        rewrite (Nat2Z.inj_succ (S f)), Z.pow_succ_r in Hn by lia.
        lia. }
      exists (ds ++ [Py.caracter_digito (n mod 10)]).
      rewrite Hds, <- app_assoc. split; [done|]. split; [by destruct ds|].
      split; [apply Forall_app; split; [done|by constructor]|].
      intros a. unfold valor in *. rewrite fold_left_app. simpl.
      rewrite Hval, Hv, length_app, Nat2Z.inj_add. simpl.
      rewrite Z.pow_add_r, Z.pow_1_r by lia.
      pose proof (Z.div_mod n 10). lia.
Qed.

Lemma str_natural_spec n :
  (0 ≤ n)%Z →
  ∃ c r, Py.str_natural n = c :: r ∧
         Forall (λ c, Py.isdigit c = true) (c :: r) ∧
         Py.int_sin_signo (c :: r) = Some n.
Proof.
  intros Hn. unfold Py.str_natural.
  destruct (digitos_spec (Z.to_nat (Z.log2 n)) n []) as (ds & Hds & Hne & Hall & Hval).
  { split; [done|]. rewrite Nat2Z.inj_succ, Z2Nat.id by apply Z.log2_nonneg.
    destruct (Z.eq_dec n 0%Z) as [->|]; [done|]. apply Z.log2_spec. lia. }
  rewrite Hds, app_nil_r. destruct ds as [|c r]; [done|].
  exists c, r. repeat split; [done|].
  simpl. inversion Hall as [|? ? Hc Hr]; subst. rewrite Hc.
  rewrite int_resto_digitos by done. f_equal.
  specialize (Hval 0%Z). rewrite Z.mul_0_l, Z.add_0_l in Hval.
  rewrite <- Hval. reflexivity.
Qed.

Lemma str_int_forma n :
  Py.str_int n ≠ [] ∧ Forall (λ c, caracter_de_int c = true) (Py.str_int n).
Proof.
  unfold Py.str_int.
  assert (∀ m, (0 ≤ m)%Z →
    Py.str_natural m ≠ [] ∧ Forall (λ c, caracter_de_int c = true) (Py.str_natural m))
    as Hnat.
  { intros m Hm. destruct (str_natural_spec m Hm) as (c & r & -> & Hall & _).
    split; [done|]. eapply Forall_impl; [exact Hall|].
    intros x Hx. unfold caracter_de_int. simpl in Hx. by rewrite Hx. }
  destruct (Z.ltb_spec n 0).
  - split; [done|]. constructor; [done|]. apply Hnat. lia.
  - by apply Hnat.
Qed.

Lemma int_no_isspace c : caracter_de_int c = true → Py.isspace c = false.
Proof. por_caracter c. Qed.
Lemma int_no_isspace_c c : caracter_de_int c = true → Py.isspace_c c = false.
Proof. por_caracter c. Qed.
Lemma int_no_separador c : caracter_de_int c = true → c ≠ SEPARADOR.
Proof. por_caracter c. Qed.
Lemma digito_no_signo c :
  Py.isdigit c = true → Ascii.eqb c "+" = false ∧ Ascii.eqb c "-" = false.
Proof. por_caracter c; by split. Qed.

(** A non-empty text made of characters none of which is blank has no
    blank at either end. *)
Lemma recortada_sin_espacios esp s :
  Forall (λ c, esp c = false) s → recortada esp s = true.
Proof.
  intros H. unfold recortada.
  assert (∀ t, Forall (λ c, esp c = false) t → cabeza_limpia esp t = true) as Hc.
  { intros [|c r] Ht; [done|]. simpl. inversion Ht; subst. by destruct (esp c). }
  rewrite !Hc; [done| |done].
  apply List.Forall_forall. intros x Hx%in_rev.
  rewrite List.Forall_forall in H. by apply H.
Qed.

(** [int(str(n))] is [n]. *)
Lemma int_str_int n : Py.int (Py.str_int n) = Some n.
Proof.
  unfold Py.int. rewrite strip_con_recortada.
  2:{ apply recortada_sin_espacios.
      eapply Forall_impl; [apply str_int_forma|]. apply int_no_isspace_c. }
  unfold Py.str_int. destruct (Z.ltb_spec n 0) as [Hneg|Hpos].
  - destruct (str_natural_spec (- n)%Z) as (c & r & -> & _ & Hint); [lia|].
    change (Ascii.eqb "-" "+") with false. change (Ascii.eqb "-" "-") with true.
    cbv iota. rewrite Hint. simpl. f_equal. lia.
  - destruct (str_natural_spec n Hpos) as (c & r & -> & Hall & Hint).
    inversion Hall as [|? ? Hc _]; subst.
    destruct (digito_no_signo c Hc) as [-> ->]. exact Hint.
Qed.

(* ------------------------------------------------------------------ *)
(** ** A model of [PyFloat]: plain decimal texts *)
(* ------------------------------------------------------------------ *)

Lemma float_no_isspace_c c : caracter_de_float c = true → Py.isspace_c c = false.
Proof. por_caracter c. Qed.

Lemma decimal_sin_blancos s :
  es_decimal s = true → Py.strip_con Py.isspace_c s = s.
Proof.
  intros [H _]%andb_prop. apply strip_con_recortada, recortada_sin_espacios.
  apply List.Forall_forall. rewrite forallb_forall in H.
  intros c Hc. by apply float_no_isspace_c, H.
Qed.

Lemma decimal_ida_y_vuelta (x : decimal) : decimal_de_str (`x) = Some x.
Proof.
  destruct x as [s H]. unfold decimal_de_str. simpl.
  destruct (decide (es_decimal (Py.strip_con Py.isspace_c s) = true)) as [H'|Hn].
  - f_equal. apply (sig_eq_pi _). simpl. by apply decimal_sin_blancos.
  - by rewrite decimal_sin_blancos in Hn.
Qed.

Lemma decimal_forma (x : decimal) :
  `x ≠ [] ∧ Forall (λ c, caracter_de_float c = true) (`x).
Proof.
  destruct x as [s H]. simpl. unfold es_decimal in H.
  apply andb_prop in H as [H1 H2]. split.
  - intros ->. by vm_compute in H2.
  - apply List.Forall_forall. rewrite forallb_forall in H1. exact H1.
Qed.

Definition decimal_PyFloat : PyFloat := {|
  float := decimal;
  float_de_str := decimal_de_str;
  float_a_str := λ x, `x;
  float_negativo := decimal_negativo;
  float_ida_y_vuelta := decimal_ida_y_vuelta;
  float_a_str_forma := decimal_forma
|}.

(** The decimal written [s], when [s] is one. *)
Definition dec (s : string) : option decimal := decimal_de_str (lit s).

Example dec_ejemplos :
  map (λ o : option decimal, proj1_sig <$> o)
    [dec "9.99"; dec "0.0"; dec "-0.5"; dec " 2.5 "; dec "1e5"; dec ".5"; dec "abc"]
  = [Some (lit "9.99"); Some (lit "0.0"); Some (lit "-0.5"); Some (lit "2.5");
     None; None; None].
Proof. vm_compute. reflexivity. Qed.

Example decimal_negativo_ejemplos :
  map (λ o : option decimal, decimal_negativo <$> o)
    [dec "9.99"; dec "-0.0"; dec "-0.5"]
  = [Some false; Some false; Some true].
Proof. vm_compute. reflexivity. Qed.

(* ------------------------------------------------------------------ *)
(** ** What saving does *)
(* ------------------------------------------------------------------ *)

Section Propiedades.
Context `{PF : PyFloat}.

Ltac desplegar :=
  unfold append_producto, indexar, get_id, get_nombre, get_cantidad,
    get_precio, int_, float_, de_opcion;
  unfold bind, ret, raise, try_, print, self, asignar_self, objeto,
    asignar_objeto, nuevo_objeto, write, abrir_escritura;
  unfold con_contenido, con_objetos, con_inventario, con_disco, con_consola.

(** Proofs about an operation start from a world given by its parts. *)
Ltac por_partes w :=
  destruct w as [?objs [?ls ?idx] ?d ?c]; simpl in *.

(** One turn of the loop of [_guardar_en_archivo]. *)
Lemma escribir_uno objs i fl fe c escrito l p :
  objs !! l = Some p →
  (p <- objeto l ;; write (linea_de p))
    {| objetos := objs; inventario := i;
       disco := {| contenido := Some escrito; falla_lectura := fl;
                   falla_escritura := fe |};
       consola := c |}
  = let con (s : str) :=
      {| objetos := objs; inventario := i;
         disco := {| contenido := Some s; falla_lectura := fl;
                     falla_escritura := fe |};
         consola := c |} in
    match fe with
    | Some (AlEscribir espacio) =>
        if (length escrito + length (linea_de p) <=? espacio)%nat
        then (Ret tt, con (escrito ++ linea_de p))
        else (Raise OSError,
              con (escrito ++ take (espacio - length escrito) (linea_de p)))
    | _ => (Ret tt, con (escrito ++ linea_de p))
    end.
Proof.
  intros Hp. desplegar. unfold con_contenido, con_disco. simpl. rewrite Hp.
  simpl. by destruct fe as [[|espacio]|].
Qed.

(** The loop of [_guardar_en_archivo] on a disk with room for
    everything: each line is added to the file. *)
Lemma escribir_productos ls : ∀ objs i fl fe c escrito,
  (∀ espacio, fe ≠ Some (AlEscribir espacio)) →
  Forall (λ l, is_Some (objs !! l)) ls →
  para_cada (λ producto, p <- objeto producto ;; write (linea_de p)) ls
    {| objetos := objs; inventario := i;
       disco := {| contenido := Some escrito; falla_lectura := fl;
                   falla_escritura := fe |};
       consola := c |}
  = (Ret tt,
     {| objetos := objs; inventario := i;
        disco := {| contenido := Some (escrito ++ volcado objs ls);
                    falla_lectura := fl; falla_escritura := fe |};
        consola := c |}).
Proof.
  induction ls as [|l ls IH]; intros objs i fl fe c escrito Hfe Hv.
  - simpl. unfold ret, volcado. simpl. by rewrite app_nil_r.
  - inversion Hv as [|? ? [p Hp] Hls]; subst.
    cbn [para_cada]. unfold bind at 1. rewrite (escribir_uno _ _ _ _ _ _ _ p Hp).
    assert (volcado objs (l :: ls) = linea_de p ++ volcado objs ls) as ->
      by (unfold volcado; simpl; by rewrite Hp).
    cbv zeta. destruct fe as [[|espacio]|];
      [|by destruct (Hfe espacio)|]; rewrite IH by done;
      by rewrite <- !app_assoc.
Qed.

(** The same loop on a disk that takes [espacio] characters: the lines
    are written while they fit; of the first that does not, the part
    that fits is written, and [OSError] is raised. *)
Lemma escribir_productos_espacio ls : ∀ objs i fl espacio c escrito,
  length escrito ≤ espacio →
  Forall (λ l, is_Some (objs !! l)) ls →
  para_cada (λ producto, p <- objeto producto ;; write (linea_de p)) ls
    {| objetos := objs; inventario := i;
       disco := {| contenido := Some escrito; falla_lectura := fl;
                   falla_escritura := Some (AlEscribir espacio) |};
       consola := c |}
  = ((if (length (escrito ++ volcado objs ls) <=? espacio)%nat
      then Ret tt else Raise OSError),
     {| objetos := objs; inventario := i;
        disco := {| contenido := Some (take espacio (escrito ++ volcado objs ls));
                    falla_lectura := fl;
                    falla_escritura := Some (AlEscribir espacio) |};
        consola := c |}).
Proof.
  induction ls as [|l ls IH]; intros objs i fl espacio c escrito Hle Hv.
  - simpl. unfold ret, volcado. simpl. rewrite app_nil_r.
    rewrite take_ge by done.
    by destruct (Nat.leb_spec (length escrito) espacio); [|lia].
  - inversion Hv as [|? ? [p Hp] Hls]; subst.
    cbn [para_cada]. unfold bind at 1. rewrite (escribir_uno _ _ _ _ _ _ _ p Hp).
    assert (volcado objs (l :: ls) = linea_de p ++ volcado objs ls) as ->
      by (unfold volcado; simpl; by rewrite Hp).
    cbv zeta.
    destruct (Nat.leb_spec (length escrito + length (linea_de p)) espacio) as [Hc|Hc].
    + rewrite IH by (rewrite ?length_app; done). by rewrite <- !app_assoc.
    + rewrite !length_app.
      destruct (Nat.leb_spec (length escrito + (length (linea_de p)
                                + length (volcado objs ls))) espacio); [lia|].
      do 4 f_equal. rewrite !take_app.
      rewrite (take_ge escrito) by done.
      replace (espacio - length escrito - length (linea_de p)) with 0 by lia.
      by rewrite take_0, app_nil_r.
Qed.

Lemma guardar_vivos w :
  vivos w → _guardar_en_archivo w = (Ret tt, tras_guardar w).
Proof.
  intros Hv. destruct w as [objs [ls idx] [s fl fe] c]. unfold vivos in Hv.
  simpl in Hv.
  unfold _guardar_en_archivo, tras_guardar, disco_tras_guardar,
    consola_tras_guardar, fallo_de_guardar.
  unfold try_, bind at 1, abrir_escritura, con_contenido, con_disco. simpl.
  destruct fe as [[e|espacio]|]; simpl.
  - by destruct e.
  - unfold bind at 1, self. simpl.
    rewrite escribir_productos_espacio by (simpl; done || lia). simpl.
    by destruct (Nat.leb_spec (length (volcado objs ls)) espacio).
  - unfold bind at 1, self. simpl.
    by rewrite escribir_productos.
Qed.

(* ------------------------------------------------------------------ *)
(** ** The invariant of the store *)
(* ------------------------------------------------------------------ *)

Lemma coherente_vivos w : coherente w → vivos w.
Proof.
  intros (_ & Hl & _). unfold vivos. eapply Forall_impl; [exact Hl|].
  intros l H. unfold en_lista_ok in H. by destruct (objetos w !! l).
Qed.

Lemma coherente_con_vacio objs :
  coherente_con objs {| _productos := []; _indice_por_id := ∅ |}.
Proof.
  split; [apply NoDup_nil_2|]. split; [apply Forall_nil_2|apply map_Forall_empty].
Qed.

(** The invariant reads the heap only through the ids of the objects it
    already has. *)
Lemma coherente_con_heap objs objs' i :
  (∀ l p, objs !! l = Some p → ∃ p', objs' !! l = Some p' ∧ _id p' = _id p) →
  coherente_con objs i → coherente_con objs' i.
Proof.
  intros Hext (Hnd & Hl & Hi). split; [done|]. split.
  - eapply Forall_impl; [exact Hl|]. intros l. unfold en_lista_ok.
    destruct (objs !! l) as [p|] eqn:Hp; [|done].
    destruct (Hext l p Hp) as (p' & -> & ->). done.
  - eapply map_Forall_impl; [exact Hi|]. intros k l [Hin Hk]. split; [done|].
    destruct (objs !! l) as [p|] eqn:Hp; [|done].
    destruct (Hext l p Hp) as (p' & -> & ->). done.
Qed.

Lemma coherente_con_nuevo objs i p :
  coherente_con objs i → coherente_con (objs ++ [p]) i.
Proof.
  apply coherente_con_heap. intros l q Hq. exists q. split; [|done].
  by apply lookup_app_l_Some.
Qed.

Lemma coherente_con_asignar objs i l p p' :
  objs !! l = Some p → _id p' = _id p →
  coherente_con objs i → coherente_con (<[l := p']> objs) i.
Proof.
  intros Hp Hid. apply coherente_con_heap. intros l' q Hq.
  destruct (decide (l = l')) as [<-|Hne].
  - exists p'. rewrite list_lookup_insert_eq by (by eapply lookup_lt_Some).
    split; [done|]. congruence.
  - exists q. by rewrite list_lookup_insert_ne.
Qed.

Lemma coherente_con_agregar objs i l p :
  objs !! l = Some p → _indice_por_id i !! _id p = None →
  coherente_con objs i →
  coherente_con objs {| _productos := _productos i ++ [l];
                        _indice_por_id := <[_id p := l]> (_indice_por_id i) |}.
Proof.
  intros Hp Hnone (Hnd & Hl & Hi). split; [|split]; simpl.
  - apply NoDup_app. split; [done|]. split; [|apply NoDup_singleton].
    intros x Hx ->%list_elem_of_singleton.
    rewrite Forall_forall in Hl. specialize (Hl _ Hx).
    unfold en_lista_ok in Hl. rewrite Hp in Hl. congruence.
  - apply Forall_app. split.
    + rewrite Forall_forall in Hl |- *. intros x Hx. specialize (Hl _ Hx).
      unfold en_lista_ok in *. simpl. destruct (objs !! x) as [q|]; [|done].
      rewrite lookup_insert_ne; [done|]. congruence.
    + constructor; [|constructor]. unfold en_lista_ok. simpl.
      by rewrite Hp, lookup_insert_eq.
  - apply map_Forall_insert_2.
    + split; simpl; [set_solver|]. by rewrite Hp.
    + eapply map_Forall_impl; [exact Hi|]. intros k x [Hin Hk].
      split; simpl; [set_solver|done].
Qed.

(** *** [list.remove] *)

Lemma list_remove_elem x l :
  x ∈ l →
  ∃ quedan, list_remove x l = Some quedan ∧
            length l = S (length quedan) ∧
            (∀ y, y ∈ l ↔ y = x ∨ y ∈ quedan) ∧
            (NoDup l → NoDup quedan ∧ x ∉ quedan).
Proof.
  induction l as [|y r IH]; [by intros ?%elem_of_nil|]. intros Hx. simpl.
  destruct (decide (y = x)) as [->|Hne].
  - exists r. split; [done|]. split; [done|]. split.
    + intros y. by rewrite elem_of_cons.
    + intros Hnd. apply NoDup_cons in Hnd as [Hy Hr]. done.
  - apply elem_of_cons in Hx as [->|Hx]; [done|].
    destruct (IH Hx) as (q & -> & Hlen & Hmem & Hnd). exists (y :: q).
    split; [done|]. split; [simpl; by rewrite Hlen|]. split.
    + intros z. rewrite !elem_of_cons, Hmem. tauto.
    + intros [Hy Hr]%NoDup_cons. destruct (Hnd Hr) as [Hq Hxq]. split.
      * apply NoDup_cons. split; [|done]. rewrite Hmem in Hy. tauto.
      * rewrite elem_of_cons. intros [->|?]; done.
Qed.

Lemma list_remove_ausente x l : x ∉ l → list_remove x l = None.
Proof.
  induction l as [|y r IH]; [done|]. rewrite not_elem_of_cons. intros [Hne Hr].
  simpl. destruct (decide (y = x)); [congruence|]. by rewrite IH.
Qed.

Lemma coherente_con_eliminar objs i k l quedan :
  _indice_por_id i !! k = Some l → list_remove l (_productos i) = Some quedan →
  coherente_con objs i →
  coherente_con objs {| _productos := quedan;
                        _indice_por_id := delete k (_indice_por_id i) |}.
Proof.
  intros Hk Hrem (Hnd & Hl & Hi).
  pose proof (Hi k l Hk) as [Hin Hkl].
  destruct (list_remove_elem l _ Hin) as (q & Hq & _ & Hmem & Hnd').
  rewrite Hrem in Hq. injection Hq as <-. destruct (Hnd' Hnd) as [Hndq Hlq].
  split; [|split]; simpl; [done| |].
  - rewrite Forall_forall in Hl |- *. intros x Hx.
    assert (x ∈ _productos i) as Hxi by (apply Hmem; by right).
    specialize (Hl _ Hxi). unfold en_lista_ok in *. simpl.
    destruct (objs !! x) as [p|]; [|done].
    rewrite lookup_delete_ne; [done|]. intros ->.
    rewrite Hk in Hl. injection Hl as ->. done.
  - intros k' x Hk'. apply lookup_delete_Some in Hk' as [Hne Hk'].
    destruct (Hi k' x Hk') as [Hxin Hxk]. split; simpl; [|done].
    apply Hmem in Hxin as [->|]; [|done].
    destruct (objs !! l); [congruence|done].
Qed.

(* ------------------------------------------------------------------ *)
(** ** What each operation does *)
(* ------------------------------------------------------------------ *)

Lemma Producto_init_valido id_producto nombre cantidad precio w :
  (0 < id_producto)%Z → (0 ≤ cantidad)%Z → float_negativo precio = false →
  Producto_init id_producto nombre cantidad precio w
  = (Ret (length (objetos w)),
     con_objetos (objetos w ++ [{| _id := id_producto;
                                   _nombre := Py.title (Py.strip nombre);
                                   _cantidad := cantidad;
                                   _precio := precio |}]) w).
Proof.
  intros Hid Hc Hp. unfold Producto_init.
  destruct (Z.leb_spec id_producto 0); [lia|].
  destruct (Z.ltb_spec cantidad 0); [lia|]. by rewrite Hp.
Qed.


Lemma agregar_producto_no_es_producto w l :
  objetos w !! l = None → agregar_producto l w = (Raise AttributeError, w).
Proof. intros H. unfold agregar_producto. desplegar. by rewrite H. Qed.

Lemma agregar_producto_existente w l p :
  objetos w !! l = Some p →
  is_Some (_indice_por_id (inventario w) !! _id p) →
  agregar_producto l w
  = (Ret false, con_consola (consola w ++ [MsgYaExiste (_id p)]) w).
Proof.
  intros Hp [x Hx]. unfold agregar_producto. desplegar.
  rewrite Hp. simpl. by rewrite Hx.
Qed.

Lemma agregar_producto_nuevo w l p :
  objetos w !! l = Some p →
  _indice_por_id (inventario w) !! _id p = None →
  vivos w →
  agregar_producto l w
  = (Ret true,
     let w1 := tras_guardar
                 (con_inventario
                    {| _productos := _productos (inventario w) ++ [l];
                       _indice_por_id := <[_id p := l]> (_indice_por_id (inventario w)) |}
                    w) in
     con_consola (consola w1 ++ [MsgAgregado (_nombre p) (_id p)]) w1).
Proof.
  intros Hp Hx Hv. unfold agregar_producto. desplegar. por_partes w.
  rewrite Hp. simpl. rewrite Hx. simpl. rewrite Hp. simpl.
  rewrite guardar_vivos.
  - simpl. rewrite Hp. simpl. by rewrite Hp.
  - unfold vivos. simpl. apply Forall_app. split; [exact Hv|].
    constructor; [by eexists|constructor].
Qed.

Lemma coherente_indice w k l :
  coherente w → _indice_por_id (inventario w) !! k = Some l →
  l ∈ _productos (inventario w) ∧ ∃ p, objetos w !! l = Some p ∧ _id p = k.
Proof.
  intros (_ & _ & Hi) Hk. destruct (Hi k l Hk) as [Hin Hp]. split; [done|].
  destruct (objetos w !! l) as [p|]; [by exists p|done].
Qed.

Lemma vivos_asignar objs ls idx d c l p :
  vivos {| objetos := objs; inventario := {| _productos := ls; _indice_por_id := idx |};
           disco := d; consola := c |} →
  vivos {| objetos := <[l := p]> objs;
           inventario := {| _productos := ls; _indice_por_id := idx |};
           disco := d; consola := c |}.
Proof.
  unfold vivos. simpl. intros H. eapply Forall_impl; [exact H|].
  intros x [q Hq]. simpl.
  destruct (decide (l = x)) as [->|Hne].
  - exists p. apply list_lookup_insert_eq. by eapply lookup_lt_Some.
  - exists q. by rewrite list_lookup_insert_ne.
Qed.

Lemma eliminar_producto_ausente w id_producto :
  _indice_por_id (inventario w) !! id_producto = None →
  eliminar_producto id_producto w
  = (Ret false, con_consola (consola w ++ [MsgNoSeEncontro id_producto]) w).
Proof. intros H. unfold eliminar_producto. desplegar. simpl. by rewrite H. Qed.

Lemma eliminar_producto_presente w id_producto l :
  coherente w →
  _indice_por_id (inventario w) !! id_producto = Some l →
  ∃ quedan p,
    list_remove l (_productos (inventario w)) = Some quedan ∧
    objetos w !! l = Some p ∧ _id p = id_producto ∧
    eliminar_producto id_producto w
    = (Ret true,
       let w1 := tras_guardar
                   (con_inventario
                      {| _productos := quedan;
                         _indice_por_id := delete id_producto
                                             (_indice_por_id (inventario w)) |}
                      w) in
       con_consola (consola w1 ++ [MsgEliminado (_nombre p) id_producto]) w1).
Proof.
  intros Hc Hk. destruct (coherente_indice w _ _ Hc Hk) as (Hin & p & Hp & Hid).
  destruct (list_remove_elem l _ Hin) as (quedan & Hrem & _ & Hmem & _).
  exists quedan, p. split; [done|]. split; [done|]. split; [done|].
  pose proof (coherente_vivos w Hc) as Hv.
  unfold eliminar_producto. desplegar. por_partes w.
  rewrite Hk. simpl. rewrite Hrem. simpl.
  rewrite guardar_vivos.
  - simpl. by rewrite Hp.
  - unfold vivos in *. simpl in *. rewrite Forall_forall in Hv |- *.
    intros x Hx. apply Hv, Hmem. by right.
Qed.

Lemma actualizar_cantidad_ausente w id_producto nueva_cantidad :
  _indice_por_id (inventario w) !! id_producto = None →
  actualizar_cantidad id_producto nueva_cantidad w
  = (Ret false, con_consola (consola w ++ [MsgNoSeEncontro id_producto]) w).
Proof. intros H. unfold actualizar_cantidad. desplegar. simpl. by rewrite H. Qed.

Lemma actualizar_cantidad_negativa w id_producto nueva_cantidad l p :
  _indice_por_id (inventario w) !! id_producto = Some l →
  objetos w !! l = Some p →
  (nueva_cantidad < 0)%Z →
  actualizar_cantidad id_producto nueva_cantidad w
  = (Ret false,
     con_consola (consola w ++ [MsgCantidadInvalida (ValueError CantidadNegativa)]) w).
Proof.
  intros Hk Hp Hn. unfold actualizar_cantidad, set_cantidad. desplegar.
  por_partes w. rewrite Hk. simpl. rewrite Hp. simpl.
  by destruct (Z.ltb_spec nueva_cantidad 0); [|lia].
Qed.

Lemma actualizar_cantidad_valida w id_producto nueva_cantidad l p :
  vivos w →
  _indice_por_id (inventario w) !! id_producto = Some l →
  objetos w !! l = Some p →
  (0 ≤ nueva_cantidad)%Z →
  actualizar_cantidad id_producto nueva_cantidad w
  = (Ret true,
     let p' := {| _id := _id p; _nombre := _nombre p;
                  _cantidad := nueva_cantidad; _precio := _precio p |} in
     let w1 := tras_guardar (con_objetos (<[l := p']> (objetos w)) w) in
     con_consola (consola w1 ++ [MsgCantidadActualizada p'; MsgCambioGuardado]) w1).
Proof.
  intros Hv Hk Hp Hn. unfold actualizar_cantidad, set_cantidad. desplegar.
  por_partes w. rewrite Hk. simpl. rewrite Hp. simpl.
  destruct (Z.ltb_spec nueva_cantidad 0); [lia|]. simpl.
  rewrite guardar_vivos by (by apply vivos_asignar). simpl.
  rewrite list_lookup_insert_eq by (by eapply lookup_lt_Some). simpl.
  by rewrite <- app_assoc.
Qed.

Lemma actualizar_precio_ausente w id_producto nuevo_precio :
  _indice_por_id (inventario w) !! id_producto = None →
  actualizar_precio id_producto nuevo_precio w
  = (Ret false, con_consola (consola w ++ [MsgNoSeEncontro id_producto]) w).
Proof. intros H. unfold actualizar_precio. desplegar. simpl. by rewrite H. Qed.

Lemma actualizar_precio_negativo w id_producto nuevo_precio l p :
  _indice_por_id (inventario w) !! id_producto = Some l →
  objetos w !! l = Some p →
  float_negativo nuevo_precio = true →
  actualizar_precio id_producto nuevo_precio w
  = (Ret false,
     con_consola (consola w ++ [MsgPrecioInvalido (ValueError PrecioNegativo)]) w).
Proof.
  intros Hk Hp Hn. unfold actualizar_precio, set_precio. desplegar.
  por_partes w. rewrite Hk. simpl. rewrite Hp. simpl. by rewrite Hn.
Qed.

Lemma actualizar_precio_valido w id_producto nuevo_precio l p :
  vivos w →
  _indice_por_id (inventario w) !! id_producto = Some l →
  objetos w !! l = Some p →
  float_negativo nuevo_precio = false →
  actualizar_precio id_producto nuevo_precio w
  = (Ret true,
     let p' := {| _id := _id p; _nombre := _nombre p;
                  _cantidad := _cantidad p; _precio := nuevo_precio |} in
     let w1 := tras_guardar (con_objetos (<[l := p']> (objetos w)) w) in
     con_consola (consola w1 ++ [MsgPrecioActualizado p'; MsgCambioGuardado]) w1).
Proof.
  intros Hv Hk Hp Hn. unfold actualizar_precio, set_precio. desplegar.
  por_partes w. rewrite Hk. simpl. rewrite Hp. simpl. rewrite Hn. simpl.
  rewrite guardar_vivos by (by apply vivos_asignar). simpl.
  rewrite list_lookup_insert_eq by (by eapply lookup_lt_Some). simpl.
  by rewrite <- app_assoc.
Qed.

(* ------------------------------------------------------------------ *)
(** ** Adding and removing *)
(* ------------------------------------------------------------------ *)

Lemma contar_productos_eq w :
  contar_productos w = (Ret (length (_productos (inventario w))), w).
Proof. reflexivity. Qed.



(* ------------------------------------------------------------------ *)
(** ** Reading one line *)
(* ------------------------------------------------------------------ *)

Lemma procesar_linea_spec num_linea linea productos_cargados w :
  procesar_linea num_linea linea productos_cargados w
  = match leer_linea linea with
    | Blanco => (Ret productos_cargados, w)
    | MalFormato s =>
        (Ret productos_cargados,
         con_consola (consola w ++ [MsgFormatoIncorrecto num_linea s]) w)
    | Invalida e =>
        (Ret productos_cargados,
         con_consola (consola w ++ [MsgDatosInvalidos num_linea e]) w)
    | Registro p =>
        (Ret (match _indice_por_id (inventario w) !! _id p with
              | Some _ => productos_cargados
              | None => S productos_cargados
              end),
         tras_registro num_linea p w)
    end.
Proof.
  unfold procesar_linea, leer_linea, tras_registro.
  destruct (Py.strip linea) as [|c0 r0]; [done|].
  destruct (Py.split SEPARADOR (c0 :: r0)) as [|a [|b [|c [|d [|? ?]]]]]; try done.
  unfold validar, Producto_init. desplegar. por_partes w.
  destruct (Py.int a) as [i|]; [|done]. simpl.
  destruct (Py.int c) as [q|]; [|done]. simpl.
  destruct (float_de_str d) as [x|]; [|done]. simpl.
  destruct (i <=? 0)%Z; [done|].
  destruct (q <? 0)%Z; [done|].
  destruct (float_negativo x); [done|]. simpl.
  rewrite lookup_app_r, Nat.sub_diag by done. simpl.
  destruct (idx !! i) as [l|] eqn:Hi; simpl; [done|].
  by rewrite lookup_app_r, Nat.sub_diag by done.
Qed.

(* ------------------------------------------------------------------ *)
(** ** Loading keeps the store coherent *)
(* ------------------------------------------------------------------ *)

Lemma mismos_nombres_refl w : mismos_nombres w w.
Proof. intros l p Hp. by exists p. Qed.

Lemma mismos_nombres_trans w1 w2 w3 :
  mismos_nombres w1 w2 → mismos_nombres w2 w3 → mismos_nombres w1 w3.
Proof.
  intros H12 H23 l p Hp. destruct (H12 l p Hp) as (p2 & Hp2 & Hid2 & Hn2).
  destruct (H23 l p2 Hp2) as (p3 & Hp3 & Hid3 & Hn3).
  exists p3. split; [done|]. split; congruence.
Qed.

Lemma mismos_nombres_objetos w w' :
  objetos w' = objetos w → mismos_nombres w w'.
Proof. intros H l p Hp. exists p. by rewrite H. Qed.

Lemma mismos_nombres_nuevo w w' p :
  objetos w' = objetos w ++ [p] → mismos_nombres w w'.
Proof.
  intros H l q Hq. exists q. rewrite H. split; [|done]. by apply lookup_app_l_Some.
Qed.

Lemma mismos_nombres_asignar w w' l p p' :
  objetos w !! l = Some p → _id p' = _id p → _nombre p' = _nombre p →
  objetos w' = <[l := p']> (objetos w) → mismos_nombres w w'.
Proof.
  intros Hp Hid Hn H x q Hq. rewrite H.
  destruct (decide (l = x)) as [<-|Hne].
  - exists p'. rewrite list_lookup_insert_eq by (by eapply lookup_lt_Some).
    split; [done|]. split; congruence.
  - exists q. by rewrite list_lookup_insert_ne.
Qed.

Lemma coherente_marco w w' :
  objetos w' = objetos w → inventario w' = inventario w →
  coherente w → coherente w'.
Proof. unfold coherente. by intros -> ->. Qed.

Lemma tras_registro_inv num_linea p w :
  coherente w →
  coherente (tras_registro num_linea p w) ∧
  mismos_nombres w (tras_registro num_linea p w).
Proof.
  intros Hc. unfold tras_registro.
  destruct (_indice_por_id (inventario w) !! _id p) eqn:Hk.
  - split; [by apply coherente_con_nuevo|by eapply mismos_nombres_nuevo].
  - split; [|by eapply mismos_nombres_nuevo].
    unfold coherente. simpl.
    apply (coherente_con_agregar _ (inventario w) (length (objetos w)) p).
    + by rewrite lookup_app_r, Nat.sub_diag.
    + done.
    + by apply coherente_con_nuevo.
Qed.

Lemma procesar_linea_inv num_linea linea productos_cargados w :
  coherente w →
  ∃ n w', procesar_linea num_linea linea productos_cargados w = (Ret n, w') ∧
          coherente w' ∧ mismos_nombres w w' ∧ disco w' = disco w.
Proof.
  intros Hc. rewrite procesar_linea_spec.
  destruct (leer_linea linea) as [|s|e|p]; eexists _, _;
    (split; [reflexivity|]).
  - split; [done|]. split; [apply mismos_nombres_refl|done].
  - split; [by destruct w|]. split; [by apply mismos_nombres_objetos|done].
  - split; [by destruct w|]. split; [by apply mismos_nombres_objetos|done].
  - destruct (tras_registro_inv num_linea p w Hc) as [? ?].
    split; [done|]. split; [done|].
    unfold tras_registro. by destruct (_indice_por_id (inventario w) !! _id p).
Qed.

Lemma procesar_lineas_inv lineas : ∀ num_linea productos_cargados w,
  coherente w →
  ∃ n w', procesar_lineas num_linea lineas productos_cargados w = (Ret n, w') ∧
          coherente w' ∧ mismos_nombres w w' ∧ disco w' = disco w.
Proof.
  induction lineas as [|linea resto IH]; intros num_linea c w Hc.
  - exists c, w. split; [done|]. split; [done|].
    split; [apply mismos_nombres_refl|done].
  - destruct (procesar_linea_inv num_linea linea c w Hc)
      as (n1 & w1 & H1 & Hc1 & Hn1 & Hd1).
    destruct (IH (S num_linea) n1 w1 Hc1) as (n2 & w2 & H2 & Hc2 & Hn2 & Hd2).
    exists n2, w2. simpl. unfold bind. rewrite H1, H2.
    split; [done|]. split; [done|].
    split; [by eapply mismos_nombres_trans|congruence].
Qed.

Lemma cargar_desde_archivo_inv w :
  coherente w →
  ∃ w', _cargar_desde_archivo w = (Ret tt, w') ∧
        coherente w' ∧ mismos_nombres w w'.
Proof.
  intros Hc. unfold _cargar_desde_archivo, _crear_archivo_vacio, leer_lineas.
  unfold bind at 1, try_ at 1, bind at 1.
  destruct (falla_lectura (disco w)) as [[]|] eqn:Hf.
  - simpl. desplegar. simpl.
    destruct (falla_escritura (disco w)) as [[[]|?]|]; simpl;
      (eexists; split; [reflexivity|]; split;
       [by destruct w|by apply mismos_nombres_objetos]).
  - simpl. desplegar. simpl.
    eexists; split; [reflexivity|]; split;
      [by destruct w|by apply mismos_nombres_objetos].
  - simpl. desplegar. simpl.
    eexists; split; [reflexivity|]; split;
      [by destruct w|by apply mismos_nombres_objetos].
  - destruct (contenido (disco w)) as [s|] eqn:Hs.
    + simpl.
      destruct (procesar_lineas_inv (Py.readlines s) 1 0 w Hc)
        as (n & w1 & H1 & Hc1 & Hn1 & _).
      unfold bind. rewrite H1.
      destruct (0 <? n)%nat; desplegar;
        (eexists; split; [reflexivity|]; split;
         [by destruct w1|
          eapply mismos_nombres_trans; [exact Hn1|by apply mismos_nombres_objetos]]).
    + simpl. desplegar. simpl.
      destruct (falla_escritura (disco w)) as [[[]|?]|]; simpl;
        (eexists; split; [reflexivity|]; split;
         [by destruct w|by apply mismos_nombres_objetos]).
Qed.

Lemma Inventario_init_inv w :
  ∃ w', Inventario_init w = (Ret tt, w') ∧ coherente w' ∧ mismos_nombres w w'.
Proof.
  unfold Inventario_init. unfold bind, asignar_self.
  destruct (cargar_desde_archivo_inv
              (con_inventario {| _productos := []; _indice_por_id := ∅ |} w))
    as (w' & H & Hc & Hn); [apply coherente_con_vacio|].
  exists w'. rewrite H. split; [done|]. split; [done|].
  intros l p Hp. by apply Hn.
Qed.

(* ------------------------------------------------------------------ *)
(** ** Searching *)
(* ------------------------------------------------------------------ *)

Lemma startswith_spec t s :
  Py.startswith t s = true ↔ ∃ post, s = t ++ post.
Proof.
  revert s. induction t as [|a t IH]; intros s; simpl.
  - split; [by exists s|done].
  - destruct s as [|b s]; [split; [done|by intros [? ?]]|].
    rewrite andb_true_iff, Ascii.eqb_eq, IH. split.
    + intros [-> [post ->]]. by exists post.
    + intros [post [= -> ->]]. split; [done|by exists post].
Qed.

(** [t in s] holds exactly when [s] is some text, then [t], then some
    text. *)
Lemma contiene_spec t s :
  Py.contiene t s = true ↔ ∃ pre post, s = pre ++ t ++ post.
Proof.
  induction s as [|b s IH]; simpl.
  - rewrite orb_false_r, startswith_spec. split.
    + intros [post H]. by exists [], post.
    + intros (pre & post & H). symmetry in H.
      apply app_eq_nil in H as [-> H]. by exists post.
  - rewrite orb_true_iff, startswith_spec, IH. split.
    + intros [[post H]|(pre & post & ->)].
      * by exists [], post.
      * by exists (b :: pre), post.
    + intros (pre & post & H). destruct pre as [|c pre].
      * left. by exists post.
      * right. injection H as -> ->. by exists pre, post.
Qed.

Lemma bind_ret_eq {A B} (m : M A) (k : A → M B) w a w' :
  m w = (Ret a, w') → bind m k w = k a w'.
Proof. intros H. unfold bind. by rewrite H. Qed.

Lemma bind_raise_eq {A B} (m : M A) (k : A → M B) w e w' :
  m w = (Raise e, w') → bind m k w = (Raise e, w').
Proof. intros H. unfold bind. by rewrite H. Qed.

Lemma condicion_nombre t l w :
  (n <- get_nombre l ;; ret (Py.contiene t (Py.lower n))) w
  = match objetos w !! l with
    | Some p => (Ret (Py.contiene t (Py.lower (_nombre p))), w)
    | None => (Raise AttributeError, w)
    end.
Proof. desplegar. by destruct (objetos w !! l). Qed.

Lemma filtrar_nombres t ls : ∀ w,
  Forall (λ l, is_Some (objetos w !! l)) ls →
  filtrar (λ p, n <- get_nombre p ;; ret (Py.contiene t (Py.lower n))) ls w
  = (Ret (List.filter
            (λ l, match objetos w !! l with
                  | Some p => Py.contiene t (Py.lower (_nombre p))
                  | None => false
                  end) ls), w).
Proof.
  induction ls as [|l ls IH]; intros w Hv; [done|].
  inversion Hv as [|? ? [p Hp] Hls]; subst. simpl.
  erewrite bind_ret_eq; [|by rewrite condicion_nombre, Hp].
  erewrite bind_ret_eq; [|by apply IH].
  rewrite Hp. by destruct (Py.contiene t (Py.lower (_nombre p))).
Qed.

Lemma buscar_por_nombre_vivos texto w :
  vivos w →
  buscar_por_nombre texto w
  = (Ret (List.filter (coincide (objetos w) texto) (_productos (inventario w))), w).
Proof.
  intros Hv. unfold buscar_por_nombre, bind at 1, self.
  by rewrite filtrar_nombres.
Qed.

(** Searching never changes the world, whatever it returns. *)
Lemma filtrar_nombres_mundo t ls : ∀ w,
  (filtrar (λ p, n <- get_nombre p ;; ret (Py.contiene t (Py.lower n))) ls w).2 = w.
Proof.
  induction ls as [|l ls IH]; intros w; [done|]. simpl.
  destruct (objetos w !! l) as [p|] eqn:Hp.
  - erewrite bind_ret_eq; [|by rewrite condicion_nombre, Hp].
    specialize (IH w).
    destruct (filtrar _ ls w) as [[r|e] w1] eqn:Hf; simpl in IH; subst w1.
    + by erewrite bind_ret_eq by exact Hf.
    + by erewrite bind_raise_eq by exact Hf.
  - by erewrite bind_raise_eq by (by rewrite condicion_nombre, Hp).
Qed.

Lemma buscar_por_nombre_mundo texto w : (buscar_por_nombre texto w).2 = w.
Proof. unfold buscar_por_nombre, bind at 1, self. apply filtrar_nombres_mundo. Qed.

Lemma lower_isspace s : map Py.isspace (Py.lower s) = map Py.isspace s.
Proof.
  induction s as [|c r IH]; simpl; [done|]. by rewrite isspace_lower_c, IH.
Qed.




Lemma filter_sublist {A} (f : A → bool) (l : list A) :
  List.filter f l `sublist_of` l.
Proof.
  induction l as [|x l IH]; simpl; [constructor|].
  destruct (f x); by constructor.
Qed.

(* ------------------------------------------------------------------ *)
(** ** Sessions *)
(* ------------------------------------------------------------------ *)

Lemma tras_guardar_inv w :
  coherente w → coherente (tras_guardar w) ∧ mismos_nombres w (tras_guardar w).
Proof. intros Hc. split; [done|by apply mismos_nombres_objetos]. Qed.

Lemma set_cantidad_inv l c w :
  coherente w →
  coherente (set_cantidad l c w).2 ∧ mismos_nombres w (set_cantidad l c w).2.
Proof.
  intros Hc. unfold set_cantidad. desplegar.
  destruct (objetos w !! l) as [p|] eqn:Hp; simpl;
    [|split; [done|apply mismos_nombres_refl]].
  destruct (c <? 0)%Z; simpl; [split; [done|apply mismos_nombres_refl]|].
  split.
  - by eapply coherente_con_asignar.
  - eapply (mismos_nombres_asignar w _ l p _ Hp); [| |reflexivity]; done.
Qed.

Lemma set_precio_inv l x w :
  coherente w →
  coherente (set_precio l x w).2 ∧ mismos_nombres w (set_precio l x w).2.
Proof.
  intros Hc. unfold set_precio. desplegar.
  destruct (objetos w !! l) as [p|] eqn:Hp; simpl;
    [|split; [done|apply mismos_nombres_refl]].
  destruct (float_negativo x); simpl; [split; [done|apply mismos_nombres_refl]|].
  split.
  - by eapply coherente_con_asignar.
  - eapply (mismos_nombres_asignar w _ l p _ Hp); [| |reflexivity]; done.
Qed.

Lemma ejecutar_inv w o :
  coherente w → coherente (ejecutar w o) ∧ mismos_nombres w (ejecutar w o).
Proof.
  intros Hc. pose proof (coherente_vivos w Hc) as Hv.
  destruct o as [i n c x|l c|l x|l|i|i c|i x|t| |d]; simpl.
  - unfold Producto_init.
    destruct (i <=? 0)%Z; [split; [done|apply mismos_nombres_refl]|].
    destruct (c <? 0)%Z; [split; [done|apply mismos_nombres_refl]|].
    destruct (float_negativo x); [split; [done|apply mismos_nombres_refl]|].
    split; [by apply coherente_con_nuevo|by eapply mismos_nombres_nuevo].
  - by apply set_cantidad_inv.
  - by apply set_precio_inv.
  - destruct (objetos w !! l) as [p|] eqn:Hp.
    + destruct (_indice_por_id (inventario w) !! _id p) as [l'|] eqn:Hk.
      * rewrite (agregar_producto_existente w l p) by done.
        split; [done|by apply mismos_nombres_objetos].
      * rewrite (agregar_producto_nuevo w l p) by done.
        split; [|by apply mismos_nombres_objetos].
        by apply (coherente_con_agregar (objetos w) (inventario w) l p).
    + rewrite agregar_producto_no_es_producto by done.
      split; [done|apply mismos_nombres_refl].
  - destruct (_indice_por_id (inventario w) !! i) as [l|] eqn:Hk.
    + destruct (eliminar_producto_presente w i l Hc Hk)
        as (quedan & p & Hrem & Hp & Hid & ->).
      split; [|by apply mismos_nombres_objetos].
      by apply (coherente_con_eliminar (objetos w) (inventario w) i l quedan).
    + rewrite eliminar_producto_ausente by done.
      split; [done|by apply mismos_nombres_objetos].
  - destruct (_indice_por_id (inventario w) !! i) as [l|] eqn:Hk.
    + destruct (coherente_indice w i l Hc Hk) as (_ & p & Hp & _).
      destruct (Z.ltb_spec c 0).
      * rewrite (actualizar_cantidad_negativa w i c l p) by done.
        split; [done|by apply mismos_nombres_objetos].
      * rewrite (actualizar_cantidad_valida w i c l p) by done.
        split; [by eapply coherente_con_asignar|].
        eapply (mismos_nombres_asignar w _ l p _ Hp); [| |reflexivity]; done.
    + rewrite actualizar_cantidad_ausente by done.
      split; [done|by apply mismos_nombres_objetos].
  - destruct (_indice_por_id (inventario w) !! i) as [l|] eqn:Hk.
    + destruct (coherente_indice w i l Hc Hk) as (_ & p & Hp & _).
      destruct (float_negativo x) eqn:Hx.
      * rewrite (actualizar_precio_negativo w i x l p) by done.
        split; [done|by apply mismos_nombres_objetos].
      * rewrite (actualizar_precio_valido w i x l p) by done.
        split; [by eapply coherente_con_asignar|].
        eapply (mismos_nombres_asignar w _ l p _ Hp); [| |reflexivity]; done.
    + rewrite actualizar_precio_ausente by done.
      split; [done|by apply mismos_nombres_objetos].
  - rewrite buscar_por_nombre_mundo. split; [done|apply mismos_nombres_refl].
  - split; [done|apply mismos_nombres_refl].
  - split; [done|by apply mismos_nombres_objetos].
Qed.

Lemma foldl_ejecutar_inv ops : ∀ w,
  coherente w →
  coherente (foldl ejecutar w ops) ∧ mismos_nombres w (foldl ejecutar w ops).
Proof.
  induction ops as [|o ops IH]; intros w Hc; simpl.
  - split; [done|apply mismos_nombres_refl].
  - destruct (ejecutar_inv w o Hc) as [Hc1 Hn1].
    destruct (IH _ Hc1) as [Hc2 Hn2].
    split; [done|by eapply mismos_nombres_trans].
Qed.

(** C1.  After [Inventario()] on any file and any sequence of
    operations (products built or assigned to by the caller, add,
    remove, the two updates, search, count, changes of the file by the
    environment), the list and the dictionary hold the same products:
    a location is in the list exactly when the dictionary has it under
    some id, that id is the id of the object there, and the list has no
    product twice. *)
Theorem lista_e_indice_mismos_productos
    (objs : list Producto) (d : Disco) (ops : list operacion) :
  let w := sesion objs d ops in
  (∀ l, l ∈ _productos (inventario w)
        ↔ ∃ k, _indice_por_id (inventario w) !! k = Some l) ∧
  (∀ k l, _indice_por_id (inventario w) !! k = Some l →
          ∃ p, objetos w !! l = Some p ∧ _id p = k) ∧
  NoDup (_productos (inventario w)).
Proof.
  intros w.
  assert (coherente w) as Hc.
  { unfold w, sesion.
    destruct (Inventario_init_inv
      {| objetos := objs;
         inventario := {| _productos := []; _indice_por_id := ∅ |};
         disco := d; consola := [] |}) as (w0 & -> & Hc0 & _).
    by apply foldl_ejecutar_inv. }
  split; [|split].
  - intros l. split.
    + intros Hl. destruct Hc as (_ & Hls & _).
      rewrite Forall_forall in Hls. specialize (Hls l Hl).
      unfold en_lista_ok in Hls.
      destruct (objetos w !! l) as [p|]; [by exists (_id p)|done].
    + intros [k Hk]. by destruct (coherente_indice w k l Hc Hk).
  - intros k l Hk. by destruct (coherente_indice w k l Hc Hk).
  - by destruct Hc.
Qed.

(* ------------------------------------------------------------------ *)
(** ** The product's validation *)
(* ------------------------------------------------------------------ *)


(* ------------------------------------------------------------------ *)
(** ** Searching by name *)
(* ------------------------------------------------------------------ *)

(** C8, as amended.  In any store (whose products are objects)
    [buscar_por_nombre(texto)] returns, in the order of the list, exactly the products whose name,
    lower-cased, contains the text lower-cased and with the blanks at
    its two ends removed; the world (objects, store, file, console) is
    as it was.  On a store whose products are named Widget and Gadget,
    the text wid returns only the first. *)
Theorem buscar_por_nombre_correcto (w : Mundo) (texto : str) :
  vivos w →
  (∃ resultado,
     buscar_por_nombre texto w = (Ret resultado, w) ∧
     resultado `sublist_of` _productos (inventario w) ∧
     ∀ l, l ∈ resultado ↔
          l ∈ _productos (inventario w) ∧
          ∃ p pre post, objetos w !! l = Some p ∧
            Py.lower (_nombre p) = pre ++ Py.strip (Py.lower texto) ++ post) ∧
  (∀ l1 l2 p1 p2,
     _productos (inventario w) = [l1; l2] →
     objetos w !! l1 = Some p1 → _nombre p1 = lit "Widget" →
     objetos w !! l2 = Some p2 → _nombre p2 = lit "Gadget" →
     buscar_por_nombre (lit "wid") w = (Ret [l1], w)).
Proof.
  intros Hv. split.
  - eexists. split; [by apply buscar_por_nombre_vivos|]. split.
    + apply filter_sublist.
    + intros l. rewrite list_elem_of_In, filter_In, <- list_elem_of_In.
      unfold coincide. split.
      * intros [Hin Hm]. split; [done|].
        destruct (objetos w !! l) as [p|]; [|done].
        apply contiene_spec in Hm as (pre & post & Hm). by exists p, pre, post.
      * intros (Hin & p & pre & post & -> & Hm). split; [done|].
        apply contiene_spec. by exists pre, post.
  - intros l1 l2 p1 p2 Hls Hp1 Hn1 Hp2 Hn2.
    rewrite buscar_por_nombre_vivos by done. rewrite Hls. simpl.
    unfold coincide. by rewrite Hp1, Hp2, Hn1, Hn2.
Qed.


(* ------------------------------------------------------------------ *)
(** ** A failed save *)
(* ------------------------------------------------------------------ *)



(* ------------------------------------------------------------------ *)
(** ** Writing a line and reading it back *)
(* ------------------------------------------------------------------ *)

Lemma recortada_extremos esp (a m b : str) :
  a ≠ [] → b ≠ [] →
  Forall (λ c, esp c = false) a → Forall (λ c, esp c = false) b →
  recortada esp (a ++ m ++ b) = true.
Proof.
  intros Ha Hb Fa Fb. unfold recortada. apply andb_true_intro. split.
  - destruct a as [|c a]; [done|]. simpl. inversion Fa; subst.
    by destruct (esp c).
  - rewrite !rev_app_distr, <- app_assoc.
    destruct (rev b) as [|c r] eqn:Hr.
    + apply (f_equal (@rev ascii)) in Hr. rewrite rev_involutive in Hr. done.
    + simpl. assert (In c b) as Hc by (apply in_rev; rewrite Hr; by left).
      rewrite List.Forall_forall in Fb. by rewrite (Fb c Hc).
Qed.

Lemma leer_linea_partes linea c0 r0 a b c d i q x :
  Py.strip linea = c0 :: r0 →
  Py.split SEPARADOR (c0 :: r0) = [a; b; c; d] →
  Py.int a = Some i → Py.int c = Some q → float_de_str d = Some x →
  leer_linea linea = validar i b q x.
Proof.
  intros Hs Hp Ha Hc Hd. unfold leer_linea. by rewrite Hs, Hp, Ha, Hc, Hd.
Qed.

Lemma linea_de_cuerpo p : linea_de p = cuerpo_de p ++ [Py.LF].
Proof. unfold linea_de, cuerpo_de. by rewrite <- !app_assoc. Qed.

Lemma strip_linea_de p :
  Py.strip (linea_de p) = cuerpo_de p ∧ cuerpo_de p ≠ [].
Proof.
  destruct (str_int_forma (_id p)) as [Hne Hall].
  destruct (float_a_str_forma (_precio p)) as [Hfne Hfall].
  split.
  - rewrite linea_de_cuerpo. apply strip_con_final; [|
      apply recortada_extremos; [done|done| |] |done].
    + unfold cuerpo_de. by destruct (Py.str_int (_id p)).
    + eapply Forall_impl; [exact Hall|]. apply int_no_isspace.
    + eapply Forall_impl; [exact Hfall|]. apply float_no_isspace.
  - unfold cuerpo_de. by destruct (Py.str_int (_id p)).
Qed.

Lemma split_cuerpo_de p :
  SEPARADOR ∉ _nombre p →
  Py.split SEPARADOR (cuerpo_de p)
  = [Py.str_int (_id p); _nombre p; Py.str_int (_cantidad p);
     float_a_str (_precio p)].
Proof.
  intros Hn. unfold cuerpo_de. rewrite <- !app_assoc.
  assert (∀ n, SEPARADOR ∉ Py.str_int n) as Hint.
  { intros n Hin. destruct (str_int_forma n) as [_ Hall].
    rewrite Forall_forall in Hall. by apply (int_no_separador _ (Hall _ Hin)). }
  apply split_cuatro; [apply Hint|done|apply Hint|].
  intros Hin. destruct (float_a_str_forma (_precio p)) as [_ Hall].
  rewrite Forall_forall in Hall. by apply (float_no_separador _ (Hall _ Hin)).
Qed.

(** A valid product whose name is normalised and has no separator is
    read back from its line. *)
Lemma leer_linea_de p :
  (0 < _id p)%Z → (0 ≤ _cantidad p)%Z → float_negativo (_precio p) = false →
  SEPARADOR ∉ _nombre p → Py.title (Py.strip (_nombre p)) = _nombre p →
  leer_linea (linea_de p) = Registro p.
Proof.
  intros Hid Hc Hx Hsep Hnorm.
  destruct (strip_linea_de p) as [Hs Hne].
  destruct (cuerpo_de p) as [|c0 r0] eqn:Hcuerpo; [done|].
  rewrite (leer_linea_partes _ c0 r0 (Py.str_int (_id p)) (_nombre p)
             (Py.str_int (_cantidad p)) (float_a_str (_precio p))
             (_id p) (_cantidad p) (_precio p)).
  - unfold validar.
    destruct (Z.leb_spec (_id p) 0); [lia|].
    destruct (Z.ltb_spec (_cantidad p) 0); [lia|].
    rewrite Hx, Hnorm. by destruct p.
  - done.
  - rewrite <- Hcuerpo. by apply split_cuerpo_de.
  - apply int_str_int.
  - apply int_str_int.
  - apply float_ida_y_vuelta.
Qed.

Lemma nombre_normalizado_sin_separador nombre :
  SEPARADOR ∉ nombre → SEPARADOR ∉ Py.title (Py.strip nombre).
Proof.
  intros H Hin. apply H. unfold Py.title in Hin.
  apply title_desde_separador in Hin. by apply strip_con_elem in Hin.
Qed.

(* ------------------------------------------------------------------ *)
(** ** Loading a file *)
(* ------------------------------------------------------------------ *)

(** [Inventario()] when the file can be read. *)
Lemma Inventario_init_leido w s :
  falla_lectura (disco w) = None → contenido (disco w) = Some s →
  Inventario_init w
  = match procesar_lineas 1 (Py.readlines s) 0 (con_inventario inventario_vacio w) with
    | (Ret n, w1) =>
        (Ret tt,
         con_consola (consola w1 ++ [if (0 <? n)%nat then MsgCargados n
                                     else MsgSinProductosValidos]) w1)
    | (Raise e, w1) => (Raise e, w1)
    end.
Proof.
  intros Hf Hs. unfold Inventario_init, _cargar_desde_archivo, leer_lineas.
  unfold bind at 1, asignar_self. unfold bind at 1, try_ at 1, bind at 1.
  simpl. rewrite Hf, Hs. unfold ret at 1. unfold bind at 1.
  destruct (procesar_lineas 1 (Py.readlines s) 0 _) as [[n|e] w1]; [|done].
  by destruct (0 <? n)%nat.
Qed.

Lemma procesar_lineas_cons num_linea linea resto productos_cargados w :
  procesar_lineas num_linea (linea :: resto) productos_cargados w
  = match procesar_linea num_linea linea productos_cargados w with
    | (Ret n, w') => procesar_lineas (S num_linea) resto n w'
    | (Raise e, w') => (Raise e, w')
    end.
Proof. reflexivity. Qed.


(** *** The file of one line *)

Lemma salto_fijo x c :
  x = Py.LF ∨ x = Py.CR →
  (Py.upper_c c = x → c = x) ∧ (Py.lower_c c = x → c = x).
Proof. intros [->| ->]; por_caracter c; by split. Qed.

Lemma title_desde_salto x b s :
  x = Py.LF ∨ x = Py.CR → x ∈ Py.title_desde b s → x ∈ s.
Proof.
  intros Hx. revert b. induction s as [|c r IH]; intros b; simpl; [done|].
  rewrite !elem_of_cons. intros [Hc|Hr]; [left|right; eauto].
  symmetry in Hc. destruct (salto_fijo x c Hx) as [Hu Hl].
  destruct b; symmetry; [by apply Hl|by apply Hu].
Qed.

Lemma int_no_salto c :
  caracter_de_int c = true → c ≠ Py.LF ∧ c ≠ Py.CR.
Proof. por_caracter c; by split. Qed.

Lemma float_no_salto c :
  caracter_de_float c = true → c ≠ Py.LF ∧ c ≠ Py.CR.
Proof. por_caracter c; by split. Qed.

Lemma traducir_saltos_sin_cr s : Py.CR ∉ s → Py.traducir_saltos s = s.
Proof.
  induction s as [|c r IH]; [done|]. rewrite not_elem_of_cons. intros [Hc Hr].
  simpl. destruct (Ascii.eqb_spec c Py.CR) as [->|_]; [done|]. by rewrite IH.
Qed.

Lemma cortar_lineas_una s :
  Py.LF ∉ s → Py.cortar_lineas (s ++ [Py.LF]) = [s ++ [Py.LF]].
Proof.
  induction s as [|c r IH]; [done|]. rewrite not_elem_of_cons. intros [Hc Hr].
  simpl. destruct (Ascii.eqb_spec c Py.LF) as [->|_]; [done|]. by rewrite IH.
Qed.

Lemma cuerpo_de_sin x p :
  x ∉ _nombre p → x ≠ SEPARADOR →
  (∀ c, caracter_de_int c = true → c ≠ x) →
  (∀ c, caracter_de_float c = true → c ≠ x) →
  x ∉ cuerpo_de p.
Proof.
  intros Hn Hsep Hint Hfl. unfold cuerpo_de.
  assert (∀ n, x ∉ Py.str_int n) as Hi.
  { intros n Hin. destruct (str_int_forma n) as [_ Hall].
    rewrite Forall_forall in Hall. by apply (Hint _ (Hall _ Hin)). }
  assert (x ∉ float_a_str (_precio p)) as Hf.
  { intros Hin. destruct (float_a_str_forma (_precio p)) as [_ Hall].
    rewrite Forall_forall in Hall. by apply (Hfl _ (Hall _ Hin)). }
  rewrite !elem_of_app, !list_elem_of_singleton.
  intros [?|[[?|[?|[?|[?|?]]]]|?]]; try done; by eapply Hi.
Qed.

Lemma readlines_linea_de p :
  Py.LF ∉ _nombre p → Py.CR ∉ _nombre p →
  Py.readlines (linea_de p) = [linea_de p].
Proof.
  intros Hlf Hcr. unfold Py.readlines. rewrite linea_de_cuerpo.
  rewrite traducir_saltos_sin_cr.
  - apply cortar_lineas_una. apply cuerpo_de_sin; [done|done|..];
      intros c Hc; [by apply int_no_salto|by apply float_no_salto].
  - rewrite elem_of_app, list_elem_of_singleton. intros [Hin|?]; [|done].
    revert Hin. apply cuerpo_de_sin; [done|done|..];
      intros c Hc; [by apply int_no_salto|by apply float_no_salto].
Qed.

(** C2, as amended.  For id > 0, quantity >= 0, a price that is not
    negative and an ASCII name without the separator, [Producto(...)]
    succeeds; the line written for that product, given to the loader
    of a store that lacks the id, appends one product whose id, name,
    quantity and price are those of the original; and when the name has
    no line break either, the file holding that line reads back as that
    one line.  (Beyond ASCII, [str.title] applied twice can differ from
    [str.title] applied once, so the name is kept within it.) *)
Theorem producto_ida_y_vuelta (w : Mundo) (id_producto : Z) (nombre : str)
    (cantidad : Z) (precio : float) :
  (0 < id_producto)%Z → (0 ≤ cantidad)%Z → float_negativo precio = false →
  es_ascii nombre → SEPARADOR ∉ nombre →
  let p := {| _id := id_producto; _nombre := Py.title (Py.strip nombre);
              _cantidad := cantidad; _precio := precio |} in
  (∃ l w', Producto_init id_producto nombre cantidad precio w = (Ret l, w') ∧
           objetos w' !! l = Some p) ∧
  (∀ num_linea n w2,
     _indice_por_id (inventario w2) !! id_producto = None →
     ∃ w3 l2,
       procesar_linea num_linea (linea_de p) n w2 = (Ret (S n), w3) ∧
       _productos (inventario w3) = _productos (inventario w2) ++ [l2] ∧
       _indice_por_id (inventario w3) !! id_producto = Some l2 ∧
       objetos w3 !! l2 = Some p) ∧
  (Py.LF ∉ nombre → Py.CR ∉ nombre → Py.readlines (linea_de p) = [linea_de p]).
Proof.
  intros Hid Hc Hx _ Hsep p. split; [|split].
  - rewrite Producto_init_valido by done. eexists _, _.
    split; [reflexivity|]. simpl. by rewrite lookup_app_r, Nat.sub_diag.
  - intros num_linea n w2 Hk. rewrite procesar_linea_spec.
    rewrite (leer_linea_de p);
      [|done|done|done|by apply nombre_normalizado_sin_separador
       |apply nombre_normalizado_estable].
    unfold tras_registro. simpl. rewrite Hk.
    eexists _, _. split; [reflexivity|]. simpl.
    split; [done|]. split; [by rewrite lookup_insert_eq|].
    by rewrite lookup_app_r, Nat.sub_diag.
  - intros Hlf Hcr. apply readlines_linea_de; simpl; intros Hin.
    + apply Hlf. apply (title_desde_salto Py.LF) in Hin; [|by left].
      by apply strip_con_elem in Hin.
    + apply Hcr. apply (title_desde_salto Py.CR) in Hin; [|by right].
      by apply strip_con_elem in Hin.
Qed.

(** C3.  In a world whose store is empty and whose file can be written
    and read, building [Producto(1, "widget", 5, 9.99)] and adding it
    returns [True] and leaves the file holding exactly the line
    [1|Widget|5|9.99].  Reloading from that file: [Inventario()], in
    any world that has this file, whatever its objects and the store it
    had, gives a store that counts one product, a new object, kept by
    the list and under the id 1 by the dictionary, whose id, name,
    quantity and price are those of the product added; the file is not
    written. *)
Theorem escenario_widget (objs : list Producto) (d : Disco) (c : list mensaje)
    (x : float) :
  float_a_str x = lit "9.99" → float_negativo x = false →
  falla_lectura d = None → falla_escritura d = None →
  let w0 := {| objetos := objs; inventario := inventario_vacio;
               disco := d; consola := c |} in
  let p := {| _id := 1; _nombre := lit "Widget"; _cantidad := 5; _precio := x |} in
  ∃ l w1 w2,
    Producto_init 1 (lit "widget") 5 x w0 = (Ret l, w1) ∧
    agregar_producto l w1 = (Ret true, w2) ∧
    contenido (disco w2) = Some (lit "1|Widget|5|9.99" ++ [Py.LF]) ∧
    _productos (inventario w2) = [l] ∧
    objetos w2 !! l = Some p ∧
    ∀ w, disco w = disco w2 →
      ∃ w3, Inventario_init w = (Ret tt, w3) ∧
            (contar_productos w3).1 = Ret 1 ∧
            _productos (inventario w3) = [length (objetos w)] ∧
            _indice_por_id (inventario w3) = {[ 1%Z := length (objetos w) ]} ∧
            objetos w3 = objetos w ++ [p] ∧
            disco w3 = disco w2.
Proof.
  intros Hrepr Hneg Hfl Hfe w0 p.
  set (texto := lit "1|Widget|5|9.99" ++ [Py.LF]).
  assert (float_de_str (lit "9.99") = Some x) as Hx
    by (rewrite <- Hrepr; apply float_ida_y_vuelta).
  assert (linea_de p = texto) as Hlinea
    by (unfold linea_de, p; simpl; by rewrite Hrepr).
  set (w1 := {| objetos := objs ++ [p]; inventario := inventario_vacio;
                disco := d; consola := c |}).
  set (w2 := {| objetos := objs ++ [p];
                inventario := {| _productos := [length objs];
                                 _indice_por_id := {[ 1%Z := length objs ]} |};
                disco := {| contenido := Some texto;
                            falla_lectura := None; falla_escritura := None |};
                consola := c ++ [MsgAgregado (lit "Widget") 1] |}).
  assert (objetos w1 !! length objs = Some p) as Hp
    by (simpl; by rewrite lookup_app_r, Nat.sub_diag).
  assert (agregar_producto (length objs) w1 = (Ret true, w2)) as Hadd.
  { rewrite (agregar_producto_nuevo w1 _ p Hp); [|done|constructor].
    f_equal. unfold tras_guardar, disco_tras_guardar, consola_tras_guardar,
      volcado, w2. simpl. rewrite Hfe, Hfl. simpl.
    rewrite lookup_app_r, Nat.sub_diag by done. simpl.
    by rewrite Hrepr. }
  exists (length objs), w1, w2.
  split; [by apply Producto_init_valido|]. split; [done|]. split; [done|].
  split; [done|]. split; [done|].
  intros w Hd.
  exists {| objetos := objetos w ++ [p];
            inventario := {| _productos := [length (objetos w)];
                             _indice_por_id := {[ 1%Z := length (objetos w) ]} |};
            disco := disco w2;
            consola := consola w ++ [MsgCargados 1] |}.
  split; [|done].
  rewrite (Inventario_init_leido w texto) by (by rewrite Hd).
  assert (Py.readlines texto = [texto]) as -> by reflexivity.
  rewrite procesar_lineas_cons, procesar_linea_spec.
  rewrite (leer_linea_partes _ "1"%char (lit "|Widget|5|9.99")
             (lit "1") (lit "Widget") (lit "5") (lit "9.99") 1%Z 5%Z x)
    by (done || reflexivity).
  assert (validar 1 (lit "Widget") 5 x = Registro p) as ->
    by (unfold validar; rewrite Hneg; reflexivity).
  cbv beta iota. unfold tras_registro. simpl. rewrite !lookup_empty. simpl.
  by rewrite Hd.
Qed.

End Propiedades.

(* ------------------------------------------------------------------ *)
(** ** What every session keeps *)
(* ------------------------------------------------------------------ *)

Section Mas.
Context `{PF : PyFloat}.

(* [set_solver] clears hypotheses it may not have introduced. *)
#[local] Set Warnings "-clear-no-such-hyp".

Ltac desplegar :=
  unfold append_producto, indexar, get_id, get_nombre, get_cantidad,
    get_precio, int_, float_, de_opcion;
  unfold bind, ret, raise, try_, print, self, asignar_self, objeto,
    asignar_objeto, nuevo_objeto, write, abrir_escritura;
  unfold con_contenido, con_objetos, con_inventario, con_disco, con_consola.

(** How one operation can change the heap: not at all, by one new valid
    object, or by a new quantity or price, not negative, in one object. *)
Lemma ejecutar_objetos w o :
  coherente w →
  objetos (ejecutar w o) = objetos w
  ∨ (∃ i n c x, o = OpProducto i n c x ∧
       (0 < i)%Z ∧ (0 ≤ c)%Z ∧ float_negativo x = false ∧
       objetos (ejecutar w o)
       = objetos w ++ [{| _id := i; _nombre := Py.title (Py.strip n);
                          _cantidad := c; _precio := x |}])
  ∨ (∃ l p c, objetos w !! l = Some p ∧ (0 ≤ c)%Z ∧
       objetos (ejecutar w o)
       = <[l := {| _id := _id p; _nombre := _nombre p;
                   _cantidad := c; _precio := _precio p |}]> (objetos w))
  ∨ (∃ l p x, objetos w !! l = Some p ∧ float_negativo x = false ∧
       objetos (ejecutar w o)
       = <[l := {| _id := _id p; _nombre := _nombre p;
                   _cantidad := _cantidad p; _precio := x |}]> (objetos w)).
Proof.
  intros Hc. pose proof (coherente_vivos w Hc) as Hv.
  destruct o as [i n c x|l c|l x|l|i|i c|i x|t| |d]; simpl.
  - unfold Producto_init.
    destruct (Z.leb_spec i 0); [by left|].
    destruct (Z.ltb_spec c 0); [by left|].
    destruct (float_negativo x) eqn:Hx; [by left|].
    right; left. by exists i, n, c, x.
  - unfold set_cantidad. desplegar.
    destruct (objetos w !! l) as [p|] eqn:Hp; simpl; [|by left].
    destruct (Z.ltb_spec c 0); simpl; [by left|].
    right; right; left. by exists l, p, c.
  - unfold set_precio. desplegar.
    destruct (objetos w !! l) as [p|] eqn:Hp; simpl; [|by left].
    destruct (float_negativo x) eqn:Hx; simpl; [by left|].
    right; right; right. by exists l, p, x.
  - left. destruct (objetos w !! l) as [p|] eqn:Hp.
    + destruct (_indice_por_id (inventario w) !! _id p) as [l'|] eqn:Hk.
      * by rewrite (agregar_producto_existente w l p).
      * by rewrite (agregar_producto_nuevo w l p).
    + by rewrite agregar_producto_no_es_producto.
  - left. destruct (_indice_por_id (inventario w) !! i) as [l|] eqn:Hk.
    + by destruct (eliminar_producto_presente w i l Hc Hk)
        as (quedan & p & Hrem & Hp & Hid & ->).
    + by rewrite eliminar_producto_ausente.
  - destruct (_indice_por_id (inventario w) !! i) as [l|] eqn:Hk.
    + destruct (coherente_indice w i l Hc Hk) as (_ & p & Hp & _).
      destruct (Z.ltb_spec c 0).
      * left. by rewrite (actualizar_cantidad_negativa w i c l p).
      * right; right; left. exists l, p, c.
        by rewrite (actualizar_cantidad_valida w i c l p).
    + left. by rewrite actualizar_cantidad_ausente.
  - destruct (_indice_por_id (inventario w) !! i) as [l|] eqn:Hk.
    + destruct (coherente_indice w i l Hc Hk) as (_ & p & Hp & _).
      destruct (float_negativo x) eqn:Hx.
      * left. by rewrite (actualizar_precio_negativo w i x l p).
      * right; right; right. exists l, p, x.
        by rewrite (actualizar_precio_valido w i x l p).
    + left. by rewrite actualizar_precio_ausente.
  - left. by rewrite buscar_por_nombre_mundo.
  - by left.
  - by left.
Qed.

Lemma validar_valido i n c x p :
  validar i n c x = Registro p → producto_valido p.
Proof.
  unfold validar.
  destruct (Z.leb_spec i 0); [done|].
  destruct (Z.ltb_spec c 0); [done|].
  destruct (float_negativo x) eqn:Hx; [done|].
  intros [= <-]. repeat split; simpl; try done.
  apply nombre_normalizado_estable.
Qed.

Lemma leer_linea_valido linea p :
  leer_linea linea = Registro p → producto_valido p.
Proof.
  unfold leer_linea. destruct (Py.strip linea) as [|c0 r0]; [done|].
  destruct (Py.split SEPARADOR (c0 :: r0)) as [|a [|b [|c [|d [|? ?]]]]]; try done.
  destruct (Py.int a); [|done]. destruct (Py.int c); [|done].
  destruct (float_de_str d); [|done]. apply validar_valido.
Qed.


(** [_crear_archivo_vacio], case by case. *)
Lemma crear_archivo_vacio_eq w :
  _crear_archivo_vacio w
  = (Ret tt,
     match falla_escritura (disco w) with
     | Some (AlAbrir EPermiso) =>
         con_consola (consola w ++ [MsgSinPermisosCrear]) w
     | Some (AlAbrir e) =>
         con_consola (consola w ++ [MsgNoSePudoCrear (exn_de e)]) w
     | fe =>
         {| objetos := objetos w; inventario := inventario w;
            disco := {| contenido := Some []; falla_lectura := falla_lectura (disco w);
                        falla_escritura := fe |};
            consola := consola w ++ [MsgArchivoCreado] |}
     end).
Proof.
  unfold _crear_archivo_vacio. desplegar.
  by destruct (falla_escritura (disco w)) as [[[]|?]|] eqn:Hf.
Qed.

(** [Inventario()] when the file cannot be read: the file is missing,
    and the store goes on to create it, or opening it fails. *)
Lemma Inventario_init_no_leido w :
  (falla_lectura (disco w) = None → contenido (disco w) = None →
   Inventario_init w
   = _crear_archivo_vacio
       {| objetos := objetos w; inventario := inventario_vacio; disco := disco w;
          consola := consola w ++ [MsgArchivoNoEncontrado] |}) ∧
  (falla_lectura (disco w) = Some ENoEncontrado →
   Inventario_init w
   = _crear_archivo_vacio
       {| objetos := objetos w; inventario := inventario_vacio; disco := disco w;
          consola := consola w ++ [MsgArchivoNoEncontrado] |}) ∧
  (falla_lectura (disco w) = Some EPermiso →
   Inventario_init w
   = (Ret tt, {| objetos := objetos w; inventario := inventario_vacio;
                 disco := disco w;
                 consola := consola w ++ [MsgSinPermisosLectura] |})) ∧
  (falla_lectura (disco w) = Some EOtro →
   Inventario_init w
   = (Ret tt, {| objetos := objetos w; inventario := inventario_vacio;
                 disco := disco w;
                 consola := consola w ++ [MsgNoSePudoLeer OSError] |})).
Proof.
  destruct w as [objs inv d c]. simpl.
  split; [|split; [|split]]; intros Hf; try intros Hs;
    unfold Inventario_init, _cargar_desde_archivo, leer_lineas;
    unfold bind at 1, asignar_self; unfold bind at 1, try_ at 1, bind at 1;
    simpl; rewrite Hf, ?Hs; simpl; try reflexivity;
    unfold bind, print, ret; simpl; rewrite !crear_archivo_vacio_eq; simpl;
    by destruct (falla_escritura d) as [[[]|?]|].
Qed.








(** X3.  [Inventario()] when the file cannot be read.  If it is missing
    the store starts empty, and an empty file is created when the file
    can be opened for writing ([INFO] lines for both); when it cannot,
    the file is left as it was and an [ERROR] line follows the [INFO]
    line.  If opening the file fails for another reason, the store
    starts empty, one [ERROR] line is printed, and the file is not
    touched.  In no case is anything raised or any object created. *)
Theorem Inventario_init_sin_lectura (w : Mundo) :
  (no_existe (disco w) = true →
   ∃ w', Inventario_init w = (Ret tt, w') ∧
         inventario w' = inventario_vacio ∧ objetos w' = objetos w ∧
         match falla_escritura (disco w) with
         | Some (AlAbrir e) =>
             disco w' = disco w ∧
             ∃ m, nivel_de m = ERROR ∧
                  consola w' = consola w ++ [MsgArchivoNoEncontrado; m]
         | _ =>
             contenido (disco w') = Some [] ∧
             consola w' = consola w ++ [MsgArchivoNoEncontrado; MsgArchivoCreado]
         end) ∧
  (∀ e, falla_lectura (disco w) = Some e → e ≠ ENoEncontrado →
   ∃ w' m, Inventario_init w = (Ret tt, w') ∧
           inventario w' = inventario_vacio ∧ objetos w' = objetos w ∧
           disco w' = disco w ∧
           nivel_de m = ERROR ∧ consola w' = consola w ++ [m]).
Proof.
  destruct (Inventario_init_no_leido w) as (H1 & H2 & H3 & H4).
  split.
  - unfold no_existe. intros Hn.
    assert (Inventario_init w
            = _crear_archivo_vacio
                {| objetos := objetos w; inventario := inventario_vacio;
                   disco := disco w;
                   consola := consola w ++ [MsgArchivoNoEncontrado] |}) as ->.
    { destruct (falla_lectura (disco w)) as [[]|]; try done; [by apply H2|].
      destruct (contenido (disco w)); [done|by apply H1]. }
    rewrite crear_archivo_vacio_eq. simpl.
    eexists. split; [done|].
    destruct (falla_escritura (disco w)) as [[[]|?]|]; simpl;
      rewrite <- ?app_assoc; simpl; (split; [done|]); (split; [done|]);
      split; try done.
    + by exists (MsgNoSePudoCrear FileNotFoundError).
    + by exists MsgSinPermisosCrear.
    + by exists (MsgNoSePudoCrear OSError).
  - intros [] Hf Hne; [done| |].
    + rewrite H3 by done. by eexists _, MsgSinPermisosLectura.
    + rewrite H4 by done. by eexists _, (MsgNoSePudoLeer OSError).
Qed.




(* ------------------------------------------------------------------ *)
(** ** What loading makes of a file *)
(* ------------------------------------------------------------------ *)

Lemma no_blanca_leer linea :
  no_blanca linea = match leer_linea linea with Blanco => false | _ => true end.
Proof.
  unfold no_blanca, leer_linea. destruct (Py.strip linea) as [|c0 r0]; [done|].
  destruct (Py.split SEPARADOR (c0 :: r0)) as [|a [|b [|c [|d [|? ?]]]]]; try done.
  destruct (Py.int a); [|done]. destruct (Py.int c); [|done].
  destruct (float_de_str d); [|done]. unfold validar.
  by repeat case_match.
Qed.

Lemma omap_registro_cons linea resto :
  omap registro_de (linea :: resto)
  = match registro_de linea with
    | Some p => p :: omap registro_de resto
    | None => omap registro_de resto
    end.
Proof. done. Qed.

Lemma registros_tras_registro num_linea p w :
  vivos w →
  vivos (tras_registro num_linea p w) ∧
  registros (tras_registro num_linea p w)
  = registros w
    ++ (if decide (_id p ∈ (@dom _ (gset Z) _ (_indice_por_id (inventario w))))
        then [] else [Some p]) ∧
  (@dom _ (gset Z) _ (_indice_por_id (inventario (tras_registro num_linea p w))))
  = {[ _id p ]} ∪ dom (_indice_por_id (inventario w)).
Proof.
  intros Hv. unfold vivos, registros, tras_registro in *.
  assert (∀ l, l ∈ _productos (inventario w) →
               (objetos w ++ [p]) !! l = objetos w !! l) as Hl.
  { intros l Hin. destruct (proj1 (Forall_forall _ _) Hv l Hin) as [q Hq].
    by rewrite (lookup_app_l_Some _ _ _ _ Hq). }
  destruct (_indice_por_id (inventario w) !! _id p) as [l'|] eqn:Hk; simpl.
  - assert (_id p ∈ (@dom _ (gset Z) _ (_indice_por_id (inventario w)))) as Hd
      by (apply elem_of_dom; eauto).
    rewrite decide_True by done. rewrite app_nil_r.
    split; [|split].
    + apply Forall_forall. intros l Hin. rewrite Hl by done.
      by apply (proj1 (Forall_forall _ _) Hv).
    + apply map_ext_in. intros l Hin. apply Hl. by apply list_elem_of_In.
    + set_solver.
  - assert (_id p ∉ (@dom _ (gset Z) _ (_indice_por_id (inventario w)))) as Hd
      by (by apply not_elem_of_dom).
    rewrite decide_False by done.
    split; [|split].
    + apply Forall_app. split.
      * apply Forall_forall. intros l Hin. rewrite Hl by done.
        by apply (proj1 (Forall_forall _ _) Hv).
      * constructor; [|done]. exists p.
        by rewrite lookup_app_r, Nat.sub_diag.
    + rewrite map_app. simpl. f_equal.
      * apply map_ext_in. intros l Hin. apply Hl. by apply list_elem_of_In.
      * by rewrite lookup_app_r, Nat.sub_diag.
    + by rewrite dom_insert_L.
Qed.

(** The loop of [_cargar_desde_archivo] over [lineas]: the store gains
    the first record of each id not yet taken, the counter counts them,
    every other line that is not blank gives one warning, and the file
    is not touched. *)
Lemma procesar_lineas_carga lineas : ∀ num_linea n w,
  vivos w →
  ∃ w' avisos,
    procesar_lineas num_linea lineas n w
    = (Ret (n + length (primeros (dom (_indice_por_id (inventario w)))
                                 (omap registro_de lineas))), w') ∧
    vivos w' ∧
    registros w'
    = registros w ++ map Some (primeros (dom (_indice_por_id (inventario w)))
                                        (omap registro_de lineas)) ∧
    (@dom _ (gset Z) _ (_indice_por_id (inventario w')))
    = list_to_set (map _id (omap registro_de lineas))
      ∪ dom (_indice_por_id (inventario w)) ∧
    disco w' = disco w ∧
    consola w' = consola w ++ avisos ∧
    Forall (λ m, nivel_de m = ADVERTENCIA) avisos ∧
    length avisos + length (primeros (dom (_indice_por_id (inventario w)))
                                     (omap registro_de lineas))
    = length (List.filter no_blanca lineas) ∧
    objetos w' = objetos w ++ omap registro_de lineas.
Proof.
  induction lineas as [|linea resto IH]; intros num_linea n w Hv.
  - exists w, []. simpl. rewrite Nat.add_0_r, !app_nil_r.
    repeat split; try done. set_solver.
  - rewrite procesar_lineas_cons, procesar_linea_spec.
    rewrite !omap_registro_cons. cbn [List.filter].
    rewrite no_blanca_leer.
    assert (registro_de linea
            = match leer_linea linea with Registro p => Some p | _ => None end)
      as -> by done.
    destruct (leer_linea linea) as [|s|e|p] eqn:Hl.
    + apply IH, Hv.
    + destruct (IH (S num_linea) n
        (con_consola (consola w ++ [MsgFormatoIncorrecto num_linea s]) w) Hv)
        as (w' & avisos & Hp & Hv' & Hr & Hd & Hdi & Hco & Hav & Hn & Ho).
      exists w', (MsgFormatoIncorrecto num_linea s :: avisos).
      simpl in *. rewrite Hp, Hco, <- app_assoc.
      repeat split; try done; [by constructor|lia].
    + destruct (IH (S num_linea) n
        (con_consola (consola w ++ [MsgDatosInvalidos num_linea e]) w) Hv)
        as (w' & avisos & Hp & Hv' & Hr & Hd & Hdi & Hco & Hav & Hn & Ho).
      exists w', (MsgDatosInvalidos num_linea e :: avisos).
      simpl in *. rewrite Hp, Hco, <- app_assoc.
      repeat split; try done; [by constructor|lia].
    + destruct (registros_tras_registro num_linea p w Hv) as (Hv1 & Hr1 & Hd1).
      assert (disco (tras_registro num_linea p w) = disco w
              ∧ objetos (tras_registro num_linea p w) = objetos w ++ [p])
        as [Hdi1 Ho1].
      { unfold tras_registro.
        by destruct (_indice_por_id (inventario w) !! _id p). }
      cbn [primeros].
      destruct (_indice_por_id (inventario w) !! _id p) as [l'|] eqn:Hk.
      * assert (_id p ∈ (@dom _ (gset Z) _ (_indice_por_id (inventario w)))) as Hin
          by (apply elem_of_dom; eauto).
        rewrite decide_True in Hr1 by done. rewrite decide_True by done.
        assert (({[ _id p ]} ∪ @dom _ (gset Z) _ (_indice_por_id (inventario w)))
                = dom (_indice_por_id (inventario w))) as Heq by set_solver.
        rewrite Heq in Hd1.
        destruct (IH (S num_linea) n (tras_registro num_linea p w) Hv1)
          as (w' & avisos & Hp & Hv' & Hr & Hd & Hdi & Hco & Hav & Hn & Ho).
        rewrite Hr1, app_nil_r in Hr. rewrite Hd1 in Hp, Hr, Hd, Hn.
        exists w', (MsgIdDuplicado num_linea (_id p) :: avisos).
        split; [exact Hp|]. split; [done|]. split; [exact Hr|].
        split; [rewrite Hd; set_solver|]. split; [congruence|].
        split; [|split; [|split]].
        -- rewrite Hco. unfold tras_registro. rewrite Hk. simpl.
           by rewrite <- app_assoc.
        -- by constructor.
        -- simpl. lia.
        -- by rewrite Ho, Ho1, <- app_assoc.
      * assert (_id p ∉ (@dom _ (gset Z) _ (_indice_por_id (inventario w)))) as Hnin
          by (by apply not_elem_of_dom).
        rewrite decide_False in Hr1 by done. rewrite decide_False by done.
        destruct (IH (S num_linea) (S n) (tras_registro num_linea p w) Hv1)
          as (w' & avisos & Hp & Hv' & Hr & Hd & Hdi & Hco & Hav & Hn & Ho).
        rewrite Hr1 in Hr. rewrite Hd1 in Hp, Hr, Hd, Hn.
        exists w', avisos.
        split; [rewrite Hp; do 2 f_equal; simpl; lia|]. split; [done|].
        split; [by rewrite Hr, <- app_assoc|].
        split; [rewrite Hd; set_solver|]. split; [congruence|].
        split; [|split; [done|split; [simpl; lia|]]].
        -- rewrite Hco. unfold tras_registro. by rewrite Hk.
        -- by rewrite Ho, Ho1, <- app_assoc.
Qed.

(** [Inventario()] on a file that can be read. *)
Lemma Inventario_init_carga w s :
  falla_lectura (disco w) = None → contenido (disco w) = Some s →
  ∃ w' avisos,
    Inventario_init w = (Ret tt, w') ∧
    coherente w' ∧
    registros w' = map Some (primeros ∅ (omap registro_de (Py.readlines s))) ∧
    (@dom _ (gset Z) _ (_indice_por_id (inventario w')))
    = list_to_set (map _id (omap registro_de (Py.readlines s))) ∧
    disco w' = disco w ∧
    consola w'
    = consola w ++ avisos
      ++ [if (0 <? length (_productos (inventario w')))%nat
          then MsgCargados (length (_productos (inventario w')))
          else MsgSinProductosValidos] ∧
    Forall (λ m, nivel_de m = ADVERTENCIA) avisos ∧
    length avisos + length (_productos (inventario w'))
    = length (List.filter no_blanca (Py.readlines s)) ∧
    objetos w' = objetos w ++ omap registro_de (Py.readlines s).
Proof.
  intros Hf Hs.
  destruct (Inventario_init_inv w) as (w' & Hi & Hc & _).
  pose proof (Inventario_init_leido w s Hf Hs) as He.
  destruct (procesar_lineas_carga (Py.readlines s) 1 0
              (con_inventario inventario_vacio w))
    as (w1 & avisos & Hp & Hv1 & Hr & Hd & Hdi & Hco & Hav & Hn & Ho).
  { unfold vivos. simpl. constructor. }
  simpl in *. rewrite dom_empty_L in *. rewrite Hp in He.
  rewrite He in Hi. injection Hi as <-.
  assert (length (_productos (inventario w1))
          = length (primeros ∅ (omap registro_de (Py.readlines s)))) as Hlen.
  { transitivity (length (registros w1)).
    - unfold registros. by rewrite length_map.
    - by rewrite Hr, length_map. }
  exists (con_consola
            (consola w1 ++ [if (0 <? length (primeros ∅
                                       (omap registro_de (Py.readlines s))))%nat
                            then MsgCargados
                                   (length (primeros ∅
                                      (omap registro_de (Py.readlines s))))
                            else MsgSinProductosValidos]) w1), avisos.
  simpl. rewrite Hlen.
  split; [done|]. split; [done|]. split; [done|].
  split; [by rewrite Hd, union_empty_r_L|]. split; [done|].
  split; [by rewrite Hco, <- app_assoc|]. done.
Qed.

(** X5.  What [Inventario()] loads from a readable file is read off
    the file alone: the store holds, in the order of the file, the
    records of its lines, each id once, the first record with an id
    being the one kept; the dictionary has exactly the ids of the
    records; and [contar_productos] counts them.  What the store held
    before does not matter.  Every record, kept or not, is one new
    object of the heap. *)
Theorem carga_primer_registro (w : Mundo) (s : str) :
  falla_lectura (disco w) = None → contenido (disco w) = Some s →
  ∃ w', Inventario_init w = (Ret tt, w') ∧
        registros w' = map Some (primeros ∅ (omap registro_de (Py.readlines s))) ∧
        (∀ k, is_Some (_indice_por_id (inventario w') !! k)
              ↔ k ∈ map _id (omap registro_de (Py.readlines s))) ∧
        (contar_productos w').1
        = Ret (length (primeros ∅ (omap registro_de (Py.readlines s)))) ∧
        objetos w' = objetos w ++ omap registro_de (Py.readlines s).
Proof.
  intros Hf Hs.
  destruct (Inventario_init_carga w s Hf Hs)
    as (w' & avisos & Hi & Hc & Hr & Hd & _ & _ & _ & _ & Ho).
  exists w'. split; [done|]. split; [done|]. split; [|split; [|done]].
  - intros k. rewrite <- elem_of_dom, Hd. set_solver.
  - rewrite contar_productos_eq. simpl. f_equal.
    transitivity (length (registros w')).
    + unfold registros. by rewrite length_map.
    + by rewrite Hr, length_map.
Qed.

(** X6.  Loading accounts for every line: the lines of the file that
    are not blank are as many as the products loaded and the
    [ADVERTENCIA] lines printed, taken together; after the warnings the
    console ends with one line that announces the number of products
    now in the store, or that there is none; and the file is left as it
    was. *)
Theorem carga_cuenta_cada_linea (w : Mundo) (s : str) :
  falla_lectura (disco w) = None → contenido (disco w) = Some s →
  ∃ w' avisos,
    Inventario_init w = (Ret tt, w') ∧
    consola w'
    = consola w ++ avisos
      ++ [if (0 <? length (_productos (inventario w')))%nat
          then MsgCargados (length (_productos (inventario w')))
          else MsgSinProductosValidos] ∧
    Forall (λ m, nivel_de m = ADVERTENCIA) avisos ∧
    length avisos + length (_productos (inventario w'))
    = length (List.filter no_blanca (Py.readlines s)) ∧
    disco w' = disco w.
Proof.
  intros Hf Hs.
  destruct (Inventario_init_carga w s Hf Hs)
    as (w' & avisos & Hi & Hc & Hr & Hd & Hdi & Hco & Hav & Hn & Ho).
  by exists w', avisos.
Qed.


(* ------------------------------------------------------------------ *)
(** ** Saving and loading the whole store *)
(* ------------------------------------------------------------------ *)

Lemma elem_of_map {A B} (f : A → B) (l : list A) (y : B) :
  y ∈ map f l ↔ ∃ x, y = f x ∧ x ∈ l.
Proof.
  rewrite list_elem_of_In, in_map_iff. split.
  - intros (x & <- & Hx). exists x. by rewrite list_elem_of_In.
  - intros (x & -> & Hx). exists x. by rewrite <- list_elem_of_In.
Qed.

Lemma cuerpo_de_sin_salto x p :
  x = Py.LF ∨ x = Py.CR → x ∉ _nombre p → x ∉ cuerpo_de p.
Proof.
  intros Hx Hn. apply cuerpo_de_sin; [done|by destruct Hx as [->| ->]|..];
    intros c Hc.
  - destruct (int_no_salto c Hc). by destruct Hx as [->| ->].
  - destruct (float_no_salto c Hc). by destruct Hx as [->| ->].
Qed.

Lemma cortar_lineas_app s r :
  Py.LF ∉ s →
  Py.cortar_lineas ((s ++ [Py.LF]) ++ r) = (s ++ [Py.LF]) :: Py.cortar_lineas r.
Proof.
  induction s as [|c s IH]; [done|]. rewrite not_elem_of_cons. intros [Hc Hs].
  simpl. destruct (Ascii.eqb_spec c Py.LF) as [->|_]; [done|]. by rewrite IH.
Qed.

Lemma volcado_sin_cr ps :
  Forall (λ p, Py.CR ∉ _nombre p) ps → Py.CR ∉ flat_map linea_de ps.
Proof.
  induction 1 as [|p ps Hp _ IH]; simpl; [by apply not_elem_of_nil|].
  rewrite linea_de_cuerpo, !elem_of_app, list_elem_of_singleton.
  intros [[Hin|?]|?]; [|done|done].
  revert Hin. apply cuerpo_de_sin_salto; [by right|done].
Qed.

Lemma cortar_lineas_volcado ps :
  Forall (λ p, Py.LF ∉ _nombre p) ps →
  Py.cortar_lineas (flat_map linea_de ps) = map linea_de ps.
Proof.
  induction 1 as [|p ps Hp _ IH]; simpl; [done|].
  rewrite linea_de_cuerpo, cortar_lineas_app, IH; [done|].
  apply cuerpo_de_sin_salto; [by left|done].
Qed.

(** The file written for [ps] reads back as the lines written. *)
Lemma readlines_volcado ps :
  Forall guardable ps → Py.readlines (flat_map linea_de ps) = map linea_de ps.
Proof.
  intros Hg. unfold Py.readlines. rewrite traducir_saltos_sin_cr.
  - apply cortar_lineas_volcado. eapply Forall_impl; [done|].
    by intros p (_ & _ & ? & _).
  - apply volcado_sin_cr. eapply Forall_impl; [done|].
    by intros p (_ & _ & _ & ?).
Qed.

Lemma registro_de_linea_de p : guardable p → registro_de (linea_de p) = Some p.
Proof.
  intros ((? & ? & ? & ?) & ? & _). unfold registro_de.
  by rewrite leer_linea_de.
Qed.

Lemma omap_registro_linea_de ps :
  Forall guardable ps → omap registro_de (map linea_de ps) = ps.
Proof.
  induction 1 as [|p ps Hp _ IH]; [done|].
  cbn [map]. by rewrite omap_registro_cons, registro_de_linea_de, IH.
Qed.

Lemma primeros_sin_repetir ps : ∀ vistos,
  (∀ p, p ∈ ps → _id p ∉ vistos) → NoDup (map _id ps) →
  primeros vistos ps = ps.
Proof.
  induction ps as [|p ps IH]; intros vistos Hv Hn; [done|].
  apply NoDup_cons in Hn as [Hp Hn]. simpl.
  rewrite decide_False by (apply Hv; left). f_equal.
  apply IH; [|done]. intros q Hq.
  rewrite elem_of_union, elem_of_singleton. intros [Heq|Hin].
  - apply Hp. apply elem_of_map. by exists q.
  - by apply (Hv q); [right|].
Qed.

Lemma primeros_elem ps : ∀ vistos p, p ∈ primeros vistos ps → p ∈ ps.
Proof.
  induction ps as [|q ps IH]; intros vistos p; simpl; [done|].
  destruct (decide (_id q ∈ vistos)).
  - intros Hp. right. by eapply IH.
  - rewrite !elem_of_cons. intros [->|Hp]; [by left|right; by eapply IH].
Qed.

(** In a coherent store the ids of the list are distinct, and they are
    the keys of the dictionary. *)
Lemma coherente_ids w ps :
  coherente w → registros w = map Some ps →
  NoDup (map _id ps) ∧
  @dom _ (gset Z) _ (_indice_por_id (inventario w)) = list_to_set (map _id ps).
Proof.
  intros (Hnd & Hl & Hi) Hr. unfold registros in Hr.
  rewrite Forall_forall in Hl.
  assert (∀ p, p ∈ ps ↔ ∃ l, l ∈ _productos (inventario w)
                              ∧ objetos w !! l = Some p) as Hps.
  { intros p. split.
    - intros Hp.
      assert (Some p ∈ map Some ps) as Hin by (apply elem_of_map; by exists p).
      rewrite <- Hr in Hin. apply elem_of_map in Hin as (l & ? & ?).
      by exists l.
    - intros (l & Hin & Hp).
      assert (Some p ∈ map (λ l, objetos w !! l) (_productos (inventario w)))
        as Hin' by (apply elem_of_map; by exists l).
      rewrite Hr in Hin'. by apply elem_of_map in Hin' as (q & [= <-] & ?). }
  split.
  - clear Hps Hi. revert ps Hr.
    induction Hnd as [|l ls Hnl Hnd IH]; intros [|p ps] Hr; try done;
      [constructor|].
    injection Hr as Hp Hr. simpl. apply NoDup_cons. split.
    + intros Hin. apply elem_of_map in Hin as (q & Hid & Hq).
      assert (Some q ∈ map Some ps) as Hq' by (apply elem_of_map; by exists q).
      rewrite <- Hr in Hq'. apply elem_of_map in Hq' as (l2 & Hq' & Hl2).
      pose proof (Hl l (list_elem_of_here _ _)) as H1.
      pose proof (Hl l2 (list_elem_of_further _ _ _ Hl2)) as H2.
      unfold en_lista_ok in H1, H2. rewrite Hp in H1. rewrite <- Hq' in H2.
      rewrite Hid, H2 in H1. by injection H1 as ->.
    + apply IH; [|done]. intros l2 Hl2. apply Hl. by right.
  - apply set_eq. intros k. rewrite elem_of_dom, elem_of_list_to_set.
    split.
    + intros [l Hk]. destruct (Hi k l Hk) as [Hin Hp]. simpl in *.
      destruct (objetos w !! l) as [p|] eqn:Hpl; [|done]. subst k.
      apply elem_of_map. exists p. split; [done|]. apply Hps. by exists l.
    + intros Hin. apply elem_of_map in Hin as (p & -> & Hp).
      apply Hps in Hp as (l & Hin & Hp).
      specialize (Hl l Hin). unfold en_lista_ok in Hl. rewrite Hp in Hl.
      by exists l.
Qed.

(** Loading the file written for the products [ps], when they can be
    saved and their ids are distinct. *)
Lemma cargar_volcado w ps :
  falla_lectura (disco w) = None →
  contenido (disco w) = Some (flat_map linea_de ps) →
  Forall guardable ps → NoDup (map _id ps) →
  ∃ w', Inventario_init w = (Ret tt, w') ∧
        coherente w' ∧
        registros w' = map Some ps ∧
        @dom _ (gset Z) _ (_indice_por_id (inventario w'))
        = list_to_set (map _id ps) ∧
        objetos w' = objetos w ++ ps ∧
        disco w' = disco w.
Proof.
  intros Hf Hs Hg Hn.
  destruct (Inventario_init_carga w _ Hf Hs)
    as (w' & avisos & Hi & Hc & Hr & Hd & Hdi & _ & _ & _ & Ho).
  rewrite readlines_volcado, omap_registro_linea_de in Hr, Hd, Ho by done.
  rewrite primeros_sin_repetir in Hr; [|set_solver|done].
  by exists w'.
Qed.

Lemma volcado_registros objs ls : ∀ ps,
  map (λ l, objs !! l) ls = map Some ps → volcado objs ls = flat_map linea_de ps.
Proof.
  unfold volcado. induction ls as [|l ls IH]; intros [|p ps] Hr; try done.
  injection Hr as Hp Hr. simpl. rewrite Hp. simpl. f_equal. by apply IH.
Qed.



Lemma traducir_saltos_no_cr s : Py.CR ∉ Py.traducir_saltos s.
Proof.
  assert (∀ n s, length s ≤ n → Py.CR ∉ Py.traducir_saltos s) as H;
    [|by eapply H].
  clear s. induction n as [|n IH]; intros [|c r] Hlen;
    try apply not_elem_of_nil; [simpl in Hlen; lia|].
  cbn [Py.traducir_saltos]. simpl in Hlen.
  destruct (Ascii.eqb_spec c Py.CR) as [->|Hc].
  - destruct r as [|c2 r2].
    + apply not_elem_of_cons. split; [done|apply not_elem_of_nil].
    + destruct (Ascii.eqb c2 Py.LF); apply not_elem_of_cons;
        (split; [done|]); apply IH; simpl in *; lia.
  - apply not_elem_of_cons. split; [done|]. apply IH. lia.
Qed.

(** A line of [cortar_lineas] is a run without LF, with or without an
    LF after it. *)
Lemma cortar_lineas_forma t : ∀ linea,
  linea ∈ Py.cortar_lineas t →
  ∃ cuerpo, (Py.LF ∉ cuerpo) ∧ (linea = cuerpo ++ [Py.LF] ∨ linea = cuerpo) ∧
            ∀ c, c ∈ cuerpo → c ∈ t.
Proof.
  induction t as [|c r IH]; intros linea; simpl;
    [by intros ?%not_elem_of_nil|].
  destruct (Ascii.eqb_spec c Py.LF) as [->|Hc].
  - rewrite elem_of_cons. intros [->|Hin].
    + exists []. split; [apply not_elem_of_nil|]. split; [by left|].
      by intros ? ?%not_elem_of_nil.
    + destruct (IH _ Hin) as (cu & ? & ? & Hsub). exists cu.
      split; [done|]. split; [done|]. intros x Hx. right. by apply Hsub.
  - destruct (Py.cortar_lineas r) as [|l ls] eqn:Hcl.
    + intros ->%list_elem_of_singleton. exists [c].
      split; [|split; [by right|]].
      * apply not_elem_of_cons. split; [done|apply not_elem_of_nil].
      * intros x ->%list_elem_of_singleton. by left.
    + rewrite elem_of_cons. intros [->|Hin].
      * destruct (IH l) as (cu & Hlf & Hform & Hsub); [by left|].
        exists (c :: cu). split; [|split].
        -- apply not_elem_of_cons. split; [done|done].
        -- destruct Hform as [->| ->]; [by left|by right].
        -- intros x. rewrite !elem_of_cons. intros [->|Hx]; [by left|].
           right. by apply Hsub.
      * destruct (IH linea) as (cu & Hlf & Hform & Hsub); [by right|].
        exists cu. split; [done|]. split; [done|].
        intros x Hx. right. by apply Hsub.
Qed.

Lemma lstrip_con_app_blanco esp s c :
  esp c = true →
  Py.lstrip_con esp (s ++ [c])
  = match Py.lstrip_con esp s with
    | [] => []
    | _ :: _ => Py.lstrip_con esp s ++ [c]
    end.
Proof.
  intros Hc. induction s as [|a s IH]; simpl; [by rewrite Hc|].
  by destruct (esp a).
Qed.

(** A blank at the end does not change what [strip] returns. *)
Lemma strip_con_app_blanco esp s c :
  esp c = true → Py.strip_con esp (s ++ [c]) = Py.strip_con esp s.
Proof.
  intros Hc. unfold Py.strip_con. rewrite lstrip_con_app_blanco by done.
  destruct (Py.lstrip_con esp s) as [|a r]; [done|].
  rewrite rev_app_distr. simpl. by rewrite Hc.
Qed.

(** The fields [split] returns have no separator, and their characters
    are characters of the text. *)
Lemma split_partes sep s : ∀ parte,
  parte ∈ Py.split sep s → (sep ∉ parte) ∧ ∀ c, c ∈ parte → c ∈ s.
Proof.
  induction s as [|c r IH]; intros parte; simpl.
  - intros ->%list_elem_of_singleton. split; [apply not_elem_of_nil|done].
  - destruct (Ascii.eqb_spec c sep) as [->|Hc].
    + rewrite elem_of_cons. intros [->|Hin].
      * split; [apply not_elem_of_nil|]. by intros ? ?%not_elem_of_nil.
      * destruct (IH _ Hin) as [? Hsub]. split; [done|].
        intros x Hx. right. by apply Hsub.
    + destruct (Py.split sep r) as [|campo campos] eqn:Hsp.
      * intros ->%list_elem_of_singleton. split.
        -- apply not_elem_of_cons. split; [done|apply not_elem_of_nil].
        -- intros x ->%list_elem_of_singleton. by left.
      * rewrite elem_of_cons. intros [->|Hin].
        -- destruct (IH campo) as [? Hsub]; [by left|]. split.
           ++ apply not_elem_of_cons. by split.
           ++ intros x. rewrite !elem_of_cons. intros [->|Hx]; [by left|].
              right. by apply Hsub.
        -- destruct (IH parte) as [? Hsub]; [by right|]. split; [done|].
           intros x Hx. right. by apply Hsub.
Qed.

Lemma registro_de_partes linea p :
  registro_de linea = Some p →
  leer_linea linea = Registro p ∧
  ∃ a b c d, Py.split SEPARADOR (Py.strip linea) = [a; b; c; d] ∧
             _nombre p = Py.title (Py.strip b).
Proof.
  unfold registro_de. destruct (leer_linea linea) as [| | |q] eqn:Hl; try done.
  intros [= ->]. split; [done|]. revert Hl. unfold leer_linea.
  destruct (Py.strip linea) as [|c0 r0]; [done|].
  destruct (Py.split SEPARADOR (c0 :: r0)) as [|a [|b [|c [|d [|? ?]]]]]; try done.
  destruct (Py.int a); [|done]. destruct (Py.int c); [|done].
  destruct (float_de_str d); [|done]. unfold validar.
  repeat case_match; try done. intros [= <-]. by exists a, b, c, d.
Qed.

(** A record read from a file can be written and read again: its name
    has no separator and no line break. *)
Lemma registro_guardable s linea p :
  linea ∈ Py.readlines s → registro_de linea = Some p → guardable p.
Proof.
  intros Hin Hreg.
  destruct (registro_de_partes linea p Hreg)
    as (Hl & a & b & c & d & Hsplit & Hn).
  split; [by eapply leer_linea_valido|].
  assert (b ∈ Py.split SEPARADOR (Py.strip linea)) as Hb
    by (rewrite Hsplit; right; left).
  destruct (split_partes _ _ _ Hb) as [Hsep Hsub].
  destruct (cortar_lineas_forma _ _ Hin) as (cu & Hlf & Hform & Hcu).
  assert (Py.strip linea = Py.strip cu) as Hst.
  { destruct Hform as [->| ->]; [|done]. by apply strip_con_app_blanco. }
  assert (∀ x, x = Py.LF ∨ x = Py.CR → x ∈ _nombre p → x ∈ cu) as Hx.
  { intros x Hx Hxin. rewrite Hn in Hxin.
    apply (title_desde_salto x) in Hxin; [|done].
    apply strip_con_elem, Hsub in Hxin. rewrite Hst in Hxin.
    by apply strip_con_elem in Hxin. }
  split; [|split].
  - rewrite Hn. by apply nombre_normalizado_sin_separador.
  - intros H. apply Hlf, Hx; [by left|done].
  - intros H. apply (traducir_saltos_no_cr s), Hcu, Hx; [by right|done].
Qed.

(** X8.  Loading, saving and loading again gives the store of the
    first load, whatever ASCII text the file held.  After
    [Inventario()] on a file that can be read and written,
    [_guardar_en_archivo] writes one line for each product loaded; and
    a second [Inventario()], in any world that has the file so written,
    whatever its objects and the store it had, builds new objects that
    are the same products, in the same order and under the same ids,
    after which a second save writes the same file. *)
Theorem cargar_guardar_cargar (w : Mundo) (s : str) :
  falla_lectura (disco w) = None → falla_escritura (disco w) = None →
  contenido (disco w) = Some s → es_ascii s →
  ∃ w1 w2 ps,
    Inventario_init w = (Ret tt, w1) ∧
    registros w1 = map Some ps ∧
    _guardar_en_archivo w1 = (Ret tt, w2) ∧
    contenido (disco w2) = Some (flat_map linea_de ps) ∧
    ∀ w', disco w' = disco w2 →
      ∃ w3 w4,
        Inventario_init w' = (Ret tt, w3) ∧
        objetos w3 = objetos w' ++ ps ∧
        registros w3 = registros w1 ∧
        (∀ k, is_Some (_indice_por_id (inventario w3) !! k)
              ↔ is_Some (_indice_por_id (inventario w1) !! k)) ∧
        _guardar_en_archivo w3 = (Ret tt, w4) ∧
        contenido (disco w4) = contenido (disco w2).
Proof.
  intros Hfl Hfe Hs _.
  destruct (Inventario_init_carga w s Hfl Hs)
    as (w1 & avisos & Hi & Hc & Hr & Hd & Hdi & _).
  set (ps := primeros ∅ (omap registro_de (Py.readlines s))) in *.
  assert (Forall guardable ps) as Hg.
  { apply Forall_forall. intros p Hp. apply primeros_elem in Hp.
    apply list_elem_of_omap in Hp as (linea & Hin & Hreg).
    by eapply registro_guardable. }
  destruct (coherente_ids w1 ps Hc Hr) as [Hn Hd1].
  assert (falla_escritura (disco w1) = None) as Hfe1 by by rewrite Hdi.
  assert (disco (tras_guardar w1)
          = {| contenido := Some (flat_map linea_de ps);
               falla_lectura := None; falla_escritura := None |}) as Hd2.
  { unfold tras_guardar, disco_tras_guardar. simpl. rewrite Hfe1, Hdi, Hfl.
    do 2 f_equal. by apply volcado_registros. }
  exists w1, (tras_guardar w1), ps.
  split; [done|]. split; [done|].
  split; [by apply guardar_vivos, coherente_vivos|].
  split; [by rewrite Hd2|].
  intros w' Hd'. rewrite Hd2 in Hd'.
  destruct (cargar_volcado w' ps)
    as (w3 & Hi3 & Hc3 & Hr3 & Hd3 & Ho3 & Hdi3); try (by rewrite Hd'); try done.
  exists w3, (tras_guardar w3).
  split; [done|]. split; [done|]. split; [congruence|].
  split; [intros k; by rewrite <- !elem_of_dom, Hd1, Hd3|].
  split; [by apply guardar_vivos, coherente_vivos|].
  rewrite Hd2. unfold tras_guardar, disco_tras_guardar. simpl.
  rewrite Hdi3, Hd'. simpl. f_equal. by apply volcado_registros.
Qed.


(* ------------------------------------------------------------------ *)
(** ** The methods of the store, and the file across sessions *)
(* ------------------------------------------------------------------ *)





Lemma lstrip_con_partes esp s : ∃ a, s = a ++ Py.lstrip_con esp s.
Proof.
  induction s as [|c r [a IH]]; [by exists []|]. simpl.
  destruct (esp c); [|by exists []]. exists (c :: a). simpl. by f_equal.
Qed.

(** [strip] returns a piece of the text. *)
Lemma strip_con_partes esp s : ∃ a b, s = a ++ Py.strip_con esp s ++ b.
Proof.
  unfold Py.strip_con. destruct (lstrip_con_partes esp s) as [a Ha].
  destruct (lstrip_con_partes esp (rev (Py.lstrip_con esp s))) as [b Hb].
  exists a, (rev b). rewrite <- rev_app_distr, <- Hb, rev_involutive. done.
Qed.

Lemma contiene_strip t s :
  Py.contiene t s = true → Py.contiene (Py.strip t) s = true.
Proof.
  rewrite !contiene_spec. intros (pre & post & ->).
  destruct (strip_con_partes Py.isspace t) as (a & b & Ht).
  exists (pre ++ a), (b ++ post). fold (Py.strip t) in Ht.
  rewrite Ht at 1. by rewrite <- !app_assoc.
Qed.

Lemma contiene_refl s : Py.contiene s s = true.
Proof. apply contiene_spec. exists [], []. by rewrite app_nil_r. Qed.

(** X12.  Trimming the query never loses a match: a product of the
    store whose lower-cased name contains the lower-cased query is in
    the result of [buscar_por_nombre], blanks around the query or not.
    In particular every product is found by its own name, in any
    case. *)
Theorem buscar_por_nombre_encuentra
    (w : Mundo) (texto : str) (l : loc) (p : Producto) :
  vivos w →
  l ∈ _productos (inventario w) → objetos w !! l = Some p →
  (Py.contiene (Py.lower texto) (Py.lower (_nombre p)) = true →
   ∃ resultado, buscar_por_nombre texto w = (Ret resultado, w) ∧ l ∈ resultado) ∧
  (Py.lower texto = Py.lower (_nombre p) →
   ∃ resultado, buscar_por_nombre texto w = (Ret resultado, w) ∧ l ∈ resultado).
Proof.
  intros Hv Hl Hp.
  assert (Py.contiene (Py.lower texto) (Py.lower (_nombre p)) = true →
          ∃ resultado, buscar_por_nombre texto w = (Ret resultado, w)
                       ∧ l ∈ resultado) as H.
  { intros Hcon. rewrite buscar_por_nombre_vivos by done.
    eexists. split; [done|].
    apply list_elem_of_In, filter_In. split; [by apply list_elem_of_In|].
    unfold coincide. rewrite Hp. by apply contiene_strip. }
  split; [done|]. intros Heq. apply H. rewrite Heq. apply contiene_refl.
Qed.


Lemma sesion_coherente objs d ops : coherente (sesion objs d ops).
Proof.
  unfold sesion.
  destruct (Inventario_init_inv
              {| objetos := objs;
                 inventario := {| _productos := []; _indice_por_id := ∅ |};
                 disco := d; consola := [] |}) as (w' & -> & Hc & _).
  by apply foldl_ejecutar_inv.
Qed.

Lemma vivos_registros w : vivos w → ∃ ps, registros w = map Some ps.
Proof.
  unfold vivos, registros. induction 1 as [|l ls [p Hp] _ [ps IH]].
  - by exists [].
  - exists (p :: ps). simpl. by rewrite Hp, IH.
Qed.

(** X13.  No two products of the store share an id, at any moment of
    any session: the ids of the products of the list are pairwise
    distinct, and [contar_productos] is the number of ids the
    dictionary holds. *)
Theorem ids_unicos (objs : list Producto) (d : Disco) (ops : list operacion) :
  let w := sesion objs d ops in
  ∃ ps, registros w = map Some ps ∧
        NoDup (map _id ps) ∧
        (contar_productos w).1 = Ret (size (_indice_por_id (inventario w))).
Proof.
  intros w. pose proof (sesion_coherente objs d ops) as Hc. fold w in Hc.
  destruct (vivos_registros w (coherente_vivos w Hc)) as [ps Hr].
  destruct (coherente_ids w ps Hc Hr) as [Hn Hd].
  exists ps. split; [done|]. split; [done|].
  rewrite contar_productos_eq. simpl. f_equal.
  rewrite <- size_dom, Hd, size_list_to_set by done.
  rewrite length_map. unfold registros in Hr.
  by rewrite <- (length_map (λ l, objetos w !! l)), Hr, length_map.
Qed.

Lemma volcado_nuevo objs ls p :
  Forall (λ l, is_Some (objs !! l)) ls → volcado (objs ++ [p]) ls = volcado objs ls.
Proof.
  unfold volcado. induction 1 as [|l ls [q Hq] _ IH]; [done|].
  cbn [flat_map]. by rewrite IH, (lookup_app_l_Some _ _ _ _ Hq), Hq.
Qed.


Lemma registros_nuevo objs i d c p :
  vivos {| objetos := objs; inventario := i; disco := d; consola := c |} →
  registros {| objetos := objs ++ [p]; inventario := i; disco := d;
               consola := c |}
  = registros {| objetos := objs; inventario := i; disco := d; consola := c |}.
Proof.
  unfold vivos, registros. simpl. intros Hv. apply map_ext_in. intros l Hl.
  apply list_elem_of_In in Hl.
  destruct (proj1 (Forall_forall _ _) Hv l Hl) as [q Hq].
  by rewrite (lookup_app_l_Some _ _ _ _ Hq).
Qed.

(** What an operation that goes through the store does to the file:
    nothing, the products of the store staying as they are, or it
    leaves the snapshot of the store. *)
Lemma ejecutar_disco w o :
  coherente w → falla_escritura (disco w) = None →
  por_el_inventario o = true →
  falla_lectura (disco (ejecutar w o)) = falla_lectura (disco w) ∧
  falla_escritura (disco (ejecutar w o)) = None ∧
  ((disco (ejecutar w o) = disco w ∧ registros (ejecutar w o) = registros w)
   ∨ espejo (ejecutar w o)).
Proof.
  intros Hc Hfe Ho. pose proof (coherente_vivos w Hc) as Hv.
  assert (∀ w1 m, falla_escritura (disco w1) = None →
            falla_lectura (disco w1) = falla_lectura (disco w) →
            let w2 := con_consola m (tras_guardar w1) in
            falla_lectura (disco w2) = falla_lectura (disco w) ∧
            falla_escritura (disco w2) = None ∧
            ((disco w2 = disco w ∧ registros w2 = registros w) ∨ espejo w2))
    as Hg.
  { intros w1 m Hf1 Hl1. unfold espejo, tras_guardar, disco_tras_guardar.
    simpl. rewrite Hf1. simpl. split; [done|]. split; [done|]. by right. }
  assert (∀ m, let w2 := con_consola m w in
            falla_lectura (disco w2) = falla_lectura (disco w) ∧
            falla_escritura (disco w2) = None ∧
            ((disco w2 = disco w ∧ registros w2 = registros w) ∨ espejo w2))
    as Hs.
  { intros m. simpl. split; [done|]. split; [done|]. by left. }
  assert (falla_lectura (disco w) = falla_lectura (disco w) ∧
          falla_escritura (disco w) = None ∧
          ((disco w = disco w ∧ registros w = registros w) ∨ espejo w)) as Hw.
  { split; [done|]. split; [done|]. by left. }
  destruct o as [i n c x|l c|l x|l|i|i c|i x|t| |d']; try done; simpl.
  - unfold Producto_init.
    destruct (Z.leb_spec i 0); [done|].
    destruct (Z.ltb_spec c 0); [done|].
    destruct (float_negativo x) eqn:Hx; [done|].
    unfold nuevo_objeto. simpl. split; [done|]. split; [done|]. left.
    split; [done|]. destruct w as [objs inv d c0]. by apply registros_nuevo.
  - destruct (objetos w !! l) as [p|] eqn:Hp.
    + destruct (_indice_por_id (inventario w) !! _id p) as [l'|] eqn:Hk.
      * rewrite (agregar_producto_existente w l p) by done. apply Hs.
      * rewrite (agregar_producto_nuevo w l p) by done. by apply Hg.
    + by rewrite agregar_producto_no_es_producto.
  - destruct (_indice_por_id (inventario w) !! i) as [l|] eqn:Hk.
    + destruct (eliminar_producto_presente w i l Hc Hk)
        as (quedan & p & Hrem & Hp & Hid & ->). by apply Hg.
    + rewrite eliminar_producto_ausente by done. apply Hs.
  - destruct (_indice_por_id (inventario w) !! i) as [l|] eqn:Hk.
    + destruct (coherente_indice w i l Hc Hk) as (_ & p & Hp & _).
      destruct (Z.ltb_spec c 0).
      * rewrite (actualizar_cantidad_negativa w i c l p) by done. apply Hs.
      * rewrite (actualizar_cantidad_valida w i c l p) by done.
        unfold espejo, tras_guardar, disco_tras_guardar. simpl. rewrite Hfe.
        simpl. split; [done|]. split; [done|]. by right.
    + rewrite actualizar_cantidad_ausente by done. apply Hs.
  - destruct (_indice_por_id (inventario w) !! i) as [l|] eqn:Hk.
    + destruct (coherente_indice w i l Hc Hk) as (_ & p & Hp & _).
      destruct (float_negativo x) eqn:Hx.
      * rewrite (actualizar_precio_negativo w i x l p) by done. apply Hs.
      * rewrite (actualizar_precio_valido w i x l p) by done.
        unfold espejo, tras_guardar, disco_tras_guardar. simpl. rewrite Hfe.
        simpl. split; [done|]. split; [done|]. by right.
    + rewrite actualizar_precio_ausente by done. apply Hs.
  - by rewrite buscar_por_nombre_mundo.
Qed.



Lemma limpia_por_el_inventario o : limpia o → por_el_inventario o = true.
Proof. by destruct o. Qed.

Lemma ejecutar_guardables w o :
  coherente w → Forall guardable (objetos w) → limpia o →
  Forall guardable (objetos (ejecutar w o)).
Proof.
  intros Hc Hg Hl.
  destruct (ejecutar_objetos w o Hc)
    as [->|[(i & n & c & x & -> & ? & ? & ? & ->)
       |[(l & p & c & Hp & ? & ->)|(l & p & x & Hp & ? & ->)]]]; [done| | |].
  - apply Forall_app. split; [done|]. constructor; [|done].
    destruct Hl as (_ & Hsep & Hlf & Hcr).
    split; [|split; [|split]]; simpl.
    + repeat split; simpl; try done. apply nombre_normalizado_estable.
    + by apply nombre_normalizado_sin_separador.
    + intros Hin. apply (title_desde_salto Py.LF) in Hin; [|by left].
      by apply strip_con_elem in Hin.
    + intros Hin. apply (title_desde_salto Py.CR) in Hin; [|by right].
      by apply strip_con_elem in Hin.
  - apply Forall_insert; [done|].
    destruct (proj1 (Forall_lookup _ _) Hg l p Hp)
      as ((? & ? & ? & ?) & ? & ? & ?).
    by repeat split.
  - apply Forall_insert; [done|].
    destruct (proj1 (Forall_lookup _ _) Hg l p Hp)
      as ((? & ? & ? & ?) & ? & ? & ?).
    by repeat split.
Qed.

Lemma registros_guardables w ps :
  Forall guardable (objetos w) → registros w = map Some ps →
  Forall guardable ps.
Proof.
  intros Hg Hr. apply Forall_forall. intros p Hp.
  assert (Some p ∈ map Some ps) as Hin by (apply elem_of_map; by exists p).
  rewrite <- Hr in Hin. apply elem_of_map in Hin as (l & Hl & _).
  symmetry in Hl. by apply (proj1 (Forall_lookup _ _) Hg l p).
Qed.

(** When the file is the snapshot of the store, loading it would give
    the products of the store. *)
Lemma espejo_cargaria_de w ps :
  coherente w → registros w = map Some ps → Forall guardable ps → espejo w →
  registros w = map Some (cargaria (disco w)).
Proof.
  intros Hc Hr Hgp He.
  destruct (coherente_ids w ps Hc Hr) as [Hn _].
  unfold cargaria. rewrite He, (volcado_registros _ _ ps Hr).
  rewrite readlines_volcado, omap_registro_linea_de by done.
  rewrite primeros_sin_repetir; [done|set_solver|done].
Qed.

Lemma espejo_cargaria w :
  coherente w → Forall guardable (objetos w) → espejo w →
  registros w = map Some (cargaria (disco w)).
Proof.
  intros Hc Hg He.
  destruct (vivos_registros w (coherente_vivos w Hc)) as [ps Hr].
  apply (espejo_cargaria_de w ps); try done.
  by apply (registros_guardables w).
Qed.

(** What a session that keeps what it saves maintains. *)
Lemma ejecutar_recargable w o :
  coherente w → Forall guardable (objetos w) →
  falla_lectura (disco w) = None → falla_escritura (disco w) = None →
  registros w = map Some (cargaria (disco w)) →
  limpia o →
  coherente (ejecutar w o) ∧ Forall guardable (objetos (ejecutar w o)) ∧
  falla_lectura (disco (ejecutar w o)) = None ∧
  falla_escritura (disco (ejecutar w o)) = None ∧
  registros (ejecutar w o) = map Some (cargaria (disco (ejecutar w o))).
Proof.
  intros Hc Hg Hfl Hfe Hr Hl.
  pose proof (proj1 (ejecutar_inv w o Hc)) as Hc'.
  pose proof (ejecutar_guardables w o Hc Hg Hl) as Hg'.
  destruct (ejecutar_disco w o Hc Hfe (limpia_por_el_inventario o Hl))
    as (Hfl' & Hfe' & [[Hd' Hr']|He']).
  - split; [done|]. split; [done|]. split; [congruence|]. split; [done|].
    by rewrite Hr', Hd'.
  - split; [done|]. split; [done|]. split; [congruence|]. split; [done|].
    by apply espejo_cargaria.
Qed.

Lemma Inventario_init_recargable objs i d c :
  falla_lectura d = None → falla_escritura d = None →
  Forall guardable objs →
  let w := (Inventario_init {| objetos := objs; inventario := i;
                               disco := d; consola := c |}).2 in
  coherente w ∧ Forall guardable (objetos w) ∧
  falla_lectura (disco w) = None ∧ falla_escritura (disco w) = None ∧
  registros w = map Some (cargaria (disco w)).
Proof.
  intros Hfl Hfe Hg.
  set (w0 := {| objetos := objs; inventario := i; disco := d; consola := c |}).
  destruct (contenido d) as [s|] eqn:Hs.
  - destruct (Inventario_init_carga w0 s Hfl Hs)
      as (w' & avisos & -> & Hc & Hr & _ & Hdi & _ & _ & _ & Ho).
    simpl. split; [done|]. split; [|split; [|split]].
    + rewrite Ho. apply Forall_app. split; [done|].
      apply Forall_forall. intros p Hp.
      apply list_elem_of_omap in Hp as (linea & Hin & Hreg).
      by eapply registro_guardable.
    + by rewrite Hdi.
    + by rewrite Hdi.
    + unfold cargaria. rewrite Hdi. simpl. by rewrite Hs.
  - rewrite (proj1 (Inventario_init_no_leido w0) Hfl Hs).
    rewrite crear_archivo_vacio_eq. simpl. rewrite Hfe. simpl.
    split; [apply coherente_con_vacio|]. done.
Qed.

(** X15.  What a session leaves in the store is what the next start of
    the program finds.  With a file that can be read and written and
    holds ASCII text, and objects that can be saved, with ASCII names:
    after [Inventario()] and any sequence of operations that go through
    the store or build products with ASCII names free of the separator
    and of line breaks, a new [Inventario()], in any world that has the
    file the session left, whatever its objects and the store it had,
    returns with the objects that existed untouched and a store of the
    products the session's store holds, in the same order and under the
    same ids, whatever the file held at first and whichever operations
    failed. *)
Theorem reinicio_conserva_inventario
    (objs : list Producto) (d : Disco) (ops : list operacion) :
  falla_lectura d = None → falla_escritura d = None → disco_ascii d →
  Forall guardable objs → Forall (λ p, es_ascii (_nombre p)) objs →
  Forall limpia ops →
  ∀ w, disco w = disco (sesion objs d ops) →
    ∃ w' nuevos,
      Inventario_init w = (Ret tt, w') ∧
      objetos w' = objetos w ++ nuevos ∧
      registros w' = registros (sesion objs d ops) ∧
      (∀ k, is_Some (_indice_por_id (inventario w') !! k)
            ↔ is_Some (_indice_por_id (inventario (sesion objs d ops)) !! k)).
Proof.
  intros Hfl Hfe _ Hg _ Hops. unfold sesion.
  destruct (Inventario_init_recargable objs
              {| _productos := []; _indice_por_id := ∅ |} d [] Hfl Hfe Hg)
    as (Hc & Hg0 & Hfl0 & Hfe0 & Hr0).
  match goal with |- context [foldl ejecutar ?w0 ops] => set (ws := w0) in * end.
  clearbody ws. clear objs d Hfl Hfe Hg.
  revert ws Hc Hg0 Hfl0 Hfe0 Hr0.
  induction Hops as [|o ops Ho _ IH]; intros ws Hc Hg Hfl Hfe Hr; simpl.
  - intros w Hd. destruct (coherente_ids ws _ Hc Hr) as [_ Hds].
    rewrite <- Hd in Hfl, Hfe. unfold cargaria in Hr, Hds. rewrite <- Hd in Hr, Hds.
    destruct (contenido (disco w)) as [s|] eqn:Hs.
    + destruct (Inventario_init_carga w s Hfl Hs)
        as (w' & avisos & Hi & Hc' & Hr' & _ & _ & _ & _ & _ & Ho).
      destruct (coherente_ids w' _ Hc' Hr') as [_ Hd'].
      exists w', (omap registro_de (Py.readlines s)).
      split; [done|]. split; [done|].
      split; [congruence|]. intros k. by rewrite <- !elem_of_dom, Hds, Hd'.
    + rewrite (proj1 (Inventario_init_no_leido w) Hfl Hs).
      rewrite crear_archivo_vacio_eq. simpl. rewrite Hfe. simpl.
      eexists _, []. split; [done|]. simpl. rewrite app_nil_r.
      split; [done|]. split; [by rewrite Hr|].
      intros k. rewrite <- !elem_of_dom, Hds. simpl. set_solver.
  - destruct (ejecutar_recargable ws o Hc Hg Hfl Hfe Hr Ho)
      as (? & ? & ? & ? & ?). by apply IH.
Qed.

(** X16.  An assignment to a product of the store from outside the
    store is seen by the store and is not saved.  For a store that
    satisfies the invariant and whose products can be saved (they are
    valid, and their names have no separator and no line break), when
    the file can be read and is the snapshot of the store,
    [p.cantidad = c] on one of its products, with a quantity that is
    not negative and not the one it had, returns, changes that product
    as the store sees it, and leaves the store, the file and the
    console as they were; so the next [Inventario()] loads the products
    as they were before the assignment. *)
Theorem asignacion_directa_no_se_guarda
    (w : Mundo) (producto : loc) (p : Producto) (nueva_cantidad : Z) :
  coherente w →
  (∀ l q, l ∈ _productos (inventario w) → objetos w !! l = Some q → guardable q) →
  espejo w →
  falla_lectura (disco w) = None →
  producto ∈ _productos (inventario w) → objetos w !! producto = Some p →
  (0 ≤ nueva_cantidad)%Z → nueva_cantidad ≠ _cantidad p →
  ∃ w1 w2,
    set_cantidad producto nueva_cantidad w = (Ret tt, w1) ∧
    objetos w1 !! producto
    = Some {| _id := _id p; _nombre := _nombre p;
              _cantidad := nueva_cantidad; _precio := _precio p |} ∧
    inventario w1 = inventario w ∧ disco w1 = disco w ∧
    consola w1 = consola w ∧
    registros w1 ≠ registros w ∧
    Inventario_init w1 = (Ret tt, w2) ∧
    registros w2 = registros w.
Proof.
  intros Hc Hg He Hfl Hin Hp Hq Hne.
  assert (registros w = map Some (cargaria (disco w))) as Hr.
  { destruct (vivos_registros w (coherente_vivos w Hc)) as [ps Hps].
    apply (espejo_cargaria_de w ps); try done.
    apply Forall_forall. intros q Hq'.
    assert (Some q ∈ map Some ps) as Hs by (apply elem_of_map; by exists q).
    rewrite <- Hps in Hs. apply elem_of_map in Hs as (l & Hl & Hlin).
    by apply (Hg l q). }
  set (p' := {| _id := _id p; _nombre := _nombre p;
                _cantidad := nueva_cantidad; _precio := _precio p |}).
  set (w1 := con_objetos (<[producto := p']> (objetos w)) w).
  assert (set_cantidad producto nueva_cantidad w = (Ret tt, w1)) as Hs.
  { unfold set_cantidad. desplegar. rewrite Hp. simpl.
    by destruct (Z.ltb_spec nueva_cantidad 0); [lia|]. }
  assert (objetos w1 !! producto = Some p') as Hp'
    by (simpl; apply list_lookup_insert_eq; by eapply lookup_lt_Some).
  destruct (Inventario_init_carga w1 _ Hfl He)
    as (w2 & avisos & Hi & _ & Hr2 & _).
  exists w1, w2. split; [done|]. split; [done|]. split; [done|].
  split; [done|]. split; [done|]. split; [|split; [done|]].
  - unfold registros. intros Heq.
    pose proof (proj1 map_ext_in_iff Heq producto
                  (proj1 (list_elem_of_In _ _) Hin)) as Hl.
    cbv beta in Hl. clear Heq. rename Hl into Heq.
    rewrite Hp', Hp in Heq. injection Heq as Heq.
    apply (f_equal _cantidad) in Heq. done.
  - rewrite Hr2, Hr. unfold cargaria. by rewrite He.
Qed.

Lemma mapM_registros (objs : list Producto) (ls : list loc) : ∀ ps,
  map (λ l, objs !! l) ls = map Some ps →
  mapM (λ l, objs !! l) ls = Some ps.
Proof.
  induction ls as [|l ls IH]; intros [|p ps] Hr; try done.
  injection Hr as Hp Hr. apply mapM_Some_2. constructor; [done|].
  by apply mapM_Some_1, IH.
Qed.



Lemma upper_lower_c c : Py.upper_c (Py.lower_c c) = Py.upper_c c.
Proof. por_caracter c. Qed.

Lemma title_desde_lower b s :
  Py.title_desde b (Py.lower s) = Py.title_desde b s.
Proof.
  revert b. induction s as [|c r IH]; intros b; simpl; [done|].
  by rewrite iscased_lower_c, IH, lower_c_idem, upper_lower_c.
Qed.





(** X18.  The product built does not depend on the letter case of the
    name given, nor on the blanks around it: two ASCII names that are
    equal once trimmed and lower-cased give, with the same id, quantity
    and price, the same outcome of [Producto(...)], the same object
    with the same name or the same exception. *)
Theorem Producto_init_sin_caja (w : Mundo) (id_producto : Z)
    (nombre1 nombre2 : str) (cantidad : Z) (precio : float) :
  es_ascii nombre1 → es_ascii nombre2 →
  Py.lower (Py.strip nombre1) = Py.lower (Py.strip nombre2) →
  Producto_init id_producto nombre1 cantidad precio w
  = Producto_init id_producto nombre2 cantidad precio w.
Proof.
  intros _ _ Hn. unfold Producto_init.
  assert (Py.title (Py.strip nombre1) = Py.title (Py.strip nombre2)) as ->;
    [|done].
  unfold Py.title.
  by rewrite <- (title_desde_lower _ (Py.strip nombre1)), Hn, title_desde_lower.
Qed.


(* ------------------------------------------------------------------ *)
(** ** The listing and the prompts *)
(* ------------------------------------------------------------------ *)

Lemma codigo_inj a b : Py.codigo a = Py.codigo b → a = b.
Proof.
  unfold Py.codigo. intros H.
  rewrite <- (ascii_nat_embedding a), <- (ascii_nat_embedding b). by rewrite H.
Qed.

Lemma str_lt_irrefl s : str_lt s s = false.
Proof.
  induction s as [|c s IH]; simpl; [done|].
  by rewrite Nat.ltb_irrefl, Nat.eqb_refl, IH.
Qed.

Lemma str_lt_trans a : ∀ b c,
  str_lt a b = true → str_lt b c = true → str_lt a c = true.
Proof.
  induction a as [|x a IH]; intros [|y b] [|z c]; simpl; try done.
  rewrite !orb_true_iff, !andb_true_iff, !Nat.ltb_lt, !Nat.eqb_eq.
  intros [H1|[H1 H1']] [H2|[H2 H2']]; [left; lia..|].
  right. split; [lia|]. by eapply IH.
Qed.

Lemma str_lt_total a : ∀ b,
  str_lt a b = false → str_lt b a = false → a = b.
Proof.
  induction a as [|x a IH]; intros [|y b]; simpl; try done.
  rewrite !orb_false_iff, !andb_false_iff, !Nat.ltb_ge, !Nat.eqb_neq.
  intros [H1 H1'] [H2 H2'].
  assert (Py.codigo x = Py.codigo y) as Hxy by lia.
  f_equal; [by apply codigo_inj|].
  apply IH; [by destruct H1'|]. destruct H2' as [?|?]; [lia|done].
Qed.

Lemma str_lt_asim a b : str_lt a b = true → str_lt b a = false.
Proof.
  intros Hab. destruct (str_lt b a) eqn:Hba; [|done].
  by rewrite <- (str_lt_irrefl a), (str_lt_trans a b a).
Qed.

(** [not (b < a)] and [not (c < b)] give [not (c < a)]. *)
Lemma str_le_trans a b c :
  str_lt b a = false → str_lt c b = false → str_lt c a = false.
Proof.
  intros Hba Hcb. destruct (str_lt c a) eqn:Hca; [|done].
  destruct (str_lt a b) eqn:Hab.
  - by rewrite (str_lt_trans c a b) in Hcb.
  - assert (a = b) as -> by by apply str_lt_total. congruence.
Qed.

Section Orden.
Context {A : Type} (key : A → str).

Lemma insertar_perm x l : insertar key x l ≡ₚ x :: l.
Proof.
  induction l as [|y l IH]; simpl; [done|].
  destruct (str_lt (key y) (key x)); [|done].
  rewrite IH. apply Permutation_swap.
Qed.

Lemma sorted_perm l : sorted key l ≡ₚ l.
Proof.
  induction l as [|x l IH]; simpl; [done|].
  rewrite insertar_perm. by constructor.
Qed.

Lemma insertar_ordenada x l :
  StronglySorted (λ p q, str_lt (key q) (key p) = false) l →
  StronglySorted (λ p q, str_lt (key q) (key p) = false) (insertar key x l).
Proof.
  induction 1 as [|y l Hs IH Hall]; simpl.
  - by repeat constructor.
  - destruct (str_lt (key y) (key x)) eqn:Hyx.
    + constructor; [done|]. rewrite insertar_perm.
      constructor; [by apply str_lt_asim|done].
    + constructor; [by constructor|]. constructor; [done|].
      eapply Forall_impl; [done|]. simpl. intros z Hz.
      by apply (str_le_trans _ (key y)).
Qed.

Lemma sorted_ordenada l :
  StronglySorted (λ p q, str_lt (key q) (key p) = false) (sorted key l).
Proof.
  induction l as [|x l IH]; simpl; [constructor|]. by apply insertar_ordenada.
Qed.

Lemma insertar_estable n x l :
  List.filter (λ y, bool_decide (key y = n)) (insertar key x l)
  = List.filter (λ y, bool_decide (key y = n)) (x :: l).
Proof.
  induction l as [|y l IH]; [done|]. cbn [insertar].
  destruct (str_lt (key y) (key x)) eqn:Hyx; [|done].
  cbn [List.filter] in *. rewrite IH.
  destruct (bool_decide_reflect (key y = n)) as [Hy|Hy]; [|done].
  destruct (bool_decide_reflect (key x = n)) as [Hx|Hx]; [|done].
  rewrite Hy, <- Hx, str_lt_irrefl in Hyx. done.
Qed.

Lemma sorted_estable n l :
  List.filter (λ y, bool_decide (key y = n)) (sorted key l)
  = List.filter (λ y, bool_decide (key y = n)) l.
Proof.
  induction l as [|x l IH]; [done|]. cbn [sorted].
  rewrite insertar_estable. cbn [List.filter]. by rewrite IH.
Qed.

End Orden.

(** X20.  [mostrar_todos] lists every product once, by name.  With an
    empty store it prints the one line that says so.  Otherwise it
    prints the three lines of the header, one row per product of the
    store and the closing border; the rows are the products of the
    store in another order, no name comes after a greater one
    (comparing by code point), and products with the same name keep the
    order they have in the store. *)
Theorem mostrar_todos_ordenado (w : Mundo) (ps : list Producto) :
  registros w = map Some ps →
  (ps = [] → mostrar_todos w = (Ret tt, [ImpVacio])) ∧
  (ps ≠ [] →
   ∃ filas,
     mostrar_todos w
     = (Ret tt, [ImpBordeSuperior; ImpCabecera; ImpRaya]
                  ++ map ImpProducto filas ++ [ImpBordeInferior]) ∧
     filas ≡ₚ ps ∧
     StronglySorted (λ p q, str_lt (_nombre q) (_nombre p) = false) filas ∧
     ∀ n, List.filter (λ p, bool_decide (_nombre p = n)) filas
          = List.filter (λ p, bool_decide (_nombre p = n)) ps).
Proof.
  intros Hr. unfold registros in Hr. unfold mostrar_todos.
  rewrite (mapM_registros _ _ ps Hr).
  destruct (_productos (inventario w)) as [|l ls], ps as [|p ps]; try done.
  split; [done|]. intros _. exists (sorted _nombre (p :: ps)).
  split; [done|]. split; [apply sorted_perm|].
  split; [apply sorted_ordenada|]. intros n. apply sorted_estable.
Qed.

Lemma obtener_entero_malas mensaje malas : ∀ entradas,
  Forall (λ linea, Py.int linea = None) malas →
  obtener_entero mensaje (malas ++ entradas)
  = let '(r, quedan, eventos) := obtener_entero mensaje entradas in
    (r, quedan, flat_map (λ _, [Pide mensaje; AvisaEntero]) malas ++ eventos).
Proof.
  intros entradas. induction 1 as [|linea malas Hl _ IH]; simpl.
  - by destruct (obtener_entero mensaje entradas) as [[? ?] ?].
  - rewrite Hl, IH. by destruct (obtener_entero mensaje entradas) as [[? ?] ?].
Qed.

Lemma obtener_float_malas mensaje malas : ∀ entradas,
  Forall (λ linea, float_de_str linea = None) malas →
  obtener_float mensaje (malas ++ entradas)
  = let '(r, quedan, eventos) := obtener_float mensaje entradas in
    (r, quedan, flat_map (λ _, [Pide mensaje; AvisaFloat]) malas ++ eventos).
Proof.
  intros entradas. induction 1 as [|linea malas Hl _ IH]; simpl.
  - by destruct (obtener_float mensaje entradas) as [[? ?] ?].
  - rewrite Hl, IH. by destruct (obtener_float mensaje entradas) as [[? ?] ?].
Qed.

(** X21.  [obtener_entero] and [obtener_float] return the value of the
    first line of the input that [int] (or [float]) accepts.  Every
    line before it is asked for with the same prompt and answered with
    one notice; the accepted line is the last one read, so the lines
    after it are left for the next prompt.  If no line is accepted the
    input runs out and [EOFError] leaves the loop. *)
Theorem obtener_primera_valida (mensaje : str) (malas : list str) :
  (Forall (λ linea, Py.int linea = None) malas →
   (∀ buena resto n,
      Py.int buena = Some n →
      obtener_entero mensaje (malas ++ buena :: resto)
      = (Some n, resto,
         flat_map (λ _, [Pide mensaje; AvisaEntero]) malas ++ [Pide mensaje])) ∧
   obtener_entero mensaje malas
   = (None, [],
      flat_map (λ _, [Pide mensaje; AvisaEntero]) malas ++ [Pide mensaje])) ∧
  (Forall (λ linea, float_de_str linea = None) malas →
   (∀ buena resto x,
      float_de_str buena = Some x →
      obtener_float mensaje (malas ++ buena :: resto)
      = (Some x, resto,
         flat_map (λ _, [Pide mensaje; AvisaFloat]) malas ++ [Pide mensaje])) ∧
   obtener_float mensaje malas
   = (None, [],
      flat_map (λ _, [Pide mensaje; AvisaFloat]) malas ++ [Pide mensaje])).
Proof.
  split; intros Hm; split.
  - intros buena resto n Hb. rewrite obtener_entero_malas by done.
    simpl. by rewrite Hb.
  - rewrite <- (app_nil_r malas) at 1. by rewrite obtener_entero_malas.
  - intros buena resto x Hb. rewrite obtener_float_malas by done.
    simpl. by rewrite Hb.
  - rewrite <- (app_nil_r malas) at 1. by rewrite obtener_float_malas.
Qed.


(* ------------------------------------------------------------------ *)
(** ** The store with a file and the store without *)
(* ------------------------------------------------------------------ *)










End Mas.
(* ------------------------------------------------------------------ *)
(** ** Concrete worlds *)
(* ------------------------------------------------------------------ *)

#[local] Existing Instance decimal_PyFloat.

Definition precio_999 : decimal := lit "9.99" ↾ eq_refl.
Definition precio_0 : decimal := lit "0.0" ↾ eq_refl.

Definition widget : Producto :=
  {| _id := 1; _nombre := lit "Widget"; _cantidad := 5; _precio := precio_999 |}.
Definition gadget : Producto :=
  {| _id := 2; _nombre := lit "Gadget"; _cantidad := 3; _precio := precio_0 |}.

Definition disco_sano : Disco :=
  {| contenido := Some []; falla_lectura := None; falla_escritura := None |}.


(** No object, an empty store. *)
Definition mundo_vacio : Mundo :=
  {| objetos := []; inventario := inventario_vacio; disco := disco_sano;
     consola := [] |}.

(** Two objects; the store holds the first. *)
Definition mundo_widget (d : Disco) : Mundo :=
  {| objetos := [widget; gadget];
     inventario := {| _productos := [0]; _indice_por_id := {[ 1%Z := 0 ]} |};
     disco := d; consola := [] |}.

(** Two objects, both in the store. *)
Definition mundo_dos : Mundo :=
  {| objetos := [widget; gadget];
     inventario := {| _productos := [0; 1];
                      _indice_por_id := {[ 1%Z := 0; 2%Z := 1 ]} |};
     disco := disco_sano; consola := [] |}.

(** A file with two records, a duplicate id, a line of two fields, a
    blank line, a negative quantity, and a last record written with
    blanks, a sign and an underscore, and without a final LF. *)
Definition archivo_mixto : Disco :=
  {| contenido :=
       Some (lit "1|Widget|5|9.99" ++ [Py.LF]
             ++ lit "2|gadget |3|0.0" ++ [Py.CR; Py.LF]
             ++ lit "1|otro|1|1.0" ++ [Py.LF]
             ++ lit "x|y" ++ [Py.LF] ++ [Py.LF]
             ++ lit "3|z|-1|1.0" ++ [Py.LF]
             ++ lit " 4 | a b|+1_0| 2.5 ");
     falla_lectura := None; falla_escritura := None |}.

Example carga_mixta :
  let w := sesion [] archivo_mixto [] in
  (_productos (inventario w),
   map (λ l, match objetos w !! l with
             | Some p => Some (_id p, _nombre p, _cantidad p, float_a_str (_precio p))
             | None => None
             end) (_productos (inventario w)),
   map nivel_de (consola w))
  = ([0; 1; 3],
     [Some (1%Z, lit "Widget", 5%Z, lit "9.99");
      Some (2%Z, lit "Gadget", 3%Z, lit "0.0");
      Some (4%Z, lit "A B", 10%Z, lit "2.5")],
     [ADVERTENCIA; ADVERTENCIA; ADVERTENCIA; INFO]).
Proof. vm_compute. reflexivity. Qed.

Example sesion_ejemplo :
  let w := sesion [] archivo_mixto
             [OpProducto 3 (lit " teclado mecanico ") 14 precio_0;
              OpAgregar 4; OpEliminar 1;
              OpActualizarCantidad 2 (-1); OpActualizarCantidad 2 7;
              OpAgregar 4; OpEliminar 9] in
  (_productos (inventario w),
   map (λ k, _indice_por_id (inventario w) !! k) [1%Z; 2%Z; 3%Z; 4%Z],
   contenido (disco w))
  = ([1; 3; 4], [None; Some 1; Some 4; Some 3],
     Some (lit "2|Gadget|7|0.0" ++ [Py.LF] ++ lit "4|A B|10|2.5" ++ [Py.LF]
           ++ lit "3|Teclado Mecanico|14|0.0" ++ [Py.LF])).
Proof. vm_compute. reflexivity. Qed.

Lemma coherente_mundo_widget d : coherente (mundo_widget d).
Proof. apply (bool_decide_unpack _). vm_compute. exact I. Defined.

Lemma coherente_mundo_dos : coherente mundo_dos.
Proof. apply (bool_decide_unpack _). vm_compute. exact I. Defined.

(** The name a|b passes the constructor, and its line has five fields:
    the loader skips it, and the store stays empty. *)
Lemma nombre_con_separador_no_vuelve :
  let p := {| _id := 1; _nombre := lit "A|B"; _cantidad := 0; _precio := precio_0 |} in
  Producto_init 1 (lit "a|b") 0 precio_0 mundo_vacio
  = (Ret 0, con_objetos [p] mundo_vacio) ∧
  linea_de p = lit "1|A|B|0|0.0" ++ [Py.LF] ∧
  procesar_linea 1 (linea_de p) 0 mundo_vacio
  = (Ret 0, con_consola [MsgFormatoIncorrecto 1 (lit "1|A|B|0|0.0")] mundo_vacio).
Proof. repeat split; reflexivity. Qed.

(** The text of one space finds Widget, whose name has no space. *)
Lemma busqueda_de_un_espacio :
  buscar_por_nombre (lit " ") (mundo_widget disco_sano)
  = (Ret [0], mundo_widget disco_sano) ∧
  Py.contiene (Py.lower (lit " ")) (Py.lower (_nombre widget)) = false.
Proof. split; reflexivity. Qed.


Lemma producto_ida_y_vuelta_testigo :
  ∃ w3 l2,
    procesar_linea 1 (lit "1|Widget|5|9.99" ++ [Py.LF]) 0 mundo_vacio = (Ret 1, w3) ∧
    objetos w3 !! l2 = Some widget.
Proof.
  destruct (producto_ida_y_vuelta (PF := decimal_PyFloat) mundo_vacio 1 (lit "widget") 5 precio_999)
    as (_ & H & _).
  - lia.
  - lia.
  - reflexivity.
  - apply (bool_decide_unpack _). vm_compute. exact I.
  - apply (bool_decide_unpack _). vm_compute. exact I.
  - destruct (H 1 0 mundo_vacio eq_refl) as (w3 & l2 & H1 & _ & _ & H2).
    exists w3, l2. split; [exact H1|exact H2].
Defined.

(** The widget is added in a world that has no object; the file it
    leaves is then loaded by a store that starts with no object. *)
Lemma escenario_widget_testigo :
  ∃ w2 w3,
    agregar_producto 0 (con_objetos [widget] mundo_vacio) = (Ret true, w2) ∧
    contenido (disco w2) = Some (lit "1|Widget|5|9.99" ++ [Py.LF]) ∧
    Inventario_init (con_disco (disco w2) mundo_vacio) = (Ret tt, w3) ∧
    (contar_productos w3).1 = Ret 1 ∧
    _productos (inventario w3) = [0] ∧
    objetos w3 = [widget].
Proof.
  destruct (escenario_widget (PF := decimal_PyFloat) [] disco_sano [] precio_999 eq_refl eq_refl eq_refl eq_refl)
    as (l & w1 & w2 & H1 & H2 & H3 & _ & _ & H).
  injection H1 as <- <-.
  destruct (H (con_disco (disco w2) mundo_vacio) eq_refl)
    as (w3 & H4 & H5 & H6 & _ & H7 & _).
  exists w2, w3. repeat split; assumption.
Defined.



Lemma buscar_por_nombre_correcto_testigo :
  buscar_por_nombre (lit "wid") mundo_dos = (Ret [0], mundo_dos).
Proof.
  destruct (buscar_por_nombre_correcto (PF := decimal_PyFloat) mundo_dos (lit "wid")
              (coherente_vivos _ coherente_mundo_dos)) as [_ H].
  exact (H 0 1 widget gadget eq_refl eq_refl eq_refl eq_refl eq_refl).
Defined.




(** A file with a record, a line of two fields and a second record
    with the id of the first. *)
Definition texto_repetido : str :=
  lit "1|Widget|5|9.99" ++ [Py.LF] ++ lit "x|y" ++ [Py.LF]
    ++ lit "1|otro|1|0.0" ++ [Py.LF].

Definition archivo_repetido : Disco :=
  {| contenido := Some texto_repetido; falla_lectura := None;
     falla_escritura := None |}.

Example carga_repetida :
  let w := (Inventario_init (con_disco archivo_repetido mundo_vacio)).2 in
  (_productos (inventario w), length (objetos w), map nivel_de (consola w))
  = ([0], 2, [ADVERTENCIA; ADVERTENCIA; INFO]).
Proof. reflexivity. Qed.

Example mostrar_todos_ejemplo :
  map (λ i, match i with ImpProducto p => Some (_id p) | _ => None end)
      (mostrar_todos mundo_dos).2
  = [None; None; None; Some 2%Z; Some 1%Z; None].
Proof. reflexivity. Qed.

Example obtener_entero_ejemplo :
  obtener_entero (lit "ID: ") [lit "abc"; lit "1.5"; lit " 42 "; lit "7"]
  = (Some 42%Z, [lit "7"],
     [Pide (lit "ID: "); AvisaEntero; Pide (lit "ID: "); AvisaEntero;
      Pide (lit "ID: ")]).
Proof. reflexivity. Qed.




Lemma carga_primer_registro_testigo :
  ∃ w', Inventario_init (con_disco archivo_repetido mundo_vacio) = (Ret tt, w') ∧
        (contar_productos w').1 = Ret 1.
Proof.
  destruct (carga_primer_registro (PF := decimal_PyFloat)
              (con_disco archivo_repetido mundo_vacio) texto_repetido
              eq_refl eq_refl) as (w' & H1 & _ & _ & H2 & _).
  exists w'. split; [exact H1|exact H2].
Defined.

Lemma carga_cuenta_cada_linea_testigo :
  ∃ w' (avisos : list mensaje),
    Inventario_init (con_disco archivo_repetido mundo_vacio) = (Ret tt, w') ∧
    length avisos + length (_productos (inventario w')) = 3.
Proof.
  destruct (carga_cuenta_cada_linea (PF := decimal_PyFloat)
              (con_disco archivo_repetido mundo_vacio) texto_repetido
              eq_refl eq_refl) as (w' & avisos & H1 & _ & _ & H2 & _).
  exists w', avisos. split; [exact H1|exact H2].
Defined.


(** The second load is that of a store that starts with no object. *)
Lemma cargar_guardar_cargar_testigo :
  ∃ w1 w2 w3,
    Inventario_init (con_disco archivo_repetido mundo_vacio) = (Ret tt, w1) ∧
    _guardar_en_archivo w1 = (Ret tt, w2) ∧
    Inventario_init (con_disco (disco w2) mundo_vacio) = (Ret tt, w3) ∧
    registros w3 = registros w1.
Proof.
  destruct (cargar_guardar_cargar (PF := decimal_PyFloat)
              (con_disco archivo_repetido mundo_vacio) texto_repetido
              eq_refl eq_refl eq_refl)
    as (w1 & w2 & ps & H1 & _ & H2 & _ & H).
  - apply (bool_decide_unpack _). vm_compute. exact I.
  - destruct (H (con_disco (disco w2) mundo_vacio) eq_refl)
      as (w3 & w4 & H3 & _ & H4 & _).
    exists w1, w2, w3. split; [exact H1|]. split; [exact H2|].
    split; [exact H3|exact H4].
Defined.




Lemma buscar_por_nombre_encuentra_testigo :
  ∃ resultado,
    buscar_por_nombre (lit "DGE") mundo_dos = (Ret resultado, mundo_dos) ∧
    1 ∈ resultado.
Proof.
  destruct (buscar_por_nombre_encuentra (PF := decimal_PyFloat) mundo_dos
              (lit "DGE") 1 gadget (coherente_vivos _ coherente_mundo_dos))
    as [H _].
  - right. left.
  - reflexivity.
  - destruct (H eq_refl) as (resultado & H1 & H2).
    exists resultado. split; [exact H1|exact H2].
Defined.

Lemma mostrar_todos_ordenado_testigo :
  ∃ filas,
    mostrar_todos mundo_dos
    = (Ret tt, [ImpBordeSuperior; ImpCabecera; ImpRaya]
                 ++ map ImpProducto filas ++ [ImpBordeInferior]) ∧
    filas ≡ₚ [widget; gadget].
Proof.
  destruct (mostrar_todos_ordenado (PF := decimal_PyFloat) mundo_dos
              [widget; gadget] eq_refl) as [_ H].
  destruct H as (filas & H1 & H2 & _); [done|].
  exists filas. split; [exact H1|exact H2].
Defined.

(** The file that holds the line of Widget. *)
Definition disco_widget : Disco :=
  {| contenido := Some (lit "1|Widget|5|9.99" ++ [Py.LF]);
     falla_lectura := None; falla_escritura := None |}.


(** A session on [archivo_mixto]: the first product is removed, an
    object that was there is added, a new product is built and added,
    and a quantity is set to zero. *)
Definition operaciones_de_ejemplo : list operacion :=
  [OpEliminar 1; OpAgregar 1; OpProducto 7 (lit "cable usb") 2 precio_0;
   OpAgregar 6; OpActualizarCantidad 4 0].

(** The next start is that of a store with no object, on the file the
    session left. *)
Lemma reinicio_conserva_inventario_testigo :
  ∃ w',
    Inventario_init
      (con_disco (disco (sesion [widget; gadget] archivo_mixto operaciones_de_ejemplo))
                 mundo_vacio)
    = (Ret tt, w') ∧
    registros w'
    = registros (sesion [widget; gadget] archivo_mixto operaciones_de_ejemplo).
Proof.
  destruct (reinicio_conserva_inventario (PF := decimal_PyFloat)
              [widget; gadget] archivo_mixto operaciones_de_ejemplo)
    with (w := con_disco (disco (sesion [widget; gadget] archivo_mixto
                                   operaciones_de_ejemplo)) mundo_vacio)
    as (w' & nuevos & H1 & _ & H2 & _).
  - reflexivity.
  - reflexivity.
  - apply (bool_decide_unpack _). vm_compute. exact I.
  - apply (bool_decide_unpack _). vm_compute. exact I.
  - apply (bool_decide_unpack _). vm_compute. exact I.
  - apply (bool_decide_unpack _). vm_compute. exact I.
  - reflexivity.
  - exists w'. split; [exact H1|exact H2].
Defined.



Example sesion_reiniciada :
  let w := sesion [widget; gadget] archivo_mixto operaciones_de_ejemplo in
  (map (λ o, _id <$> o) (registros w),
   map (λ o, _id <$> o)
       (registros (Inventario_init (con_disco (disco w) mundo_vacio)).2),
   contenido (disco w))
  = ([Some 2%Z; Some 4%Z; Some 7%Z], [Some 2%Z; Some 4%Z; Some 7%Z],
     Some (lit "2|Gadget|3|0.0" ++ [Py.LF] ++ lit "4|A B|0|2.5" ++ [Py.LF]
           ++ lit "7|Cable Usb|2|0.0" ++ [Py.LF])).
Proof. reflexivity. Qed.

Lemma Producto_init_sin_caja_testigo :
  Producto_init 3 (lit "  laptop HP ") 1 precio_0 mundo_vacio
  = Producto_init 3 (lit "LAPTOP hp") 1 precio_0 mundo_vacio.
Proof.
  apply (Producto_init_sin_caja (PF := decimal_PyFloat)).
  - apply (bool_decide_unpack _). vm_compute. exact I.
  - apply (bool_decide_unpack _). vm_compute. exact I.
  - reflexivity.
Defined.


Lemma asignacion_directa_no_se_guarda_testigo :
  ∃ w1 w2,
    set_cantidad 0 50 (mundo_widget disco_widget) = (Ret tt, w1) ∧
    registros w1 ≠ registros (mundo_widget disco_widget) ∧
    Inventario_init w1 = (Ret tt, w2) ∧
    registros w2 = registros (mundo_widget disco_widget).
Proof.
  destruct (asignacion_directa_no_se_guarda (PF := decimal_PyFloat)
              (mundo_widget disco_widget) 0 widget 50)
    as (w1 & w2 & H1 & _ & _ & _ & _ & H2 & H3 & H4).
  - apply coherente_mundo_widget.
  - intros l q Hl Hq. apply list_elem_of_singleton in Hl as ->.
    injection Hq as <-. apply (bool_decide_unpack _). vm_compute. exact I.
  - reflexivity.
  - reflexivity.
  - left.
  - reflexivity.
  - lia.
  - simpl. lia.
  - exists w1, w2. split; [exact H1|]. split; [exact H2|].
    split; [exact H3|exact H4].
Defined.
